(** * The wallet projection engine and the singleton history engine

    A shallow embedding of [chia/wallet/simple_wallet/simple_wallet_state_manager.py]
    (class [SimpleWalletStateManager]) and of the singleton store exercised by
    [tests/core/full_node/stores/test_singleton_store.py].

    Python integers are [Z]; a [bytes32] is the integer it denotes; dictionaries
    keyed by coin name are [gmap]s; the stores that [SimpleWalletStateManager]
    talks to are tables inside one [State] record; a method that can raise
    returns a [Result]; a method that mutates the manager is a function of the
    state monad [M]. *)

From Stdlib Require Import ZArith List Bool Lia String Sorted.
From stdpp Require Import base option list gmap fin_maps.

Open Scope Z_scope.

(* ===================================================================== *)
(** ** Data model *)
(* ===================================================================== *)

(** A [bytes32] (a coin name, a puzzle hash) is the integer it denotes. *)
Abbreviation bytes32 := Z (only parsing).

Record Coin := mkCoin {
  parent_coin_info : bytes32;
  puzzle_hash : bytes32;
  amount : Z
}.

(** [CoinState] of the wallet protocol: both heights are optional. *)
Record CoinState := mkCoinState {
  cs_coin : Coin;
  spent_height : option Z;
  created_height : option Z
}.

(** Modelled from the spec: the wallet kinds of section 4.5 ([WalletType] is
    declared in [chia/wallet/util/wallet_types.py]). *)
Inductive WalletType :=
| STANDARD_WALLET | RATE_LIMITED | COLOURED_COIN | DISTRIBUTED_ID | POOLING_WALLET.

(** [WalletType.value] *)
Definition WalletType_value (t : WalletType) : Z :=
  match t with
  | STANDARD_WALLET => 0
  | RATE_LIMITED => 1
  | COLOURED_COIN => 6
  | DISTRIBUTED_ID => 8
  | POOLING_WALLET => 9
  end.

(** Modelled from the spec: the transaction types of section 3
    ([TransactionType] is declared in [chia/wallet/util/transaction_type.py]). *)
Inductive TransactionType :=
| INCOMING_TX | OUTGOING_TX | COINBASE_REWARD | FEE_REWARD | INCOMING_TRADE | OUTGOING_TRADE.

Definition TransactionType_value (t : TransactionType) : Z :=
  match t with
  | INCOMING_TX => 0
  | OUTGOING_TX => 1
  | COINBASE_REWARD => 2
  | FEE_REWARD => 3
  | INCOMING_TRADE => 4
  | OUTGOING_TRADE => 5
  end.

(** Modelled from the spec: [WalletCoinRecord] of section 3, a seven-field
    record that the manager builds positionally; its fourth argument is
    [True] for the record of a spent coin and [False] in [coin_added], its
    fifth is the farm-reward flag. *)
Record WalletCoinRecord := mkWalletCoinRecord {
  wcr_coin : Coin;
  confirmed_height : Z;
  wcr_spent_height : Z;
  wcr_coinbase : bool;
  is_farm_reward : bool;
  wcr_wallet_type : WalletType;
  wcr_wallet_id : Z
}.

(** Modelled from the spec: [TransactionRecord] of section 3, with the keyword
    arguments the manager passes. *)
Record TransactionRecord := mkTransactionRecord {
  confirmed_at_height : Z;
  created_at_time : Z;
  to_puzzle_hash : bytes32;
  tx_amount : Z;
  fee_amount : Z;
  confirmed : bool;
  sent : Z;
  spend_bundle : option Z;
  additions : list Coin;
  removals : list Coin;
  tx_wallet_id : Z;
  sent_to : list (Z * Z * option Z);
  trade_id : option bytes32;
  tx_type : Z;
  tx_name : bytes32
}.

(** Modelled from the spec: [DerivationRecord] of section 3. *)
Record DerivationRecord := mkDerivationRecord {
  dr_index : Z;
  dr_puzzle_hash : bytes32;
  dr_pubkey : Z;
  dr_wallet_type : WalletType;
  dr_wallet_id : Z
}.

(** What the manager reads of a rate-limited wallet's [rl_info]. *)
Record RLInfo := mkRLInfo {
  rl_initialized : bool;
  rl_type_is_user : bool;
  rl_user_pubkey : Z;
  rl_admin_pubkey : Z
}.

(** An entry of [self.wallets]: what [wallet.type()] returns, as a
    [WalletType], and, for a rate-limited wallet, its [rl_info]. *)
Record WalletEntry := mkWalletEntry {
  w_type : WalletType;
  w_rl_info : RLInfo
}.

(** The calls the manager makes on its collaborators, in order. The last two
    constructors mark control points of [new_coin_state]: entering
    [reorg_rollback] and starting the loop body for one coin state. *)
Inductive Event :=
| state_changed_ev (state : string) (wallet_id : option Z)
| tx_pending_changed_ev
| subscribe_to_new_puzzle_hash_ev (phs : list bytes32)
| wallet_coin_added_ev (wallet_id : Z) (c : Coin) (height : Z)
| coins_of_interest_farmed_ev (cs : CoinState)
| delete_wallet_ev (wallet_id : Z)
| reorg_rollback_ev (height : Z)
| coin_state_ev (cs : CoinState).

(** The mutable state of a [SimpleWalletStateManager]: its stores, its wallet
    registry, the randomness consumed so far by [token_bytes], and the calls
    made so far. *)
Record State := mkState {
  coin_store : gmap Z WalletCoinRecord;
  tx_store : list TransactionRecord;
  derivation_paths : list DerivationRecord;
  last_used : option Z;
  interested_puzzle_hashes : list (bytes32 * Z);
  wallets : list (Z * WalletEntry);
  new_peak_callbacks : list Z;
  new_wallet : bool;
  entropy : nat;
  events : list Event
}.

Definition set_coin_store (v : gmap Z WalletCoinRecord) (st : State) : State :=
  mkState v (tx_store st) (derivation_paths st) (last_used st)
    (interested_puzzle_hashes st) (wallets st) (new_peak_callbacks st)
    (new_wallet st) (entropy st) (events st).

Definition set_tx_store (v : list TransactionRecord) (st : State) : State :=
  mkState (coin_store st) v (derivation_paths st) (last_used st)
    (interested_puzzle_hashes st) (wallets st) (new_peak_callbacks st)
    (new_wallet st) (entropy st) (events st).

Definition set_derivation_paths (v : list DerivationRecord) (st : State) : State :=
  mkState (coin_store st) (tx_store st) v (last_used st)
    (interested_puzzle_hashes st) (wallets st) (new_peak_callbacks st)
    (new_wallet st) (entropy st) (events st).

Definition set_last_used (v : option Z) (st : State) : State :=
  mkState (coin_store st) (tx_store st) (derivation_paths st) v
    (interested_puzzle_hashes st) (wallets st) (new_peak_callbacks st)
    (new_wallet st) (entropy st) (events st).

Definition set_wallets (v : list (Z * WalletEntry)) (st : State) : State :=
  mkState (coin_store st) (tx_store st) (derivation_paths st) (last_used st)
    (interested_puzzle_hashes st) v (new_peak_callbacks st)
    (new_wallet st) (entropy st) (events st).

Definition set_new_peak_callbacks (v : list Z) (st : State) : State :=
  mkState (coin_store st) (tx_store st) (derivation_paths st) (last_used st)
    (interested_puzzle_hashes st) (wallets st) v
    (new_wallet st) (entropy st) (events st).

Definition set_entropy (v : nat) (st : State) : State :=
  mkState (coin_store st) (tx_store st) (derivation_paths st) (last_used st)
    (interested_puzzle_hashes st) (wallets st) (new_peak_callbacks st)
    (new_wallet st) v (events st).

Definition set_events (v : list Event) (st : State) : State :=
  mkState (coin_store st) (tx_store st) (derivation_paths st) (last_used st)
    (interested_puzzle_hashes st) (wallets st) (new_peak_callbacks st)
    (new_wallet st) (entropy st) v.

(* ===================================================================== *)
(** ** Exceptions and the state monad *)
(* ===================================================================== *)

Inductive PyError :=
| TypeError | ValueError | KeyError | AssertionError | AttributeError.

Inductive Result (A : Type) :=
| Ok (a : A)
| Raise (e : PyError).
Arguments Ok {A} a.
Arguments Raise {A} e.

(** A method of the manager: it returns or raises, and in both cases leaves a
    state behind (an exception does not undo the writes made before it). *)
Definition M (A : Type) : Type := State -> Result A * State.

Definition ret {A} (a : A) : M A := fun st => (Ok a, st).

Definition raise {A} (e : PyError) : M A := fun st => (Raise e, st).

Definition bind {A B} (m : M A) (k : A -> M B) : M B :=
  fun st =>
    match m st with
    | (Ok a, st') => k a st'
    | (Raise e, st') => (Raise e, st')
    end.

Definition gets {A} (f : State -> A) : M A := fun st => (Ok (f st), st).

Definition modify (f : State -> State) : M unit := fun st => (Ok tt, f st).

Definition lift {A} (r : Result A) : M A := fun st => (r, st).

Notation "'let*' x ':=' c1 'in' c2" := (bind c1 (fun x => c2))
  (at level 10, x pattern, c1 at level 100, c2 at level 200).

Definition when (b : bool) (m : M unit) : M unit := if b then m else ret tt.

(** [for x in l: body x] *)
Fixpoint for_each {A} (l : list A) (body : A -> M unit) : M unit :=
  match l with
  | [] => ret tt
  | x :: rest => let* _ := body x in for_each rest body
  end.

(** [for x in l: acc = body acc x] *)
Fixpoint fold_each {A B} (l : list A) (body : B -> A -> M B) (acc : B) : M B :=
  match l with
  | [] => ret acc
  | x :: rest => let* acc' := body acc x in fold_each rest body acc'
  end.

Definition emit (e : Event) : M unit :=
  modify (fun st => set_events (events st ++ [e]) st).

(** Modelled from the spec: the sized integers of [chia/util/ints.py]
    ([u32], [u64] in section 3, [uint128] for balances); constructing one from a
    value outside its range raises [ValueError]. *)
Definition sized_int (bits : Z) (v : Z) : Result Z :=
  if (0 <=? v) && (v <? 2 ^ bits) then Ok v else Raise ValueError.

Definition uint64 := sized_int 64.
Definition uint128 := sized_int 128.

(* ===================================================================== *)
(** ** The stores *)
(* ===================================================================== *)

(** *** Coin ledger ([WalletCoinStore]) *)

(** Modelled from the spec: the Coin Ledger of section 4.2, a table with
    primary key [coin_name]; [get_by_name]. *)
Definition get_coin_record (name : bytes32) (st : State) : option WalletCoinRecord :=
  coin_store st !! name.

Definition with_spent_height (h : Z) (r : WalletCoinRecord) : WalletCoinRecord :=
  mkWalletCoinRecord (wcr_coin r) (confirmed_height r) h (wcr_coinbase r)
    (is_farm_reward r) (wcr_wallet_type r) (wcr_wallet_id r).

(** Modelled from the spec: [set_spent(name, height)] of section 4.2; coin
    records are "mutated only to set [spent_height]". *)
Definition coin_store_set_spent (name : bytes32) (h : Z)
    (m : gmap Z WalletCoinRecord) : gmap Z WalletCoinRecord :=
  alter (with_spent_height h) name m.

(** Modelled from the spec: [rollback_to_block(h)] of section 4.2, which
    "deletes every record with [confirmed_height > h] and clears [spent_height]
    for every record with [spent_height > h]". *)
Definition clear_spent_above (h : Z) (r : WalletCoinRecord) : WalletCoinRecord :=
  if h <? wcr_spent_height r then with_spent_height 0 r else r.

Definition coin_store_rollback_to_block (h : Z)
    (m : gmap Z WalletCoinRecord) : gmap Z WalletCoinRecord :=
  clear_spent_above h <$> filter (fun kv => confirmed_height kv.2 <= h) m.

(** Modelled from the spec: [get_unspent_for_wallet(wallet_id)] of section 4.2;
    a record is unspent when its [spent_height] is 0. *)
Definition get_unspent_coins_for_wallet (wallet_id : Z) (st : State)
    : list WalletCoinRecord :=
  List.filter (fun r => (wcr_spent_height r =? 0) && (wcr_wallet_id r =? wallet_id))
    (map snd (map_to_list (coin_store st))).

(** *** Transaction ledger ([WalletTransactionStore]) *)

(** Modelled from the spec: the Transaction Ledger of section 4.2, a table
    with primary key [tx.name]; [add] replaces the row of the same name. *)
Fixpoint tx_store_add (t : TransactionRecord) (l : list TransactionRecord)
    : list TransactionRecord :=
  match l with
  | [] => [t]
  | t0 :: rest =>
      if tx_name t0 =? tx_name t then t :: rest else t0 :: tx_store_add t rest
  end.

Definition with_confirmed (h : Z) (t : TransactionRecord) : TransactionRecord :=
  mkTransactionRecord h (created_at_time t) (to_puzzle_hash t) (tx_amount t)
    (fee_amount t) true (sent t) (spend_bundle t) (additions t) (removals t)
    (tx_wallet_id t) (sent_to t) (trade_id t) (tx_type t) (tx_name t).

(** Modelled from the spec: [set_confirmed(name, height)] of section 4.2. *)
Definition tx_store_set_confirmed (name : bytes32) (h : Z)
    (l : list TransactionRecord) : list TransactionRecord :=
  map (fun t => if tx_name t =? name then with_confirmed h t else t) l.

(** Modelled from the spec: [get_unconfirmed_for_wallet]. *)
Definition get_unconfirmed_for_wallet (wallet_id : Z) (st : State)
    : list TransactionRecord :=
  List.filter (fun t => negb (confirmed t) && (tx_wallet_id t =? wallet_id))
    (tx_store st).

(** Modelled from the spec: the pending queue, [get_all_unconfirmed()]. *)
Definition get_all_unconfirmed (st : State) : list TransactionRecord :=
  List.filter (fun t => negb (confirmed t)) (tx_store st).

(** Modelled from the spec: [get_all_transactions_for_wallet(wallet_id, type)]. *)
Definition get_all_transactions_for_wallet (wallet_id : Z) (ty : TransactionType)
    (st : State) : list TransactionRecord :=
  List.filter (fun t => (tx_wallet_id t =? wallet_id)
                        && (tx_type t =? TransactionType_value ty))
    (tx_store st).

(** Modelled from the spec: [get_transaction_above(height)]. *)
Definition get_transaction_above (h : Z) (st : State) : list TransactionRecord :=
  List.filter (fun t => h <? confirmed_at_height t) (tx_store st).

(** Modelled from the spec: [rollback_to_block(h)] of section 4.2, which
    "deletes confirmed tx with [confirmed_at_height > h]". *)
Definition tx_store_rollback_to_block (h : Z) (l : list TransactionRecord)
    : list TransactionRecord :=
  List.filter (fun t => negb (confirmed t && (h <? confirmed_at_height t))) l.

(** Modelled from the spec: [tx_reorged], by which a transaction above the
    rollback height "is re-queued as unconfirmed (it may resubmit)". *)
Definition tx_reorged_record (t : TransactionRecord) : TransactionRecord :=
  mkTransactionRecord 0 (created_at_time t) (to_puzzle_hash t) (tx_amount t)
    (fee_amount t) false 0 (spend_bundle t) (additions t) (removals t)
    (tx_wallet_id t) [] (trade_id t) (tx_type t) (tx_name t).

(** *** Derivation index ([WalletPuzzleStore]) and interest set *)

(** Modelled from the spec: the derivation record of a puzzle hash, if the
    index holds one. *)
Definition find_derivation (ph : bytes32) (st : State) : option DerivationRecord :=
  List.find (fun d => dr_puzzle_hash d =? ph) (derivation_paths st).

(** Modelled from the spec: [wallet_info_for_puzzle_hash(ph)] of section 4.1. *)
Definition wallet_info_for_puzzle_hash (ph : bytes32) (st : State)
    : option (Z * WalletType) :=
  match find_derivation ph st with
  | Some d => Some (dr_wallet_id d, dr_wallet_type d)
  | None => None
  end.

(** Modelled from the spec: [index_for_puzzle_hash(ph)] of section 4.1. *)
Definition index_for_puzzle_hash (ph : bytes32) (st : State) : option Z :=
  match find_derivation ph st with
  | Some d => Some (dr_index d)
  | None => None
  end.

(** Modelled from the spec: [get_derivation_record_for_puzzle_hash(ph)]. *)
Definition get_derivation_record_for_puzzle_hash (ph : bytes32) (st : State)
    : option DerivationRecord :=
  find_derivation ph st.

(** Modelled from the spec: [set_used_up_to(index)] of section 4.1, "monotone;
    never decreases [last_used]". *)
Definition set_used_up_to (index : Z) : M unit :=
  modify (fun st =>
    match last_used st with
    | Some u => if u <? index then set_last_used (Some index) st else st
    | None => set_last_used (Some index) st
    end).

(** The highest and the lowest index of a list of derivation records. *)
Definition max_index (l : list DerivationRecord) : option Z :=
  fold_left (fun acc d =>
               match acc with
               | Some m => Some (Z.max m (dr_index d))
               | None => Some (dr_index d)
               end) l None.

Definition min_index (l : list DerivationRecord) : option Z :=
  fold_left (fun acc d =>
               match acc with
               | Some m => Some (Z.min m (dr_index d))
               | None => Some (dr_index d)
               end) l None.

(** Modelled from the spec: [get_unused_derivation_path()] of section 4.1, the
    "lowest index with [index > last_used] and derivation exists". *)
Definition get_unused_derivation_path (st : State) : option Z :=
  min_index (List.filter (fun d => match last_used st with
                                   | Some u => u <? dr_index d
                                   | None => true
                                   end) (derivation_paths st)).

(** Modelled from the spec: the persisted last-generated pointer. *)
Definition get_last_derivation_path (st : State) : option Z :=
  max_index (derivation_paths st).

(** Modelled from the spec: the last-generated pointer of one wallet. *)
Definition get_last_derivation_path_for_wallet (wallet_id : Z) (st : State)
    : option Z :=
  max_index (List.filter (fun d => dr_wallet_id d =? wallet_id) (derivation_paths st)).

(** Modelled from the spec: [add_derivation_paths(records)] of section 4.1. *)
Definition add_derivation_paths (records : list DerivationRecord) : M unit :=
  modify (fun st => set_derivation_paths (derivation_paths st ++ records) st).

(** Modelled from the spec: [interested_store.lookup(puzzle_hash)]. *)
Definition get_interested_puzzle_hash_wallet_id (ph : bytes32) (st : State)
    : option Z :=
  match List.find (fun p => fst p =? ph) (interested_puzzle_hashes st) with
  | Some p => Some (snd p)
  | None => None
  end.

(** [self.wallets[wallet_id]] *)
Definition lookup_wallet (wallet_id : Z) (st : State) : option WalletEntry :=
  match List.find (fun p => fst p =? wallet_id) (wallets st) with
  | Some p => Some (snd p)
  | None => None
  end.

(* ===================================================================== *)
(** ** Balance queries *)
(* ===================================================================== *)

(** The loop of [get_confirmed_balance_for_wallet]:
    [amount = uint128(amount + record.coin.amount)]. *)
Fixpoint confirmed_balance_loop (records : list WalletCoinRecord) (total : Z)
    : Result Z :=
  match records with
  | [] => uint128 total
  | record :: rest =>
      match uint128 (total + amount (wcr_coin record)) with
      | Ok total' => confirmed_balance_loop rest total'
      | Raise e => Raise e
      end
  end.

Definition get_confirmed_balance_for_wallet (wallet_id : Z)
    (unspent_coin_records : option (list WalletCoinRecord)) (st : State) : Result Z :=
  let records :=
    match unspent_coin_records with
    | Some records => records
    | None => get_unspent_coins_for_wallet wallet_id st
    end in
  match uint128 0 with
  | Ok total => confirmed_balance_loop records total
  | Raise e => Raise e
  end.

Definition does_coin_belong_to_wallet (coin : Coin) (wallet_id : Z) (st : State)
    : bool :=
  match wallet_info_for_puzzle_hash (puzzle_hash coin) st with
  | None => false
  | Some (coin_wallet_id, _) => wallet_id =? coin_wallet_id
  end.

(** [for removal in record.removals: removal_amount += removal.amount] *)
Fixpoint removals_loop (l : list Coin) (removal_amount : Z) : Z :=
  match l with
  | [] => removal_amount
  | removal :: rest => removals_loop rest (removal_amount + amount removal)
  end.

(** [for addition in record.additions: if belongs: addition_amount += ...] *)
Fixpoint additions_loop (st : State) (wallet_id : Z) (l : list Coin)
    (addition_amount : Z) : Z :=
  match l with
  | [] => addition_amount
  | addition :: rest =>
      if does_coin_belong_to_wallet addition wallet_id st
      then additions_loop st wallet_id rest (addition_amount + amount addition)
      else additions_loop st wallet_id rest addition_amount
  end.

(** [for record in unconfirmed_tx: ...], carrying both accumulators. *)
Fixpoint unconfirmed_loop (st : State) (wallet_id : Z)
    (l : list TransactionRecord) (removal_amount addition_amount : Z) : Z * Z :=
  match l with
  | [] => (removal_amount, addition_amount)
  | record :: rest =>
      unconfirmed_loop st wallet_id rest
        (removals_loop (removals record) removal_amount)
        (additions_loop st wallet_id (additions record) addition_amount)
  end.

Definition get_unconfirmed_balance (wallet_id : Z)
    (unspent_coin_records : option (list WalletCoinRecord)) (st : State) : Result Z :=
  match get_confirmed_balance_for_wallet wallet_id unspent_coin_records st with
  | Raise e => Raise e
  | Ok confirmed =>
      let unconfirmed_tx := get_unconfirmed_for_wallet wallet_id st in
      let '(removal_amount, addition_amount) :=
        unconfirmed_loop st wallet_id unconfirmed_tx 0 0 in
      uint128 (confirmed - removal_amount + addition_amount)
  end.

(* ===================================================================== *)
(** ** The environment of the manager *)
(* ===================================================================== *)

(** What the manager obtains from code outside this file: hashing, the
    consensus constants, the wallet node's network calls (section 6), the trade
    manager, key derivation, the wallets' puzzles and the configuration. *)
Record Env := mkEnv {
  (** [Coin.name()] *)
  coin_name : Coin -> bytes32;
  (** [pool_parent_id(height, GENESIS_CHALLENGE)] *)
  pool_parent_id : Z -> bytes32;
  (** [farmer_parent_id(height, GENESIS_CHALLENGE)] *)
  farmer_parent_id : Z -> bytes32;
  (** [wallet_node.get_timestamp_for_height(height)] *)
  get_timestamp_for_height : Z -> Z;
  (** [wallet_node.get_full_node_peer()] *)
  get_full_node_peer : option Z;
  (** [wallet_node.fetch_children(node, coin_name)] *)
  fetch_children : Z -> bytes32 -> list CoinState;
  (** [wallet_node.fetch_puzzle_solution(node, height, coin).reserved_fee()] *)
  reserved_fee : Z -> Z -> Coin -> Z;
  (** the successive values of [secrets.token_bytes()] *)
  token_bytes : nat -> bytes32;
  (** [trade_manager.get_coins_of_interest()]: the keys of both dictionaries *)
  trade_removals : list bytes32;
  trade_additions : list bytes32;
  (** [wallet.rewind(height)] of a pool wallet *)
  pool_rewind : Z -> Z -> bool;
  (** [master_sk_to_wallet_sk(private_key, index).get_g1()] *)
  get_public_key : Z -> Z;
  (** the tree hash of [wallet.puzzle_for_pk(pubkey)], [None] for no puzzle *)
  puzzle_for_pk : Z -> Z -> option bytes32;
  (** [config["initial_num_public_keys"]] *)
  initial_num_public_keys : Z;
  (** [config["initial_num_public_keys_new_wallet"]] *)
  initial_num_public_keys_new_wallet : Z
}.

(* ===================================================================== *)
(** ** [list.sort(key=...)] *)
(* ===================================================================== *)

(** Python's [<] between two sort keys of type [Optional[uint32]]: an absent
    operand on either side raises [TypeError]. *)
Definition py_lt (a b : option Z) : Result bool :=
  match a, b with
  | Some x, Some y => Ok (x <? y)
  | _, _ => Raise TypeError
  end.

(** [list.sort(key=key)] is stable and uses only [<] on the keys; a list
    shorter than two elements is not compared at all. It is embedded as the
    stable insertion sort: the exception raised by a comparison escapes. *)
Fixpoint py_insert {A} (key : A -> option Z) (x : A) (sorted : list A)
    : Result (list A) :=
  match sorted with
  | [] => Ok [x]
  | y :: rest =>
      match py_lt (key y) (key x) with
      | Raise e => Raise e
      | Ok true =>
          match py_insert key x rest with
          | Ok rest' => Ok (y :: rest')
          | Raise e => Raise e
          end
      | Ok false => Ok (x :: y :: rest)
      end
  end.

Fixpoint py_sort {A} (key : A -> option Z) (l : list A) : Result (list A) :=
  match l with
  | [] => Ok []
  | x :: rest =>
      match py_sort key rest with
      | Ok sorted => py_insert key x sorted
      | Raise e => Raise e
      end
  end.

(* ===================================================================== *)
(** ** The wallet projection engine *)
(* ===================================================================== *)

(** The [wallet_type] that [new_coin_state] hands to [coin_added]. Taken from
    the derivation index it is a member of the enumeration [WalletType];
    taken from the registry it is the bare integer that [wallet.type()]
    returns, kept here as the wallet type whose value it is. A bare integer
    has no attribute [value]; it compares equal to the member of its value,
    and a record built from it denotes that member. *)
Inductive PyWalletType :=
| enum_member (t : WalletType)
| bare_int (t : WalletType).

Definition denoted_type (wallet_type : PyWalletType) : WalletType :=
  match wallet_type with
  | enum_member t => t
  | bare_int t => t
  end.

(** The local variables of [new_coin_state] that its loop updates. *)
Record Locals := mkLocals {
  added : list WalletCoinRecord;
  removed : list CoinState;
  all_outgoing_per_wallet : list (Z * list TransactionRecord);
  trade_adds : list CoinState;
  trade_coin_removed : list CoinState
}.

Section Engine.

Variable env : Env.

Definition add_coin_record (record : WalletCoinRecord) : M unit :=
  modify (fun st =>
    set_coin_store (<[coin_name env (wcr_coin record) := record]> (coin_store st)) st).

Definition set_spent (name : bytes32) (height : Z) : M unit :=
  modify (fun st => set_coin_store (coin_store_set_spent name height (coin_store st)) st).

Definition add_transaction_record (t : TransactionRecord) : M unit :=
  modify (fun st => set_tx_store (tx_store_add t (tx_store st)) st).

Definition set_confirmed (name : bytes32) (height : Z) : M unit :=
  modify (fun st => set_tx_store (tx_store_set_confirmed name height (tx_store st)) st).

(** [name=token_bytes()] *)
Definition fresh_token : M bytes32 :=
  fun st => (Ok (token_bytes env (entropy st)), set_entropy (S (entropy st)) st).

(** [self.state_changed(state, wallet_id)] *)
Definition state_changed (state : string) (wallet_id : option Z) : M unit :=
  emit (state_changed_ev state wallet_id).

(** [self.tx_pending_changed()] *)
Definition tx_pending_changed : M unit := emit tx_pending_changed_ev.

(** The loop shared by [is_pool_reward] and [is_farmer_reward]:
    [for i in range(0, 30)] with its [break] on a negative height. *)
Fixpoint reward_loop (parent_of : Z -> bytes32) (created : Z)
    (parent_id : bytes32) (range : list Z) : bool :=
  match range with
  | [] => false
  | i :: rest =>
      let try_height := created - i in
      if try_height <? 0 then false
      else if parent_of try_height =? parent_id then true
      else reward_loop parent_of created parent_id rest
  end.

Definition is_pool_reward (created : Z) (parent_id : bytes32) : bool :=
  reward_loop (pool_parent_id env) created parent_id (seqZ 0 30).

Definition is_farmer_reward (created : Z) (parent_id : bytes32) : bool :=
  reward_loop (farmer_parent_id env) created parent_id (seqZ 0 30).

(** [wallet_type.value == coin_record.wallet_type] for a [wallet_type] that is
    a member of the enumeration. *)
Definition same_wallet_type (wallet_type : WalletType) (r : WalletCoinRecord)
    : bool :=
  WalletType_value wallet_type =? WalletType_value (wcr_wallet_type r).

(** [change] as both [coin_added] and [new_coin_state] compute it:
    [coin_record is not None and wallet_type.value == coin_record.wallet_type].
    The right operand is evaluated only when the parent is in the ledger, and
    there [wallet_type.value] raises on a bare integer. *)
Definition is_change (coin_record : option WalletCoinRecord)
    (wallet_type : PyWalletType) : Result bool :=
  match coin_record with
  | None => Ok false
  | Some r =>
      match wallet_type with
      | enum_member t => Ok (same_wallet_type t r)
      | bare_int _ => Raise AttributeError
      end
  end.

(** The outgoing records of [all_outgoing_transaction_records] that list the
    coin among their additions, once per occurrence. *)
Definition matching_outgoing (coin : Coin) (all_outgoing : list TransactionRecord)
    : list TransactionRecord :=
  flat_map (fun record =>
              flat_map (fun add_coin =>
                          if coin_name env add_coin =? coin_name env coin
                          then [record] else [])
                       (additions record))
           all_outgoing.

Definition coin_added (coin : Coin) (coinbase fee_reward : bool) (wallet_id : Z)
    (wallet_type : PyWalletType) (height : Z)
    (all_outgoing_transaction_records : list TransactionRecord)
    : M WalletCoinRecord :=
  let* parent_record := gets (get_coin_record (parent_coin_info coin)) in
  let* change := lift (is_change parent_record wallet_type) in
  let* farm_reward :=
    if coinbase || fee_reward then
      let ty := if coinbase then COINBASE_REWARD else FEE_REWARD in
      let timestamp := get_timestamp_for_height env height in
      let* _ :=
        when (negb change)
          (add_transaction_record
             (mkTransactionRecord height timestamp (puzzle_hash coin) (amount coin)
                0 true 0 None [coin] [] wallet_id [] None
                (TransactionType_value ty) (coin_name env coin))) in
      ret true
    else
      let records := matching_outgoing coin all_outgoing_transaction_records in
      let* _ :=
        match records with
        | _ :: _ =>
            for_each records (fun record =>
              when (negb (confirmed record)) (set_confirmed (tx_name record) height))
        | [] =>
            when (negb change)
              (let timestamp := get_timestamp_for_height env height in
               when (0 <? amount coin)
                 (add_transaction_record
                    (mkTransactionRecord height timestamp (puzzle_hash coin)
                       (amount coin) 0 true 0 None [coin] [] wallet_id [] None
                       (TransactionType_value INCOMING_TX) (coin_name env coin))))
        end in
      ret false in
  let coin_record :=
    mkWalletCoinRecord coin height 0 false farm_reward (denoted_type wallet_type)
      wallet_id in
  let* _ := add_coin_record coin_record in
  let* _ :=
    match denoted_type wallet_type with
    | COLOURED_COIN | DISTRIBUTED_ID =>
        let* wallet := gets (lookup_wallet wallet_id) in
        match wallet with
        | Some _ => emit (wallet_coin_added_ev wallet_id coin height)
        | None => raise KeyError
        end
    | _ => ret tt
    end in
  let* _ := state_changed "coin_added" (Some (wcr_wallet_id coin_record)) in
  ret coin_record.

(** [self.new_peak_callbacks.pop(wallet_id)]: a missing key raises. *)
Definition pop_new_peak_callback (wallet_id : Z) : M unit :=
  let* callbacks := gets new_peak_callbacks in
  if existsb (Z.eqb wallet_id) callbacks
  then modify (set_new_peak_callbacks
                 (List.filter (fun w => negb (w =? wallet_id)) callbacks))
  else raise KeyError.

Definition is_requeued_type (ty : Z) : bool :=
  existsb (fun t => ty =? TransactionType_value t)
    [OUTGOING_TX; OUTGOING_TRADE; INCOMING_TRADE].

Definition reorg_rollback (height : Z) : M unit :=
  let* _ := emit (reorg_rollback_ev height) in
  let* _ := modify (fun st =>
              set_coin_store (coin_store_rollback_to_block height (coin_store st)) st) in
  let* reorged := gets (get_transaction_above height) in
  let* _ := modify (fun st =>
              set_tx_store (tx_store_rollback_to_block height (tx_store st)) st) in
  let* _ := for_each reorged (fun record =>
              when (is_requeued_type (tx_type record))
                (add_transaction_record (tx_reorged_record record))) in
  let* _ := tx_pending_changed in
  let* registry := gets wallets in
  let remove_ids :=
    map fst
      (List.filter
         (fun p => (WalletType_value (w_type (snd p)) =? WalletType_value POOLING_WALLET)
                   && pool_rewind env (fst p) height)
         registry) in
  for_each remove_ids (fun wallet_id =>
    let* _ := emit (delete_wallet_ev wallet_id) in
    let* _ := modify (fun st =>
                set_wallets (List.filter (fun p => negb (fst p =? wallet_id)) (wallets st)) st) in
    pop_new_peak_callback wallet_id).

(** The loop over the fetched children that looks for a coin "that doesn't
    belong to us": [to_puzzle_hash] and [amount] after the loop. *)
Fixpoint children_loop (st : State) (l : list Coin)
    (to_ph : option bytes32) (total : Z) : option bytes32 * Z :=
  match l with
  | [] => (to_ph, total)
  | coin :: rest =>
      match get_derivation_record_for_puzzle_hash (puzzle_hash coin) st with
      | None => children_loop st rest (Some (puzzle_hash coin)) (total + amount coin)
      | Some _ => children_loop st rest to_ph total
      end
  end.

(** The branch [record is None] and [info is not None] of a created-and-spent
    coin state: the spent coin record, the incoming transaction unless the
    coin is change, and the outgoing transaction when children were fetched.
    Heights, timestamps and coin amounts are sized integers already and pass
    through [uint32(...)] and [uint64(...)] unchanged; [uint64(int(amount))] and
    [uint64(fee)] convert Python integers and can raise. *)
Definition synthesize_spent (coin_state : CoinState) (created spent : Z)
    (wallet_id : Z) (wallet_type : WalletType) : M unit :=
  let coin := cs_coin coin_state in
  let farmer_reward := is_farmer_reward created (parent_coin_info coin) in
  let pool_reward :=
    if farmer_reward then false else is_pool_reward created (parent_coin_info coin) in
  let record :=
    mkWalletCoinRecord coin created spent true (farmer_reward || pool_reward)
      wallet_type wallet_id in
  let* _ := add_coin_record record in
  let* parent_record := gets (get_coin_record (parent_coin_info coin)) in
  let* change := lift (is_change parent_record (enum_member wallet_type)) in
  let* _ :=
    when (negb change)
      (let created_timestamp := get_timestamp_for_height env created in
       let* name := fresh_token in
       add_transaction_record
         (mkTransactionRecord created created_timestamp (puzzle_hash coin)
            (amount coin) 0 true 0 None [coin] [] wallet_id [] None
            (TransactionType_value INCOMING_TX) name)) in
  match get_full_node_peer env with
  | None => raise AssertionError
  | Some node =>
      let children := fetch_children env node (coin_name env coin) in
      let additions := map cs_coin children in
      match additions with
      | [] => ret tt
      | first :: _ =>
          let fee := reserved_fee env node spent coin in
          let* found := gets (fun st => children_loop st additions None 0) in
          let to_ph :=
            match fst found with
            | Some ph => ph
            | None => puzzle_hash first
            end in
          let spent_timestamp := get_timestamp_for_height env spent in
          let* total := lift (uint64 (snd found)) in
          let* fee64 := lift (uint64 fee) in
          let* name := fresh_token in
          add_transaction_record
            (mkTransactionRecord spent spent_timestamp to_ph total fee64 true 0
               None additions [coin] wallet_id [] None
               (TransactionType_value OUTGOING_TX) name)
      end
  end.

(** For each unconfirmed transaction whose removals include the coin, set it
    confirmed at the spent height. *)
Definition confirm_spenders (all_unconfirmed : list TransactionRecord)
    (name : bytes32) (spent : Z) : M unit :=
  for_each all_unconfirmed (fun unconfirmed_record =>
    for_each (removals unconfirmed_record) (fun rem_coin =>
      when (coin_name env rem_coin =? name)
        (set_confirmed (tx_name unconfirmed_record) spent))).

Definition push_trade_add (cs : CoinState) (loc : Locals) : Locals :=
  mkLocals (added loc) (removed loc) (all_outgoing_per_wallet loc)
    (trade_adds loc ++ [cs]) (trade_coin_removed loc).

Definition push_trade_removed (cs : CoinState) (loc : Locals) : Locals :=
  mkLocals (added loc) (removed loc) (all_outgoing_per_wallet loc)
    (trade_adds loc) (trade_coin_removed loc ++ [cs]).

Definition push_added (r : WalletCoinRecord) (loc : Locals) : Locals :=
  mkLocals (added loc ++ [r]) (removed loc) (all_outgoing_per_wallet loc)
    (trade_adds loc) (trade_coin_removed loc).

Definition push_removed (cs : CoinState) (loc : Locals) : Locals :=
  mkLocals (added loc) (removed loc ++ [cs]) (all_outgoing_per_wallet loc)
    (trade_adds loc) (trade_coin_removed loc).

Definition cache_outgoing (wallet_id : Z) (l : list TransactionRecord)
    (loc : Locals) : Locals :=
  mkLocals (added loc) (removed loc) (all_outgoing_per_wallet loc ++ [(wallet_id, l)])
    (trade_adds loc) (trade_coin_removed loc).

Definition cached_outgoing (wallet_id : Z) (loc : Locals)
    : option (list TransactionRecord) :=
  match List.find (fun p => fst p =? wallet_id) (all_outgoing_per_wallet loc) with
  | Some p => Some (snd p)
  | None => None
  end.

(** The case "created, not spent" of the loop body. *)
Definition created_case (coin_state : CoinState) (created : Z)
    (info : option (Z * WalletType)) (interested_wallet_id : option Z)
    (loc : Locals) : M Locals :=
  let coin := cs_coin coin_state in
  let farmer_reward := is_farmer_reward created (parent_coin_info coin) in
  let pool_reward :=
    if farmer_reward then false else is_pool_reward created (parent_coin_info coin) in
  let loc :=
    if existsb (Z.eqb (coin_name env coin)) (trade_additions env)
    then push_trade_add coin_state loc else loc in
  let* resolved :=
    match info with
    | Some (wallet_id, wallet_type) => ret (Some (wallet_id, enum_member wallet_type))
    | None =>
        match interested_wallet_id with
        | Some wallet_id =>
            let* wallet := gets (lookup_wallet wallet_id) in
            match wallet with
            | Some w => ret (Some (wallet_id, bare_int (w_type w)))
            | None => raise KeyError
            end
        | None => ret None
        end
    end in
  match resolved with
  | None => ret loc
  | Some (wallet_id, wallet_type) =>
      let* cached :=
        match cached_outgoing wallet_id loc with
        | Some all_outgoing => ret (all_outgoing, loc)
        | None =>
            let* all_outgoing :=
              gets (get_all_transactions_for_wallet wallet_id OUTGOING_TX) in
            ret (all_outgoing, cache_outgoing wallet_id all_outgoing loc)
        end in
      let* added_coin_record :=
        coin_added coin pool_reward farmer_reward wallet_id wallet_type created
          (fst cached) in
      let loc := push_added added_coin_record (snd cached) in
      let* derivation_index := gets (index_for_puzzle_hash (puzzle_hash coin)) in
      let* _ :=
        match derivation_index with
        | Some index => set_used_up_to index
        | None => ret tt
        end in
      ret loc
  end.

(** The case "created and spent" of the loop body. *)
Definition spent_case (all_unconfirmed : list TransactionRecord)
    (coin_state : CoinState) (created spent : Z)
    (info : option (Z * WalletType)) (loc : Locals) : M Locals :=
  let coin := cs_coin coin_state in
  let* record := gets (get_coin_record (coin_name env coin)) in
  let loc :=
    if existsb (Z.eqb (coin_name env coin)) (trade_removals env)
    then push_trade_removed coin_state loc else loc in
  let* _ :=
    match record with
    | None =>
        match info with
        | Some (wallet_id, wallet_type) =>
            synthesize_spent coin_state created spent wallet_id wallet_type
        | None => ret tt
        end
    | Some _ => set_spent (coin_name env coin) spent
    end in
  let* _ := confirm_spenders all_unconfirmed (coin_name env coin) spent in
  ret (push_removed coin_state loc).

(** The body of [for coin_state in coin_states]. *)
Definition coin_state_body (all_unconfirmed : list TransactionRecord)
    (loc : Locals) (coin_state : CoinState) : M Locals :=
  let* _ := emit (coin_state_ev coin_state) in
  let* info := gets (wallet_info_for_puzzle_hash (puzzle_hash (cs_coin coin_state))) in
  let* interested_wallet_id :=
    gets (get_interested_puzzle_hash_wallet_id (puzzle_hash (cs_coin coin_state))) in
  match created_height coin_state, spent_height coin_state with
  | None, _ => ret loc
  | Some created, None =>
      created_case coin_state created info interested_wallet_id loc
  | Some created, Some spent =>
      spent_case all_unconfirmed coin_state created spent info loc
  end.

Definition empty_locals : Locals := mkLocals [] [] [] [] [].

(** The guard of the rollback in [new_coin_state]. *)
Definition maybe_rollback (fork_height current_height : option Z) : M unit :=
  match fork_height, current_height with
  | Some fork, Some current => when (negb (fork =? current - 1)) (reorg_rollback fork)
  | _, _ => ret tt
  end.

Definition new_coin_state (coin_states : list CoinState)
    (fork_height current_height : option Z)
    : M (list WalletCoinRecord * list CoinState) :=
  let* coin_states := lift (py_sort created_height coin_states) in
  let* all_unconfirmed := gets get_all_unconfirmed in
  let* _ := maybe_rollback fork_height current_height in
  let* loc := fold_each coin_states (coin_state_body all_unconfirmed) empty_locals in
  let* _ := for_each (trade_adds loc)
              (fun cs => emit (coins_of_interest_farmed_ev cs)) in
  let* _ := for_each (trade_coin_removed loc)
              (fun cs => emit (coins_of_interest_farmed_ev cs)) in
  ret (added loc, removed loc).

End Engine.

(* ===================================================================== *)
(** ** Derivation-path expansion *)
(* ===================================================================== *)

Section Derivation.

Variable env : Env.

(** [get_derivation_index(pubkey, max_depth=1000)] *)
Fixpoint derivation_index_loop (pubkey : Z) (range : list Z) : Z :=
  match range with
  | [] => -1
  | i :: rest =>
      if get_public_key env i =? pubkey then i
      else derivation_index_loop pubkey rest
  end.

Definition get_derivation_index (pubkey : Z) : Z :=
  derivation_index_loop pubkey (seqZ 0 1000).

(** [for index in range(start_index, unused + to_generate)] for one wallet,
    with its [continue] for a pool wallet and its [break]s; the value is
    [derivation_paths] after the loop. Taking the tree hash of a rate-limited
    puzzle that is [None] raises. *)
Fixpoint derive_loop (wallet_id : Z) (target_wallet : WalletEntry)
    (range : list Z) (paths : list DerivationRecord)
    : Result (list DerivationRecord) :=
  match range with
  | [] => Ok paths
  | index :: rest =>
      match w_type target_wallet with
      | POOLING_WALLET => derive_loop wallet_id target_wallet rest paths
      | RATE_LIMITED =>
          let rl_info := w_rl_info target_wallet in
          if negb (rl_initialized rl_info) then Ok paths
          else
            let rl_pubkey :=
              if rl_type_is_user rl_info then rl_user_pubkey rl_info
              else rl_admin_pubkey rl_info in
            match puzzle_for_pk env wallet_id rl_pubkey with
            | None => Raise AttributeError
            | Some rl_puzzle_hash =>
                let rl_index := get_derivation_index rl_pubkey in
                if rl_index =? -1 then Ok paths
                else Ok (paths ++ [mkDerivationRecord rl_index rl_puzzle_hash
                                     rl_pubkey (w_type target_wallet) wallet_id])
            end
      | _ =>
          let pubkey := get_public_key env index in
          match puzzle_for_pk env wallet_id pubkey with
          | None => Ok paths
          | Some puzzlehash =>
              derive_loop wallet_id target_wallet rest
                (paths ++ [mkDerivationRecord index puzzlehash pubkey
                             (w_type target_wallet) wallet_id])
          end
      end
  end.

(** [unused] as [create_more_puzzle_hashes] computes it. *)
Definition unused_or_last (st : State) : Z :=
  match get_unused_derivation_path st with
  | Some unused => unused
  | None =>
      match get_last_derivation_path st with
      | Some unused => unused
      | None => 0
      end
  end.

Definition to_generate (st : State) : Z :=
  if new_wallet st then initial_num_public_keys_new_wallet env
  else initial_num_public_keys env.

Definition start_index (from_zero : bool) (last : option Z) : Z :=
  if from_zero then 0
  else match last with
       | Some l => l + 1
       | None => 0
       end.

(** The body of [for wallet_id in targets]. *)
Definition expand_wallet (from_zero : bool) (unused generate : Z)
    (wallet_id : Z) : M unit :=
  let* target := gets (lookup_wallet wallet_id) in
  match target with
  | None => raise KeyError
  | Some target_wallet =>
      let* last := gets (get_last_derivation_path_for_wallet wallet_id) in
      let start := start_index from_zero last in
      let* paths :=
        lift (derive_loop wallet_id target_wallet
                (seqZ start (unused + generate - start)) []) in
      let puzzle_hashes := map dr_puzzle_hash paths in
      let* _ := add_derivation_paths paths in
      emit (subscribe_to_new_puzzle_hash_ev puzzle_hashes)
  end.

Definition create_more_puzzle_hashes (from_zero : bool) : M unit :=
  let* targets := gets (fun st => map fst (wallets st)) in
  let* unused := gets unused_or_last in
  let* generate := gets to_generate in
  let* _ := for_each targets (expand_wallet from_zero unused generate) in
  when (0 <? unused) (set_used_up_to (unused - 1)).

End Derivation.

(* ===================================================================== *)
(** ** The singleton history engine *)
(* ===================================================================== *)

(** Modelled from the spec: [CoinRecord] of section 3, the full node's record
    that [test_singleton_store.py] passes to [add_state]. *)
Record CoinRecord := mkCoinRecord {
  cr_coin : Coin;
  confirmed_block_index : Z;
  spent_block_index : Z;
  cr_coinbase : bool;
  cr_timestamp : Z
}.

(** Modelled from the spec: [SingletonInfo] of section 3; a history entry is
    a pair [(height, coin_name)]. *)
Record SingletonInfo := mkSingletonInfo {
  latest_state : CoinRecord;
  last_non_recent_state : option (Z * bytes32);
  recent_history : list (Z * bytes32)
}.

(** Modelled from the spec: the state of the singleton store of section 4.4,
    one [SingletonInfo] per launcher id and the peak height. *)
Record SingletonStore := mkSingletonStore {
  singleton_history : gmap Z SingletonInfo;
  peak_height : Z
}.

(** Modelled from the spec: the two failures of [add_state] in section 7. *)
Inductive StoreError := NotChildOfLatest | AlreadyExists.

Section Singleton.

(** [Coin.name()] *)
Variable name_of : Coin -> bytes32.

(** [MAX_REORG_SIZE], the [R] of section 4.4 *)
Variable MAX_REORG_SIZE : Z.

Definition cr_name (cr : CoinRecord) : bytes32 := name_of (cr_coin cr).

(** Modelled from the spec: [is_recent(h) = h >= peak_height - R]. *)
Definition is_recent (st : SingletonStore) (h : Z) : bool :=
  peak_height st - MAX_REORG_SIZE <=? h.

(** Modelled from the spec: "a state with the same coin name is already
    present" in the singleton's latest state, recent history or last
    non-recent state. *)
Definition state_present (n : bytes32) (info : SingletonInfo) : bool :=
  (cr_name (latest_state info) =? n)
  || existsb (fun e => snd e =? n) (recent_history info)
  || match last_non_recent_state info with
     | Some e => snd e =? n
     | None => false
     end.

(** Modelled from the spec: step 3 of [add_state], shelving the previous
    latest state, and step 4. *)
Definition shelve (st : SingletonStore) (info : SingletonInfo)
    (new_cr : CoinRecord) : SingletonInfo :=
  let prev := latest_state info in
  let entry := (confirmed_block_index prev, cr_name prev) in
  if is_recent st (confirmed_block_index prev)
  then mkSingletonInfo new_cr (last_non_recent_state info)
         (recent_history info ++ [entry])
  else mkSingletonInfo new_cr (Some entry) (recent_history info).

(** Modelled from the spec: [add_state(launcher_id, new_cr)] of section 4.4
    ([SingletonStore.add_state] is not among the sources), its steps in the
    order in which the section lists them: the parent is checked first, then
    the duplicate. The result is the failure, if any, and the store left
    behind. *)
Definition add_state (launcher_id : bytes32) (new_cr : CoinRecord)
    (st : SingletonStore) : option StoreError * SingletonStore :=
  match singleton_history st !! launcher_id with
  | None =>
      (None,
       mkSingletonStore
         (<[launcher_id := mkSingletonInfo new_cr None []]> (singleton_history st))
         (peak_height st))
  | Some info =>
      if negb (parent_coin_info (cr_coin new_cr) =? cr_name (latest_state info))
      then (Some NotChildOfLatest, st)
      else if state_present (cr_name new_cr) info
      then (Some AlreadyExists, st)
      else (None,
            mkSingletonStore
              (<[launcher_id := shelve st info new_cr]> (singleton_history st))
              (peak_height st))
  end.

(** Modelled from the spec: the pruning of [set_peak_height]. The entries
    whose height is below [new_peak - R] (the front of the ascending history)
    leave [recent_history]; the most recent of them becomes the last
    non-recent state; "after pruning, all remaining [recent_history] satisfies
    [height >= new_peak - R]". *)
Definition prune (bound : Z) (info : SingletonInfo) : SingletonInfo :=
  let old := List.filter (fun e => fst e <? bound) (recent_history info) in
  let keep := List.filter (fun e => bound <=? fst e) (recent_history info) in
  mkSingletonInfo (latest_state info)
    (match last old with
     | Some e => Some e
     | None => last_non_recent_state info
     end)
    keep.

(** Modelled from the spec: [set_peak_height(new_peak, block_coin_names_spent,
    do_prune)] of section 4.4. *)
Definition set_peak_height (new_peak : Z) (block_coin_names_spent : list bytes32)
    (do_prune : bool) (st : SingletonStore) : SingletonStore :=
  mkSingletonStore
    (if do_prune
     then prune (new_peak - MAX_REORG_SIZE) <$> singleton_history st
     else singleton_history st)
    new_peak.

(** Modelled from the spec: the parent chain of a state in the external coin
    store, "walking backwards from [latest_state] via [parent_coin_info]": the
    states before [cr], the youngest first, down to the first state of the
    singleton, whose parent is the launcher coin. At most [fuel] ancestors are
    visited. *)
Fixpoint ancestors (coin_store : bytes32 -> option CoinRecord)
    (launcher_id : bytes32) (fuel : nat) (cr : CoinRecord) : list CoinRecord :=
  match fuel with
  | O => []
  | S fuel' =>
      if parent_coin_info (cr_coin cr) =? launcher_id then []
      else
        match coin_store (parent_coin_info (cr_coin cr)) with
        | None => []
        | Some parent => parent :: ancestors coin_store launcher_id fuel' parent
        end
  end.

(** Modelled from the spec: step 2 of [rollback], the "latest surviving
    ancestor (highest height [<= target_height] in the singleton's parent
    chain)": the chain from its first state at or below the target on. *)
Fixpoint surviving (target : Z) (chain : list CoinRecord) : list CoinRecord :=
  match chain with
  | [] => []
  | cr :: older =>
      if confirmed_block_index cr <=? target then cr :: older
      else surviving target older
  end.

Definition history_entry (cr : CoinRecord) : Z * bytes32 :=
  (confirmed_block_index cr, cr_name cr).

(** Modelled from the spec: [rollback(target_height, coin_store)] of section
    4.4 for one singleton. The latest state is re-anchored to the surviving
    ancestor (step 2), or the singleton is deleted when there is none (step
    4); the history beneath it is re-derived from the external store (step
    3): its states within [R] of the target are the recent history, oldest
    first, and the youngest state below that window is the last non-recent
    state. That the history is rebuilt, and against the target height, is
    what [test_basic_singleton_store] observes: a recent history that pruning
    had emptied holds [198 - MAX_REORG_SIZE] entries after [rollback(200)]. *)
Definition rollback_info (coin_store : bytes32 -> option CoinRecord)
    (target : Z) (fuel : nat) (launcher_id : bytes32) (info : SingletonInfo)
    : option SingletonInfo :=
  match surviving target
          (latest_state info
           :: ancestors coin_store launcher_id fuel (latest_state info)) with
  | [] => None
  | latest :: older =>
      let history := map history_entry older in
      Some (mkSingletonInfo latest
              (List.find (fun e => fst e <? target - MAX_REORG_SIZE) history)
              (rev (List.filter (fun e => target - MAX_REORG_SIZE <=? fst e) history)))
  end.

(** Modelled from the spec: [rollback(target_height, coin_store)]; the peak is
    the target height afterwards. *)
Definition rollback (coin_store : bytes32 -> option CoinRecord) (target : Z)
    (fuel : nat) (st : SingletonStore) : SingletonStore :=
  mkSingletonStore
    (map_imap (rollback_info coin_store target fuel) (singleton_history st))
    target.


Definition get_latest_coin_record_by_launcher_id (launcher_id : bytes32)
    (st : SingletonStore) : option CoinRecord :=
  latest_state <$> singleton_history st !! launcher_id.

Definition empty_store : SingletonStore := mkSingletonStore ∅ 0.




End Singleton.

(* ===================================================================== *)
(** ** Queries on the ledgers and key bookkeeping *)
(* ===================================================================== *)

#[global] Instance Coin_eq_dec : EqDecision Coin.
Proof. solve_decision. Defined.

#[global] Instance WalletType_eq_dec : EqDecision WalletType.
Proof. solve_decision. Defined.

#[global] Instance WalletCoinRecord_eq_dec : EqDecision WalletCoinRecord.
Proof. solve_decision. Defined.

Section Queries.

Variable env : Env.

(** [for coin in record.removals: removals[coin.name()] = coin]: a later coin
    of the same name replaces the earlier one. *)
Definition removals_into (record : TransactionRecord) (acc : gmap Z Coin)
    : gmap Z Coin :=
  fold_left (fun acc coin => <[coin_name env coin := coin]> acc) (removals record) acc.

Definition unconfirmed_removals_for_wallet (wallet_id : Z) (st : State)
    : gmap Z Coin :=
  fold_left (fun acc record => removals_into record acc)
    (get_unconfirmed_for_wallet wallet_id st) ∅.

(** The loop that fills [removal_dict] in [get_spendable_coins_for_wallet]:
    only the removals that belong to the wallet are entered. *)
Definition own_removals_into (wallet_id : Z) (st : State)
    (tx : TransactionRecord) (acc : gmap Z Coin) : gmap Z Coin :=
  fold_left (fun acc coin =>
               if does_coin_belong_to_wallet coin wallet_id st
               then <[coin_name env coin := coin]> acc else acc)
    (removals tx) acc.

Definition removal_dict (wallet_id : Z) (st : State) : gmap Z Coin :=
  fold_left (fun acc tx => own_removals_into wallet_id st tx acc)
    (get_unconfirmed_for_wallet wallet_id st) ∅.

(** [filtered.add(record)]: the set is kept as the list of its elements in
    the order of their first insertion. *)
Definition set_add (record : WalletCoinRecord) (s : list WalletCoinRecord)
    : list WalletCoinRecord :=
  if decide (record ∈ s) then s else s ++ [record].

(** [for record in records] with its two [continue]s. *)
Fixpoint spendable_loop (offer_locked_coins : gmap Z WalletCoinRecord)
    (removal_dict : gmap Z Coin) (records filtered : list WalletCoinRecord)
    : list WalletCoinRecord :=
  match records with
  | [] => filtered
  | record :: rest =>
      let name := coin_name env (wcr_coin record) in
      match offer_locked_coins !! name with
      | Some _ => spendable_loop offer_locked_coins removal_dict rest filtered
      | None =>
          match removal_dict !! name with
          | Some _ => spendable_loop offer_locked_coins removal_dict rest filtered
          | None =>
              spendable_loop offer_locked_coins removal_dict rest
                (set_add record filtered)
          end
      end
  end.

(** [get_spendable_coins_for_wallet]; [offer_locked_coins] is the value of
    [trade_manager.get_locked_coins()]. *)
Definition get_spendable_coins_for_wallet
    (offer_locked_coins : gmap Z WalletCoinRecord) (wallet_id : Z)
    (records : option (list WalletCoinRecord)) (st : State)
    : list WalletCoinRecord :=
  let records :=
    match records with
    | Some records => records
    | None => get_unspent_coins_for_wallet wallet_id st
    end in
  spendable_loop offer_locked_coins (removal_dict wallet_id st) records [].

(** [spendable_amount = uint128(spendable_amount + record.coin.amount)] *)
Fixpoint spendable_balance_loop (spendable : list WalletCoinRecord)
    (spendable_amount : Z) : Result Z :=
  match spendable with
  | [] => Ok spendable_amount
  | record :: rest =>
      match uint128 (spendable_amount + amount (wcr_coin record)) with
      | Ok spendable_amount' => spendable_balance_loop rest spendable_amount'
      | Raise e => Raise e
      end
  end.

Definition get_confirmed_spendable_balance_for_wallet
    (offer_locked_coins : gmap Z WalletCoinRecord) (wallet_id : Z)
    (unspent_records : option (list WalletCoinRecord)) (st : State) : Result Z :=
  let spendable :=
    get_spendable_coins_for_wallet offer_locked_coins wallet_id unspent_records st in
  match uint128 0 with
  | Ok spendable_amount => spendable_balance_loop spendable spendable_amount
  | Raise e => Raise e
  end.

(** [get_wallet_for_coin]: [None] for a coin that is not in the ledger. *)
Definition get_wallet_for_coin (coin_id : bytes32) : M (option WalletEntry) :=
  let* coin_record := gets (get_coin_record coin_id) in
  match coin_record with
  | None => ret None
  | Some coin_record =>
      let* wallet := gets (lookup_wallet (wcr_wallet_id coin_record)) in
      match wallet with
      | Some wallet => ret (Some wallet)
      | None => raise KeyError
      end
  end.

(** [add_transaction] *)
Definition add_transaction (tx_record : TransactionRecord) : M unit :=
  let* _ := add_transaction_record tx_record in
  state_changed "pending_transaction" (Some (tx_wallet_id tx_record)).

(** The loop of [update_wallet_puzzle_hashes]; [puzzle.get_tree_hash()] on a
    puzzle that is [None] raises. *)
Fixpoint update_loop (wallet_id : Z) (target_wallet : WalletEntry)
    (range : list Z) (paths : list DerivationRecord)
    : Result (list DerivationRecord) :=
  match range with
  | [] => Ok paths
  | index :: rest =>
      let pubkey := get_public_key env index in
      match puzzle_for_pk env wallet_id pubkey with
      | None => Raise AttributeError
      | Some puzzlehash =>
          update_loop wallet_id target_wallet rest
            (paths ++ [mkDerivationRecord index puzzlehash pubkey
                         (w_type target_wallet) wallet_id])
      end
  end.

(** [update_wallet_puzzle_hashes]: [range(unused, last)] raises [TypeError]
    when the wallet has no derivation record yet ([last] is [None]). *)
Definition update_wallet_puzzle_hashes (wallet_id : Z) : M unit :=
  let* target := gets (lookup_wallet wallet_id) in
  match target with
  | None => raise KeyError
  | Some target_wallet =>
      let* last := gets (get_last_derivation_path_for_wallet wallet_id) in
      let* unused := gets unused_or_last in
      match last with
      | None => raise TypeError
      | Some last =>
          let* paths :=
            lift (update_loop wallet_id target_wallet
                    (seqZ unused (last - unused)) []) in
          add_derivation_paths paths
      end
  end.

End Queries.

(** *** Vocabulary of the further properties *)

(** The created heights of two coin states are in order. *)
Definition created_le (a b : CoinState) : Prop :=
  match created_height a, created_height b with
  | Some x, Some y => x <= y
  | _, _ => False
  end.

(** The coin states of one created height. *)
Definition created_at (k : Z) (l : list CoinState) : list CoinState :=
  List.filter (fun cs => match created_height cs with
                         | Some x => x =? k
                         | None => false
                         end) l.

(** A coin state that carries both heights. *)
Definition created_and_spent (cs : CoinState) : bool :=
  match created_height cs, spent_height cs with
  | Some _, Some _ => true
  | _, _ => false
  end.

Definition sum_record_amounts (l : list WalletCoinRecord) : Z :=
  fold_right (fun r acc => amount (wcr_coin r) + acc) 0 l.

(** The reward transaction that [coin_added] writes for a farmed coin. *)
Definition reward_tx (env : Env) (coin : Coin) (coinbase : bool)
    (wallet_id height : Z) : TransactionRecord :=
  mkTransactionRecord height (get_timestamp_for_height env height)
    (puzzle_hash coin) (amount coin) 0 true 0 None [coin] [] wallet_id [] None
    (TransactionType_value (if coinbase then COINBASE_REWARD else FEE_REWARD))
    (coin_name env coin).

(** The incoming transaction that [coin_added] writes for a received coin. *)
Definition received_tx (env : Env) (coin : Coin) (wallet_id height : Z)
    : TransactionRecord :=
  mkTransactionRecord height (get_timestamp_for_height env height)
    (puzzle_hash coin) (amount coin) 0 true 0 None [coin] [] wallet_id [] None
    (TransactionType_value INCOMING_TX) (coin_name env coin).

(** The coin record that [coin_added] writes. *)
Definition added_coin_record (coin : Coin) (coinbase fee_reward : bool)
    (wallet_id : Z) (wallet_type : WalletType) (height : Z) : WalletCoinRecord :=
  mkWalletCoinRecord coin height 0 false (coinbase || fee_reward) wallet_type wallet_id.

(** The pool wallets that [reorg_rollback] removes. *)
Definition rewound_pool_wallets (env : Env) (height : Z) (st : State) : list Z :=
  map fst
    (List.filter
       (fun p => (WalletType_value (w_type (snd p)) =? WalletType_value POOLING_WALLET)
                 && pool_rewind env (fst p) height)
       (wallets st)).

(** A transaction is back in the pending queue. *)
Definition requeued (t : TransactionRecord) : Prop :=
  confirmed t = false /\ confirmed_at_height t = 0 /\ sent t = 0 /\ sent_to t = [].

(** Every record of the derivation index carries the public key of its index. *)
Definition keys_consistent (env : Env) (l : list DerivationRecord) : Prop :=
  Forall (fun d => dr_pubkey d = get_public_key env (dr_index d)) l.

(* ===================================================================== *)
(** ** The statements of the specification *)
(* ===================================================================== *)

Definition sum_amounts (l : list Coin) : Z :=
  fold_right (fun c acc => amount c + acc) 0 l.

(** The removals of the unconfirmed transactions of a wallet. *)
Definition unconfirmed_removals (wallet_id : Z) (st : State) : list Coin :=
  flat_map removals (get_unconfirmed_for_wallet wallet_id st).

(** The additions of the unconfirmed transactions of a wallet whose puzzle
    hash belongs to the wallet. *)
Definition unconfirmed_own_additions (wallet_id : Z) (st : State) : list Coin :=
  List.filter (fun c => does_coin_belong_to_wallet c wallet_id st)
    (flat_map additions (get_unconfirmed_for_wallet wallet_id st)).

(** Section 4.3 of the specification: "confirmed - sum of removal amounts -
    sum of addition amounts that belong to the wallet". *)
Definition unconfirmed_balance_as_stated (confirmed wallet_id : Z) (st : State) : Z :=
  confirmed - sum_amounts (unconfirmed_removals wallet_id st)
            - sum_amounts (unconfirmed_own_additions wallet_id st).

(** What identifies a transaction record in the ledger and what kind it is;
    confirming a record changes neither. *)
Definition tx_shape (t : TransactionRecord) : bytes32 * Z :=
  (tx_name t, tx_type t).

(** A fetched child "doesn't belong to us" when the derivation index has no
    record for its puzzle hash. *)
Definition not_ours (st : State) (c : Coin) : bool :=
  match get_derivation_record_for_puzzle_hash (puzzle_hash c) st with
  | None => true
  | Some _ => false
  end.

(** Section 4.3 of the specification: [to_puzzle_hash] is "the first child
    whose puzzle-hash is not ours (fallback: the first child)". *)
Definition to_puzzle_hash_as_stated (st : State) (first : Coin) (rest : list Coin)
    : bytes32 :=
  match List.filter (not_ours st) (first :: rest) with
  | c :: _ => puzzle_hash c
  | [] => puzzle_hash first
  end.

(** What the loop of [new_coin_state] leaves in [to_puzzle_hash]: the last
    child that is not ours, with the same fallback. *)
Definition to_puzzle_hash_of_last (st : State) (first : Coin) (rest : list Coin)
    : bytes32 :=
  match last (List.filter (not_ours st) (first :: rest)) with
  | Some c => puzzle_hash c
  | None => puzzle_hash first
  end.

(** Confirming transactions at [spent] keeps every record of the ledger, with
    its name and type, and leaves alone the records already confirmed at that
    height. *)
Definition confirm_rel (spent : Z) (l l' : list TransactionRecord) : Prop :=
  map tx_shape l' = map tx_shape l
  /\ forall t, In t l -> confirmed t = true -> confirmed_at_height t = spent ->
               In t l'.

(** Only the transaction ledger is written, and only to confirm records. *)
Definition confirms_only (spent : Z) (st st' : State) : Prop :=
  st' = set_tx_store (tx_store st') st
  /\ confirm_rel spent (tx_store st) (tx_store st').

(** The records that [new_coin_state] synthesizes for a coin state that is
    created and spent and has no coin record yet. *)
Definition spent_coin_record (env : Env) (cs : CoinState) (created spent : Z)
    (wallet_id : Z) (wallet_type : WalletType) : WalletCoinRecord :=
  let coin := cs_coin cs in
  let farmer_reward := is_farmer_reward env created (parent_coin_info coin) in
  let pool_reward :=
    if farmer_reward then false
    else is_pool_reward env created (parent_coin_info coin) in
  mkWalletCoinRecord coin created spent true (farmer_reward || pool_reward)
    wallet_type wallet_id.

Definition incoming_tx (env : Env) (coin : Coin) (created wallet_id : Z)
    (name : bytes32) : TransactionRecord :=
  mkTransactionRecord created (get_timestamp_for_height env created)
    (puzzle_hash coin) (amount coin) 0 true 0 None [coin] [] wallet_id [] None
    (TransactionType_value INCOMING_TX) name.

Definition outgoing_tx (env : Env) (coin : Coin) (spent wallet_id : Z)
    (children : list Coin) (to_ph : bytes32) (total fee : Z) (name : bytes32)
    : TransactionRecord :=
  mkTransactionRecord spent (get_timestamp_for_height env spent) to_ph total fee
    true 0 None children [coin] wallet_id [] None
    (TransactionType_value OUTGOING_TX) name.

(** The state once the spent coin record is written. *)
Definition with_spent_record (env : Env) (cs : CoinState) (created spent : Z)
    (wallet_id : Z) (wallet_type : WalletType) (st : State) : State :=
  set_coin_store
    (<[coin_name env (cs_coin cs) :=
         spent_coin_record env cs created spent wallet_id wallet_type]>
       (coin_store st)) st.

(** [change] as the created-and-spent branch computes it, after the write. *)
Definition spent_coin_is_change (env : Env) (cs : CoinState) (created spent : Z)
    (wallet_id : Z) (wallet_type : WalletType) (st : State) : bool :=
  match get_coin_record (parent_coin_info (cs_coin cs))
          (with_spent_record env cs created spent wallet_id wallet_type st) with
  | Some parent_record => same_wallet_type wallet_type parent_record
  | None => false
  end.

(** The state once the incoming transaction, if any, is recorded. *)
Definition with_incoming (env : Env) (cs : CoinState) (created spent : Z)
    (wallet_id : Z) (wallet_type : WalletType) (st : State) : State :=
  let st1 := with_spent_record env cs created spent wallet_id wallet_type st in
  if spent_coin_is_change env cs created spent wallet_id wallet_type st then st1
  else
    set_tx_store
      (tx_store_add
         (incoming_tx env (cs_coin cs) created wallet_id (token_bytes env (entropy st1)))
         (tx_store st1))
      (set_entropy (S (entropy st1)) st1).

(** The state once the outgoing transaction for the children
    [first :: rest] is recorded. *)
Definition with_outgoing (env : Env) (cs : CoinState) (created spent : Z)
    (wallet_id : Z) (wallet_type : WalletType) (node : Z) (first : Coin)
    (rest : list Coin) (st : State) : State :=
  let st2 := with_incoming env cs created spent wallet_id wallet_type st in
  let found := children_loop st2 (first :: rest) None 0 in
  set_tx_store
    (tx_store_add
       (outgoing_tx env (cs_coin cs) spent wallet_id (first :: rest)
          (match fst found with
           | Some ph => ph
           | None => puzzle_hash first
           end)
          (snd found) (reserved_fee env node spent (cs_coin cs))
          (token_bytes env (entropy st2)))
       (tx_store st2))
    (set_entropy (S (entropy st2)) st2).

(** The local variables after the created-and-spent case. *)
Definition locals_after_spent (env : Env) (cs : CoinState) (loc : Locals) : Locals :=
  push_removed cs
    (if existsb (Z.eqb (coin_name env (cs_coin cs))) (trade_removals env)
     then push_trade_removed cs loc else loc).

(** A batch handed to [new_coin_state]: the coin states, [fork_height] and
    [current_height]. *)
Definition Batch : Type := list CoinState * option Z * option Z.

(** Applying a sequence of batches through [new_coin_state], one call after
    the other, whether a call returns or raises. *)
Fixpoint apply_batches (env : Env) (batches : list Batch) (st : State) : State :=
  match batches with
  | [] => st
  | (coin_states, fork_height, current_height) :: rest =>
      apply_batches env rest
        (snd (new_coin_state env coin_states fork_height current_height st))
  end.

(** The ledger holds nothing above height [h]. *)
Definition ledger_at_most (h : Z) (m : gmap Z WalletCoinRecord) : Prop :=
  map_Forall (fun _ r => confirmed_height r <= h /\ wcr_spent_height r <= h) m.

(** A coin state that a rollback to [h] can undo, given the ledger [before]
    the sequence: either its coin is not in that ledger and was created above
    [h], or that ledger holds the coin unspent and the coin state spends it
    above [h]. A coin state without [created_height] changes nothing. *)
Definition restorable_coin_state (env : Env) (h : Z)
    (before : gmap Z WalletCoinRecord) (cs : CoinState) : Prop :=
  match created_height cs with
  | None => True
  | Some created =>
      match before !! coin_name env (cs_coin cs) with
      | None => h < created
      | Some r0 =>
          wcr_spent_height r0 = 0
          /\ exists spent, spent_height cs = Some spent /\ h < spent
      end
  end.

(** A batch that a rollback to [h] can undo: its coin states are restorable
    and, if it makes [new_coin_state] roll back, it is to a fork height that
    is not below [h]. *)
Definition restorable_batch (env : Env) (h : Z)
    (before : gmap Z WalletCoinRecord) (b : Batch) : Prop :=
  Forall (restorable_coin_state env h before) (fst (fst b))
  /\ match snd (fst b), snd b with
     | Some fork, Some current => fork = current - 1 \/ h <= fork
     | _, _ => True
     end.

(** What [rollback_to_block(h)] makes of one record of the coin ledger. *)
Definition rollback_record (h : Z) (r : WalletCoinRecord) : option WalletCoinRecord :=
  if decide (confirmed_height r <= h) then Some (clear_spent_above h r) else None.

(** Rolling the ledger [m] back to [h] gives the ledger [before]. *)
Definition rolls_back_to (h : Z) (before m : gmap Z WalletCoinRecord) : Prop :=
  coin_store_rollback_to_block h m = before.

(** The coin ledger is not written. *)
Definition same_ledger (st st' : State) : Prop := coin_store st' = coin_store st.

(** The ledger of the new state still rolls back to [before] if the ledger of
    the old state did. *)
Definition keeps_rollback (h : Z) (before : gmap Z WalletCoinRecord)
    (st st' : State) : Prop :=
  rolls_back_to h before (coin_store st) -> rolls_back_to h before (coin_store st').

(** A method is stable for a relation [R] on states when the state it
    leaves, whether it returns or raises, is related to the state it started
    from. *)
Definition stable (R : State -> State -> Prop) {A} (m : M A) : Prop :=
  forall st, R st (snd (m st)).

(** The calls made so far are never forgotten. *)
Definition events_extend (st st' : State) : Prop :=
  exists evs, events st' = events st ++ evs.

(* ===================================================================== *)
(** ** Scenarios *)
(* ===================================================================== *)

Definition ex_coin_name (c : Coin) : bytes32 :=
  parent_coin_info c * 1000000 + puzzle_hash c * 1000 + amount c.

(** An environment with one peer, no trade and a given answer of
    [fetch_children]. *)
Definition ex_env (children : bytes32 -> list CoinState) (fee : Z) : Env :=
  mkEnv ex_coin_name
    (fun h => 900000 + h) (fun h => 800000 + h)
    (fun h => 1000 * h)
    (Some 1)
    (fun _ name => children name)
    (fun _ _ _ => fee)
    (fun n => 7000 + Z.of_nat n)
    [] []
    (fun _ _ => false)
    (fun i => 100 + i)
    (fun w pk => Some (w * 10000 + pk))
    8 8.

Definition no_rl_info : RLInfo := mkRLInfo false false 0 0.

Definition ex_wallets : list (Z * WalletEntry) :=
  [(1, mkWalletEntry STANDARD_WALLET no_rl_info)].

(** The derivation records of wallet 1 for the puzzle hashes 110 and 111. *)
Definition ex_derivations : list DerivationRecord :=
  [mkDerivationRecord 0 110 100 STANDARD_WALLET 1;
   mkDerivationRecord 1 111 101 STANDARD_WALLET 1].

Definition ex_state (coins : list WalletCoinRecord) (txs : list TransactionRecord)
    : State :=
  mkState (list_to_map (map (fun r => (ex_coin_name (wcr_coin r), r)) coins))
    txs ex_derivations None [] ex_wallets [] false 0 [].

(** Wallet 1 holds two unspent coins of 10 and 20 and has one pending
    transaction that spends the first, pays 7 to a foreign puzzle hash and
    returns 3 as change. *)
Definition ex_balance_state : State :=
  ex_state
    [mkWalletCoinRecord (mkCoin 1 110 10) 5 0 false false STANDARD_WALLET 1;
     mkWalletCoinRecord (mkCoin 2 110 20) 6 0 false false STANDARD_WALLET 1]
    [mkTransactionRecord 0 0 500 7 0 false 0 None
       [mkCoin 9 500 7; mkCoin 9 111 3] [mkCoin 1 110 10] 1 [] None
       (TransactionType_value OUTGOING_TX) 42].

(** A batch of two coin states, the first one reorged out (no heights). *)
Definition ex_reorged_batch : list CoinState :=
  [mkCoinState (mkCoin 1 110 10) None None;
   mkCoinState (mkCoin 2 110 20) None (Some 5)].

Definition ex_plain_env : Env := ex_env (fun _ => []) 0.

(** Wallet 1 holds the coin named [ex_coin_name (mkCoin 1 110 10)], the
    parent of the change coin [ex_change_coin]. *)
Definition ex_parent_state : State :=
  ex_state [mkWalletCoinRecord (mkCoin 1 110 10) 5 0 false false STANDARD_WALLET 1] [].

Definition ex_change_coin : Coin := mkCoin (ex_coin_name (mkCoin 1 110 10)) 111 3.


(** Scenario 3 of the specification with a second foreign child: wallet 1
    owns the puzzle hash 110 of a coin created at 90 and spent at 100; the
    spend has one child of ours and two foreign children, and reserves a fee
    of 1. *)
Definition ex_spent_coin_state : CoinState :=
  mkCoinState (mkCoin 1 110 10) (Some 100) (Some 90).

Definition ex_children (parent : bytes32) : list CoinState :=
  [mkCoinState (mkCoin parent 111 1) None (Some 100);
   mkCoinState (mkCoin parent 500 6) None (Some 100);
   mkCoinState (mkCoin parent 600 2) None (Some 100)].

Definition ex_spend_env : Env := ex_env ex_children 1.

(** Scenario 6 of the specification as one batch received at height 10:
    the coin of [ex_parent_state] is spent at height 12 and its change comes
    back at height 12; the fork height is 10. *)
Definition ex_spend_batch : Batch :=
  ([mkCoinState (mkCoin 1 110 10) (Some 12) (Some 5);
    mkCoinState ex_change_coin None (Some 12)],
   Some 10, Some 12).

(** A batch that reorganizes the chain down to height 3. *)
Definition ex_deep_fork_batch : Batch := ([], Some 3, Some 12).

(** A batch that tells the wallet of a coin created at height 5. *)
Definition ex_old_coin_batch : Batch :=
  ([mkCoinState (mkCoin 2 111 20) None (Some 5)], None, None).

(** An empty database with the main wallet only. *)
Definition ex_empty_state : State :=
  mkState ∅ [] [] None [] ex_wallets [] false 0 [].

(** A store that tracks the singleton of launcher 1, whose latest state is
    the launcher's spend, a coin named [ex_coin_name (mkCoin 1 2 1)]. *)
Definition ex_launcher_spend : CoinRecord :=
  mkCoinRecord (mkCoin 1 2 1) 2 0 false 1000002.

Definition ex_singleton_store : SingletonStore :=
  snd (add_state ex_coin_name 100 1 ex_launcher_spend
         (set_peak_height 100 4 [] true empty_store)).


Definition ex_stranger : CoinRecord :=
  mkCoinRecord (mkCoin 77 2 1) 6 0 false 1000006.

(** Scenario 2 of the specification: a coin of wallet 1 created at height
    100 whose parent is [farmer_parent_id(100)]. *)
Definition ex_farmer_coin : Coin := mkCoin 800100 110 250.

(** Scenario 4 of the specification: an outgoing transaction confirmed at
    height 105 and an unspent coin confirmed at height 108. *)
Definition ex_reorg_state : State :=
  ex_state
    [mkWalletCoinRecord (mkCoin 3 110 30) 108 0 false false STANDARD_WALLET 1]
    [mkTransactionRecord 105 0 500 7 0 true 1 None [] [] 1 [] None
       (TransactionType_value OUTGOING_TX) 43].

(** Scenario 6 of the specification: the pending transaction of
    [ex_balance_state] is confirmed by a batch that spends its removal at
    height 12 and creates its change at height 12. *)
Definition ex_change_batch : list CoinState :=
  [mkCoinState (mkCoin 9 111 3) None (Some 12);
   mkCoinState (mkCoin 1 110 10) (Some 12) (Some 5)].

(** [test_add_state]: the launcher's spend is added at peak 1, the peak moves
    to 201, and one state is added at each of the heights 10, 20, ..., 190. *)
Definition ex_child (parent : CoinRecord) (height : Z) : CoinRecord :=
  mkCoinRecord (mkCoin (ex_coin_name (cr_coin parent)) 2 1) height 0 false
    (1000000 + height).

Definition ex_add_child (acc : SingletonStore * CoinRecord) (height : Z)
    : SingletonStore * CoinRecord :=
  let cr := ex_child (snd acc) height in
  (snd (add_state ex_coin_name 100 1 cr (fst acc)), cr).

Definition ex_first_state : CoinRecord := mkCoinRecord (mkCoin 1 2 1) 1 0 false 1000001.

Definition ex_grown_store : SingletonStore * CoinRecord :=
  fold_left ex_add_child (map (fun k => 10 * k) (seqZ 1 19))
    (set_peak_height 100 201 [] true
       (snd (add_state ex_coin_name 100 1 ex_first_state
               (set_peak_height 100 1 [] true empty_store))),
     ex_first_state).

(** A batch that is not in the order of its created heights. *)
Definition ex_unordered_batch : list CoinState :=
  [mkCoinState (mkCoin 1 110 5) None (Some 12);
   mkCoinState (mkCoin 2 110 6) (Some 13) (Some 10);
   mkCoinState (mkCoin 3 111 7) None (Some 10)].

(** An environment whose pool wallets all ask to be removed on a rewind. *)
Definition ex_rewind_env : Env :=
  mkEnv ex_coin_name
    (fun h => 900000 + h) (fun h => 800000 + h)
    (fun h => 1000 * h)
    (Some 1)
    (fun _ _ => [])
    (fun _ _ _ => 0)
    (fun n => 7000 + Z.of_nat n)
    [] []
    (fun _ _ => true)
    (fun i => 100 + i)
    (fun w pk => Some (w * 10000 + pk))
    8 8.

(** Wallet 1 and the pool wallet 2, which has registered a new-peak
    callback. *)
Definition ex_pool_state : State :=
  mkState ∅ [] ex_derivations None []
    [(1, mkWalletEntry STANDARD_WALLET no_rl_info);
     (2, mkWalletEntry POOLING_WALLET no_rl_info)]
    [2] false 0 [].

(** Coin names for a chain of states: the name of a coin is the name of its
    parent plus one. *)
Definition ex_serial_name (c : Coin) : bytes32 := parent_coin_info c + 1.

(** [test_basic_singleton_store] for one launcher, the coin named 1: the
    states of its singleton are confirmed at the heights 2, 6, 7, ..., 198,
    each the child of the one before, and the external coin store holds them
    all. *)
Fixpoint ex_test_chain (parent : bytes32) (heights : list Z) : list CoinRecord :=
  match heights with
  | [] => []
  | h :: rest =>
      mkCoinRecord (mkCoin parent 2 1) h 0 false (1000000 + h)
      :: ex_test_chain (ex_serial_name (mkCoin parent 2 1)) rest
  end.

Definition ex_test_records : list CoinRecord :=
  ex_test_chain 1 ([2; 6] ++ seqZ 7 192).

Definition ex_test_coin_store (name : bytes32) : option CoinRecord :=
  List.find (fun cr => ex_serial_name (cr_coin cr) =? name) ex_test_records.

(** One round of the loop of the test from height 8 on: the state confirmed
    at the peak is added, and the peak moves up by one. *)
Definition ex_test_round (st : SingletonStore) (cr : CoinRecord) : SingletonStore :=
  set_peak_height 100 (confirmed_block_index cr + 1) [] true
    (snd (add_state ex_serial_name 100 1 cr st)).

(** The store when the loop ends, at peak 199. *)
Definition ex_test_store : SingletonStore :=
  match ex_test_records with
  | first :: second :: others =>
      fold_left ex_test_round others
        (set_peak_height 100 7 [] true
           (snd (add_state ex_serial_name 100 1 second
                   (set_peak_height 100 6 [] true
                      (snd (add_state ex_serial_name 100 1 first
                              (set_peak_height 100 4 [] true empty_store)))))))
  | _ => empty_store
  end.

(** The store once the peak has moved to 300 without pruning and then, with
    pruning, through the heights 300, ..., 349. *)
Definition ex_test_pruned_store : SingletonStore :=
  fold_left (fun st h => set_peak_height 100 h [] true st) (seqZ 300 50)
    (set_peak_height 100 300 [] false ex_test_store).

(** An environment in which no wallet gives a puzzle for a public key. *)
Definition ex_no_puzzle_env : Env :=
  mkEnv ex_coin_name
    (fun h => 900000 + h) (fun h => 800000 + h)
    (fun h => 1000 * h)
    (Some 1)
    (fun _ _ => [])
    (fun _ _ _ => 0)
    (fun n => 7000 + Z.of_nat n)
    [] []
    (fun _ _ => false)
    (fun i => 100 + i)
    (fun _ _ => None)
    8 8.

(** The ledger of [ex_parent_state] with the puzzle hash 555 registered in
    the interested store for wallet 1; no derivation record has that puzzle
    hash. *)
Definition ex_interested_state : State :=
  mkState (coin_store ex_parent_state) [] ex_derivations None [(555, 1)]
    ex_wallets [] false 0 [].

(** A coin of puzzle hash 555 created at height 12 by the coin that
    [ex_parent_state] holds, and the same coin with a parent the ledger does
    not hold. *)
Definition ex_interested_child : CoinState :=
  mkCoinState (mkCoin (ex_coin_name (mkCoin 1 110 10)) 555 3) None (Some 12).

Definition ex_interested_orphan : CoinState :=
  mkCoinState (mkCoin 77 555 3) None (Some 12).

(** Scenario 5 of the specification: the singleton of the launcher named 1
    goes through the states confirmed at the heights 1, 10, 20, ..., 190, and
    the peak is then set to 200. *)
Definition ex_scenario_records : list CoinRecord :=
  ex_test_chain 1 (1 :: map (Z.mul 10) (seqZ 1 19)).

Definition ex_scenario_coin_store (name : bytes32) : option CoinRecord :=
  List.find (fun cr => ex_serial_name (cr_coin cr) =? name) ex_scenario_records.

Definition ex_scenario_store : SingletonStore :=
  set_peak_height 100 200 [] true
    (fold_left (fun st cr => snd (add_state ex_serial_name 100 1 cr st))
       ex_scenario_records empty_store).

(* ===================================================================== *)
(** ** Properties *)
(* ===================================================================== *)

(** *** Balance reconciliation *)

Lemma removals_loop_sum l acc :
  removals_loop l acc = acc + sum_amounts l.
Proof.
  revert acc. induction l as [|c l IH]; intros acc; simpl.
  - lia.
  - rewrite IH. lia.
Qed.

Lemma additions_loop_sum st wallet_id l acc :
  additions_loop st wallet_id l acc =
  acc + sum_amounts
          (List.filter (fun c => does_coin_belong_to_wallet c wallet_id st) l).
Proof.
  revert acc. induction l as [|c l IH]; intros acc; simpl.
  - lia.
  - destruct (does_coin_belong_to_wallet c wallet_id st); rewrite IH; simpl; lia.
Qed.

Lemma sum_amounts_app l1 l2 :
  sum_amounts (l1 ++ l2) = sum_amounts l1 + sum_amounts l2.
Proof. induction l1 as [|c l1 IH]; simpl; lia. Qed.

Lemma unconfirmed_loop_sum st wallet_id txs ra aa :
  unconfirmed_loop st wallet_id txs ra aa =
  (ra + sum_amounts (flat_map removals txs),
   aa + sum_amounts
          (List.filter (fun c => does_coin_belong_to_wallet c wallet_id st)
             (flat_map additions txs))).
Proof.
  revert ra aa. induction txs as [|t txs IH]; intros ra aa; simpl.
  - f_equal; lia.
  - rewrite IH, removals_loop_sum, additions_loop_sum.
    rewrite List.filter_app, !sum_amounts_app. f_equal; lia.
Qed.

(** C1 (amended). [get_unconfirmed_balance] returns, as a [uint128], the
    confirmed balance minus the sum of the removal amounts of the wallet's
    unconfirmed transactions (every removal, whether or not the coin belongs
    to the wallet) plus the sum of the amounts of their additions whose
    puzzle hash belongs to the wallet. *)
Theorem get_unconfirmed_balance_adds_own_additions :
  forall wallet_id unspent_coin_records st,
    get_unconfirmed_balance wallet_id unspent_coin_records st =
    match get_confirmed_balance_for_wallet wallet_id unspent_coin_records st with
    | Raise e => Raise e
    | Ok confirmed =>
        uint128 (confirmed - sum_amounts (unconfirmed_removals wallet_id st)
                           + sum_amounts (unconfirmed_own_additions wallet_id st))
    end.
Proof.
  intros wallet_id recs st. unfold get_unconfirmed_balance.
  destruct (get_confirmed_balance_for_wallet wallet_id recs st) as [confirmed|e];
    [|reflexivity].
  rewrite unconfirmed_loop_sum. cbv zeta. simpl.
  unfold unconfirmed_removals, unconfirmed_own_additions. reflexivity.
Qed.

(** C1 as stated fails: with a confirmed balance of 30, a pending removal of
    10 and a pending change addition of 3, the code returns 23 where the
    stated formula gives 17. *)
Lemma get_unconfirmed_balance_not_as_stated :
  get_confirmed_balance_for_wallet 1 None ex_balance_state = Ok 30
  /\ get_unconfirmed_balance 1 None ex_balance_state = Ok 23
  /\ unconfirmed_balance_as_stated 30 1 ex_balance_state = 17
  /\ get_unconfirmed_balance 1 None ex_balance_state
     <> Ok (unconfirmed_balance_as_stated 30 1 ex_balance_state).
Proof.
  assert (H : get_unconfirmed_balance 1 None ex_balance_state = Ok 23)
    by (vm_compute; reflexivity).
  split; [|split; [|split]].
  - vm_compute; reflexivity.
  - exact H.
  - vm_compute; reflexivity.
  - intros Heq. rewrite H in Heq. vm_compute in Heq. discriminate Heq.
Qed.

(** *** Reasoning about methods of the manager *)

Section Stable.

Variable R : State -> State -> Prop.
Hypothesis R_refl : forall st, R st st.
Hypothesis R_trans : forall a b c, R a b -> R b c -> R a c.

Lemma stable_ret {A} (a : A) : stable R (ret a).
Proof. intros st. apply R_refl. Qed.

Lemma stable_raise {A} e : stable R (@raise A e).
Proof. intros st. apply R_refl. Qed.

Lemma stable_gets {A} (f : State -> A) : stable R (gets f).
Proof. intros st. apply R_refl. Qed.

Lemma stable_lift {A} (r : Result A) : stable R (lift r).
Proof. intros st. apply R_refl. Qed.

Lemma stable_modify f : (forall st, R st (f st)) -> stable R (modify f).
Proof. intros H st. apply H. Qed.

Lemma stable_bind {A B} (m : M A) (k : A -> M B) :
  stable R m -> (forall a, stable R (k a)) -> stable R (bind m k).
Proof.
  intros Hm Hk st. unfold bind. specialize (Hm st).
  destruct (m st) as [[a|e] st1]; simpl in *.
  - eapply R_trans; [exact Hm | apply Hk].
  - exact Hm.
Qed.

Lemma stable_when b (m : M unit) : stable R m -> stable R (when b m).
Proof. intros H. destruct b; simpl; [exact H | apply stable_ret]. Qed.

Lemma stable_for_each {A} (l : list A) (body : A -> M unit) :
  (forall x, In x l -> stable R (body x)) -> stable R (for_each l body).
Proof.
  induction l as [|x l IH]; intros H; simpl.
  - apply stable_ret.
  - apply stable_bind.
    + apply H. left. reflexivity.
    + intros _. apply IH. intros y Hy. apply H. right. exact Hy.
Qed.

Lemma stable_fold_each {A B} (l : list A) (body : B -> A -> M B) acc :
  (forall b x, In x l -> stable R (body b x)) -> stable R (fold_each l body acc).
Proof.
  revert acc. induction l as [|x l IH]; intros acc H; simpl.
  - apply stable_ret.
  - apply stable_bind.
    + apply H. left. reflexivity.
    + intros b. apply IH. intros b' y Hy. apply H. right. exact Hy.
Qed.

End Stable.

(** One step of a stability proof: split a sequence, or take the cases of a
    branch of the method. *)
Ltac stable_step rfl trs :=
  first
    [ apply (stable_ret _ rfl)
    | apply (stable_raise _ rfl)
    | apply (stable_gets _ rfl)
    | apply (stable_lift _ rfl)
    | apply (stable_bind _ trs); [| intros ?]
    | apply (stable_when _ rfl)
    | apply (stable_for_each _ rfl trs); intros ? ?
    | match goal with
      | |- stable _ (match ?x with _ => _ end) => destruct x
      end ].

Lemma events_extend_refl st : events_extend st st.
Proof. exists []. symmetry. apply app_nil_r. Qed.

Lemma events_extend_trans a b c :
  events_extend a b -> events_extend b c -> events_extend a c.
Proof.
  intros [e1 H1] [e2 H2]. exists (e1 ++ e2). rewrite H2, H1.
  symmetry. apply app_assoc.
Qed.

Lemma events_extend_same st st' : events st' = events st -> events_extend st st'.
Proof. intros H. exists []. rewrite H. symmetry. apply app_nil_r. Qed.

Ltac events_step := stable_step events_extend_refl events_extend_trans.

Ltac events_prim :=
  apply stable_modify; intros ?; apply events_extend_same;
  simpl; repeat case_match; reflexivity.

Section EventsExtend.

Variable env : Env.

Abbreviation ext := (stable events_extend).

Lemma emit_extends e : ext (emit e).
Proof. intros st. exists [e]. reflexivity. Qed.

Lemma add_coin_record_extends r : ext (add_coin_record env r).
Proof. events_prim. Qed.

Lemma set_spent_extends n h : ext (set_spent n h).
Proof. events_prim. Qed.

Lemma add_transaction_record_extends t : ext (add_transaction_record t).
Proof. events_prim. Qed.

Lemma set_confirmed_extends n h : ext (set_confirmed n h).
Proof. events_prim. Qed.

Lemma set_used_up_to_extends i : ext (set_used_up_to i).
Proof. events_prim. Qed.

Lemma fresh_token_extends : ext (fresh_token env).
Proof. intros st. apply events_extend_same. reflexivity. Qed.

Lemma coin_added_extends coin cb fr wid wt h out :
  ext (coin_added env coin cb fr wid wt h out).
Proof.
  unfold coin_added, state_changed.
  repeat first [ events_step | apply emit_extends | apply add_coin_record_extends
               | apply add_transaction_record_extends | apply set_confirmed_extends ].
Qed.

Lemma pop_new_peak_callback_extends w : ext (pop_new_peak_callback w).
Proof. unfold pop_new_peak_callback. repeat first [ events_step | events_prim ]. Qed.

Lemma reorg_rollback_extends h : ext (reorg_rollback env h).
Proof.
  unfold reorg_rollback, tx_pending_changed.
  repeat first [ events_step | apply emit_extends | apply add_transaction_record_extends
               | apply pop_new_peak_callback_extends | events_prim ].
Qed.

Lemma synthesize_spent_extends cs c s wid wt :
  ext (synthesize_spent env cs c s wid wt).
Proof.
  unfold synthesize_spent.
  repeat first [ events_step | apply add_coin_record_extends
               | apply add_transaction_record_extends | apply fresh_token_extends ].
Qed.

Lemma confirm_spenders_extends l n s : ext (confirm_spenders env l n s).
Proof.
  unfold confirm_spenders.
  repeat first [ events_step | apply set_confirmed_extends ].
Qed.

Lemma coin_state_body_extends l loc cs : ext (coin_state_body env l loc cs).
Proof.
  unfold coin_state_body, spent_case, created_case.
  repeat first [ apply emit_extends | apply coin_added_extends
               | apply set_used_up_to_extends | apply set_spent_extends
               | apply synthesize_spent_extends | apply confirm_spenders_extends
               | events_step ].
Qed.

End EventsExtend.

(** *** The initial sort of [new_coin_state] *)

Lemma py_insert_length {A} (key : A -> option Z) x sorted l' :
  py_insert key x sorted = Ok l' -> length l' = S (length sorted).
Proof.
  revert l'. induction sorted as [|y rest IH]; intros l' H; simpl in H.
  - inversion H. reflexivity.
  - destruct (py_lt (key y) (key x)) as [[|]|e]; try discriminate.
    + destruct (py_insert key x rest) as [rest'|e] eqn:E; try discriminate.
      inversion H. simpl. f_equal. apply IH. reflexivity.
    + inversion H. reflexivity.
Qed.

Lemma py_sort_length {A} (key : A -> option Z) l l' :
  py_sort key l = Ok l' -> length l' = length l.
Proof.
  revert l'. induction l as [|x rest IH]; intros l' H; simpl in H.
  - inversion H. reflexivity.
  - destruct (py_sort key rest) as [sorted|e] eqn:E; try discriminate.
    apply py_insert_length in H. rewrite H. simpl. f_equal. apply IH. reflexivity.
Qed.

Lemma py_insert_compares {A} (key : A -> option Z) x y rest l' :
  py_insert key x (y :: rest) = Ok l' -> key x <> None /\ key y <> None.
Proof.
  simpl. destruct (key y), (key x); simpl; try discriminate.
  intros _. split; discriminate.
Qed.

(** A sort that succeeds on two or more elements found a key on each. *)
Lemma py_sort_ok_keys {A} (key : A -> option Z) l l' :
  py_sort key l = Ok l' -> (2 <= length l)%nat ->
  Forall (fun x => key x <> None) l.
Proof.
  revert l'. induction l as [|x rest IH]; intros l' H Hlen; simpl in *.
  - lia.
  - destruct (py_sort key rest) as [sorted|e] eqn:E; try discriminate.
    pose proof (py_sort_length _ _ _ E) as Hl.
    destruct sorted as [|y sorted'].
    + simpl in Hl. destruct rest; simpl in *; [lia | discriminate].
    + pose proof (py_insert_compares _ _ _ _ _ H) as [Hx Hy].
      constructor; [exact Hx|].
      destruct rest as [|r1 [|r2 rest']].
      * simpl in Hl. discriminate.
      * simpl in E. inversion E; subst. constructor; [exact Hy | constructor].
      * eapply IH; [reflexivity | simpl; lia].
Qed.

Lemma py_insert_raises {A} (key : A -> option Z) x sorted e :
  py_insert key x sorted = Raise e -> e = TypeError.
Proof.
  induction sorted as [|y rest IH]; simpl; [discriminate|].
  destruct (key y), (key x); simpl; try (intros H; inversion H; reflexivity).
  destruct (_ <? _).
  - destruct (py_insert key x rest); [discriminate|].
    intros H; inversion H; subst. apply IH. reflexivity.
  - discriminate.
Qed.

Lemma py_sort_raises {A} (key : A -> option Z) l e :
  py_sort key l = Raise e -> e = TypeError.
Proof.
  induction l as [|x rest IH]; simpl; [discriminate|].
  destruct (py_sort key rest).
  - apply py_insert_raises.
  - intros H; inversion H; subst. apply IH. reflexivity.
Qed.

Lemma py_sort_absent_key {A} (key : A -> option Z) l :
  (2 <= length l)%nat -> Exists (fun x => key x = None) l ->
  py_sort key l = Raise TypeError.
Proof.
  intros Hlen Hex.
  destruct (py_sort key l) as [l'|e] eqn:E.
  - pose proof (py_sort_ok_keys _ _ _ E Hlen) as Hall.
    apply Exists_exists in Hex. destruct Hex as [x [Hin Hx]].
    rewrite Forall_forall in Hall. destruct (Hall x Hin Hx).
  - f_equal. eapply py_sort_raises. exact E.
Qed.

(** C9. A batch of two or more coin states of which one has no
    [created_height] makes the initial sort of [new_coin_state] raise
    [TypeError]: the call fails as a whole, before any rollback, any store
    write and any coin state is looked at, so the state is left as it was. *)
Theorem new_coin_state_absent_created_height_raises :
  forall env coin_states fork_height current_height st,
    (2 <= length coin_states)%nat ->
    Exists (fun cs => created_height cs = None) coin_states ->
    new_coin_state env coin_states fork_height current_height st
    = (Raise TypeError, st).
Proof.
  intros env css fork cur st Hlen Hex.
  unfold new_coin_state, bind, lift.
  rewrite (py_sort_absent_key _ _ Hlen Hex). reflexivity.
Qed.

Lemma new_coin_state_absent_created_height_raises_witness :
  new_coin_state ex_plain_env ex_reorged_batch (Some 1) (Some 10) (ex_state [] [])
  = (Raise TypeError, ex_state [] []).
Proof.
  apply new_coin_state_absent_created_height_raises.
  - simpl. lia.
  - constructor. reflexivity.
Defined.

(** *** The rollback comes first *)

Lemma bind_first_event {A B} (m : M A) (k : A -> M B) st ev :
  (exists evs, events (snd (m st)) = events st ++ ev :: evs) ->
  (forall a, stable events_extend (k a)) ->
  exists evs, events (snd (bind m k st)) = events st ++ ev :: evs.
Proof.
  intros [evs Hm] Hk. unfold bind.
  destruct (m st) as [[a|e] st1]; simpl in *.
  - destruct (Hk a st1) as [evs' H']. exists (evs ++ evs').
    rewrite H', Hm, <- app_assoc. reflexivity.
  - exists evs. exact Hm.
Qed.

Lemma reorg_rollback_first_event env h st :
  exists evs,
    events (snd (reorg_rollback env h st)) = events st ++ reorg_rollback_ev h :: evs.
Proof.
  unfold reorg_rollback. apply bind_first_event.
  - exists []. reflexivity.
  - intros _. unfold tx_pending_changed.
    repeat first [ apply emit_extends | apply add_transaction_record_extends
                 | apply pop_new_peak_callback_extends | events_prim | events_step ].
Qed.

(** C3 (amended). When [fork_height] and [current_height] are both present,
    [fork_height] differs from [current_height - 1] and the initial sort of
    the batch does not raise, [reorg_rollback(fork_height)] is the first thing
    the call does: every coin state the loop goes on to process, and every
    other call made by [new_coin_state], comes after it. *)
Theorem new_coin_state_rolls_back_first :
  forall env coin_states sorted fork current st,
    py_sort created_height coin_states = Ok sorted ->
    fork <> current - 1 ->
    exists evs,
      events (snd (new_coin_state env coin_states (Some fork) (Some current) st))
      = events st ++ reorg_rollback_ev fork :: evs.
Proof.
  intros env css sorted fork current st Hsort Hne.
  unfold new_coin_state. unfold bind at 1. unfold lift. rewrite Hsort.
  unfold bind at 1. unfold gets at 1.
  apply bind_first_event.
  - unfold maybe_rollback.
    destruct (fork =? current - 1) eqn:E; [apply Z.eqb_eq in E; contradiction|].
    simpl. apply reorg_rollback_first_event.
  - intros _.
    apply (stable_bind _ events_extend_trans).
    + apply (stable_fold_each _ events_extend_refl events_extend_trans).
      intros loc cs _. apply coin_state_body_extends.
    + intros loc.
      repeat first [ apply emit_extends | events_step ].
Qed.

Lemma new_coin_state_rolls_back_first_witness :
  exists evs,
    events (snd (new_coin_state ex_plain_env
                   [mkCoinState (mkCoin 2 110 20) None (Some 5)]
                   (Some 1) (Some 10) (ex_state [] [])))
    = events (ex_state [] []) ++ reorg_rollback_ev 1 :: evs.
Proof.
  apply (new_coin_state_rolls_back_first ex_plain_env _
           [mkCoinState (mkCoin 2 110 20) None (Some 5)]).
  - reflexivity.
  - lia.
Defined.

(** C3 as stated fails in two ways. With [fork_height = 1] and
    [current_height = 10], a batch that holds a reorged-out coin state makes
    the sort raise before the rollback; and when [current_height] is absent
    the guard skips the rollback. In both calls [reorg_rollback] is never
    entered. *)
Lemma new_coin_state_without_rollback :
  new_coin_state ex_plain_env ex_reorged_batch (Some 1) (Some 10) (ex_state [] [])
  = (Raise TypeError, ex_state [] [])
  /\ events (snd (new_coin_state ex_plain_env ex_reorged_batch (Some 1) (Some 10)
                    (ex_state [] []))) = []
  /\ events (snd (new_coin_state ex_plain_env
                    [mkCoinState (mkCoin 2 110 20) None (Some 5)] (Some 1) None
                    (ex_state [] [])))
     = [coin_state_ev (mkCoinState (mkCoin 2 110 20) None (Some 5));
        state_changed_ev "coin_added" (Some 1)].
Proof.
  split; [|split]; vm_compute; reflexivity.
Qed.

(** *** Change detection in [coin_added] *)

Lemma tx_store_set_confirmed_shape n h l :
  map tx_shape (tx_store_set_confirmed n h l) = map tx_shape l.
Proof.
  unfold tx_store_set_confirmed. rewrite map_map. apply map_ext.
  intros t. destruct (tx_name t =? n); reflexivity.
Qed.

(** The loop of [coin_added] that confirms the matching outgoing records
    returns, writes the transaction ledger only, and creates no record. *)
Lemma confirm_records_loop records height st :
  exists txs,
    for_each records (fun record =>
      when (negb (confirmed record)) (set_confirmed (tx_name record) height)) st
    = (Ok tt, set_tx_store txs st)
    /\ map tx_shape txs = map tx_shape (tx_store st).
Proof.
  revert st. induction records as [|r records IH]; intros st.
  - exists (tx_store st). split; [|reflexivity]. destruct st; reflexivity.
  - simpl. unfold bind.
    destruct (confirmed r); simpl.
    + exact (IH st).
    + destruct (IH (set_tx_store (tx_store_set_confirmed (tx_name r) height (tx_store st)) st))
        as [txs [H1 H2]].
      exists txs. split.
      * rewrite H1. destruct st; reflexivity.
      * rewrite H2. simpl. apply tx_store_set_confirmed_shape.
Qed.

Lemma is_change_member r wallet_type :
  is_change r (enum_member wallet_type)
  = Ok (match r with
        | Some parent_record => same_wallet_type wallet_type parent_record
        | None => false
        end).
Proof. destruct r; reflexivity. Qed.


Lemma confirm_loop_run records height st :
  for_each records (fun record =>
    when (negb (confirmed record)) (set_confirmed (tx_name record) height)) st
  = (Ok tt,
     set_tx_store
       (fold_left (fun txs record =>
                     if confirmed record then txs
                     else tx_store_set_confirmed (tx_name record) height txs)
          records (tx_store st)) st).
Proof.
  revert st. induction records as [|r records IH]; intros st.
  - destruct st; reflexivity.
  - simpl. unfold bind. destruct (confirmed r); simpl.
    + apply IH.
    + rewrite IH. destruct st; reflexivity.
Qed.

Lemma confirm_fold_shape records height l :
  map tx_shape
    (fold_left (fun txs record =>
                  if confirmed record then txs
                  else tx_store_set_confirmed (tx_name record) height txs)
       records l)
  = map tx_shape l.
Proof.
  revert l. induction records as [|x rest IH]; intros l; simpl; [reflexivity|].
  rewrite IH. destruct (confirmed x); [reflexivity|].
  apply tx_store_set_confirmed_shape.
Qed.

(** The run of [coin_added], branch by branch. It raises [AttributeError],
    before it writes anything, when the parent is in the ledger and
    [wallet_type] is a bare integer. *)
Lemma coin_added_run env coin coinbase fee_reward wallet_id wallet_type height
    all_outgoing st :
  coin_added env coin coinbase fee_reward wallet_id wallet_type height all_outgoing st
  = match is_change (get_coin_record (parent_coin_info coin) st) wallet_type with
    | Raise e => (Raise e, st)
    | Ok change =>
        let record :=
          added_coin_record coin coinbase fee_reward wallet_id
            (denoted_type wallet_type) height in
        let txs :=
          if coinbase || fee_reward then
            if change then tx_store st
            else tx_store_add (reward_tx env coin coinbase wallet_id height)
                   (tx_store st)
          else
            match matching_outgoing env coin all_outgoing with
            | _ :: _ =>
                fold_left (fun txs record =>
                             if confirmed record then txs
                             else tx_store_set_confirmed (tx_name record) height txs)
                  (matching_outgoing env coin all_outgoing) (tx_store st)
            | [] =>
                if change then tx_store st
                else if 0 <? amount coin
                     then tx_store_add (received_tx env coin wallet_id height)
                            (tx_store st)
                     else tx_store st
            end in
        let written :=
          set_coin_store (<[coin_name env coin := record]> (coin_store st))
            (set_tx_store txs st) in
        match denoted_type wallet_type with
        | COLOURED_COIN | DISTRIBUTED_ID =>
            match lookup_wallet wallet_id st with
            | Some _ =>
                (Ok record,
                 set_events
                   (events st ++ [wallet_coin_added_ev wallet_id coin height;
                                  state_changed_ev "coin_added" (Some wallet_id)])
                   written)
            | None => (Raise KeyError, written)
            end
        | _ =>
            (Ok record,
             set_events (events st ++ [state_changed_ev "coin_added" (Some wallet_id)])
               written)
        end
    end.
Proof.
  unfold coin_added.
  unfold bind at 1. unfold gets at 1.
  unfold bind at 1. unfold lift at 1.
  destruct (is_change (get_coin_record (parent_coin_info coin) st) wallet_type)
    as [change|e]; [|reflexivity].
  cbv beta zeta iota.
  unfold added_coin_record, reward_tx, received_tx.
  destruct (coinbase || fee_reward) eqn:Hreward.
  - destruct change;
      unfold bind, gets, ret, when, negb, state_changed, emit, modify, add_coin_record,
        add_transaction_record, raise, lookup_wallet;
      destruct (denoted_type wallet_type); simpl;
      try (destruct (List.find (fun p => fst p =? wallet_id) (wallets st));
           simpl);
      destruct st; simpl; rewrite <- ?app_assoc; reflexivity.
  - destruct (matching_outgoing env coin all_outgoing) as [|r records] eqn:Hmatch.
    + destruct change; [|destruct (0 <? amount coin)];
        unfold bind, gets, ret, when, negb, state_changed, emit, modify, add_coin_record,
          add_transaction_record, raise, lookup_wallet;
        destruct (denoted_type wallet_type); simpl;
        try (destruct (List.find (fun p => fst p =? wallet_id) (wallets st));
             simpl);
        destruct st; simpl; rewrite <- ?app_assoc; reflexivity.
    + unfold bind at 1. unfold bind at 1. rewrite confirm_loop_run.
      unfold bind, gets, ret, when, negb, state_changed, emit, modify, add_coin_record,
        raise, lookup_wallet.
      destruct (denoted_type wallet_type); simpl;
        try (destruct (List.find (fun p => fst p =? wallet_id) (wallets st));
             simpl);
        destruct st; simpl; rewrite <- ?app_assoc; reflexivity.
Qed.




(** *** A coin state that is created and spent *)

Lemma confirm_rel_refl spent l : confirm_rel spent l l.
Proof. split; [reflexivity | intros; assumption]. Qed.

Lemma confirm_rel_trans spent a b c :
  confirm_rel spent a b -> confirm_rel spent b c -> confirm_rel spent a c.
Proof.
  intros [H1 K1] [H2 K2]. split.
  - rewrite H2. exact H1.
  - intros t Hin Hc Hh. apply K2; auto.
Qed.

Lemma confirms_only_refl spent st : confirms_only spent st st.
Proof. split; [destruct st; reflexivity | apply confirm_rel_refl]. Qed.

Lemma confirms_only_trans spent a b c :
  confirms_only spent a b -> confirms_only spent b c -> confirms_only spent a c.
Proof.
  intros [H1 K1] [H2 K2]. split.
  - rewrite H2, H1. destruct a; reflexivity.
  - eapply confirm_rel_trans; eassumption.
Qed.

Lemma with_confirmed_id spent t :
  confirmed t = true -> confirmed_at_height t = spent -> with_confirmed spent t = t.
Proof. destruct t; simpl; intros -> ->; reflexivity. Qed.

Lemma tx_store_set_confirmed_rel n spent l :
  confirm_rel spent l (tx_store_set_confirmed n spent l).
Proof.
  split; [apply tx_store_set_confirmed_shape|].
  intros t Hin Hc Hh. unfold tx_store_set_confirmed.
  apply in_map_iff. exists t. split; [|exact Hin].
  destruct (tx_name t =? n); [apply with_confirmed_id; assumption | reflexivity].
Qed.

Lemma confirm_spenders_confirms_only env l n spent :
  stable (confirms_only spent) (confirm_spenders env l n spent).
Proof.
  unfold confirm_spenders.
  repeat first
    [ stable_step (confirms_only_refl spent) (confirms_only_trans spent)
    | apply stable_modify; intros st; split;
      [ destruct st; reflexivity | apply tx_store_set_confirmed_rel ] ].
Qed.

Lemma for_each_returns {A} (l : list A) (body : A -> M unit) :
  (forall x st, fst (body x st) = Ok tt) ->
  forall st, fst (for_each l body st) = Ok tt.
Proof.
  intros H. induction l as [|x l IH]; intros st; simpl; [reflexivity|].
  unfold bind. specialize (H x st).
  destruct (body x st) as [[[]|e] st1]; simpl in *; [apply IH | discriminate].
Qed.

Lemma confirm_spenders_returns env l n spent st :
  fst (confirm_spenders env l n spent st) = Ok tt.
Proof.
  unfold confirm_spenders. apply for_each_returns. intros u st1.
  apply for_each_returns. intros c st2.
  destruct (coin_name env c =? n); reflexivity.
Qed.

Lemma confirm_spenders_run env l n spent st :
  exists txs,
    confirm_spenders env l n spent st = (Ok tt, set_tx_store txs st)
    /\ confirm_rel spent (tx_store st) txs.
Proof.
  pose proof (confirm_spenders_returns env l n spent st) as Hret.
  destruct (confirm_spenders_confirms_only env l n spent st) as [Hst Hrel].
  destruct (confirm_spenders env l n spent st) as [r st1]; simpl in *.
  exists (tx_store st1). subst r. rewrite <- Hst. split; [reflexivity | exact Hrel].
Qed.

Lemma tx_store_add_in t l : In t (tx_store_add t l).
Proof.
  induction l as [|t0 l IH]; simpl; [left; reflexivity|].
  destruct (tx_name t0 =? tx_name t); [left; reflexivity | right; exact IH].
Qed.

Lemma tx_store_add_inv x t l : In x (tx_store_add t l) -> x = t \/ In x l.
Proof.
  induction l as [|t0 l IH]; simpl.
  - intros [H|[]]. left. symmetry. exact H.
  - destruct (tx_name t0 =? tx_name t); simpl.
    + intros [H|H]; [left; symmetry; exact H | right; right; exact H].
    + intros [H|H]; [right; left; exact H|].
      destruct (IH H) as [H'|H']; [left; exact H' | right; right; exact H'].
Qed.

Lemma children_loop_spec st l to_ph total :
  children_loop st l to_ph total
  = (match last (List.filter (not_ours st) l) with
     | Some c => Some (puzzle_hash c)
     | None => to_ph
     end,
     total + sum_amounts (List.filter (not_ours st) l)).
Proof.
  revert to_ph total. induction l as [|c l IH]; intros to_ph total; simpl.
  - f_equal. lia.
  - assert (Hc : not_ours st c
                 = match get_derivation_record_for_puzzle_hash (puzzle_hash c) st with
                   | None => true
                   | Some _ => false
                   end) by reflexivity.
    destruct (get_derivation_record_for_puzzle_hash (puzzle_hash c) st);
      rewrite Hc.
    + apply IH.
    + rewrite IH. simpl. f_equal; [|lia].
      rewrite last_cons.
      destruct (last (List.filter (not_ours st) l)); reflexivity.
Qed.



Lemma uint64_in_range v : 0 <= v < 2 ^ 64 -> uint64 v = Ok v.
Proof.
  intros [H1 H2]. unfold uint64, sized_int.
  destruct (0 <=? v) eqn:E1; [|apply Z.leb_gt in E1; lia].
  destruct (v <? 2 ^ 64) eqn:E2; [reflexivity | apply Z.ltb_ge in E2; lia].
Qed.

Lemma synthesize_spent_children env cs created spent wallet_id wallet_type st node
    first rest :
  get_full_node_peer env = Some node ->
  map cs_coin (fetch_children env node (coin_name env (cs_coin cs))) = first :: rest ->
  0 <= snd (children_loop
              (with_incoming env cs created spent wallet_id wallet_type st)
              (first :: rest) None 0) < 2 ^ 64 ->
  0 <= reserved_fee env node spent (cs_coin cs) < 2 ^ 64 ->
  synthesize_spent env cs created spent wallet_id wallet_type st
  = (Ok tt, with_outgoing env cs created spent wallet_id wallet_type node first rest st).
Proof.
  intros Hpeer Hchildren Htotal Hfee.
  unfold synthesize_spent, with_outgoing. cbv zeta.
  rewrite Hpeer, Hchildren.
  unfold bind at 1. unfold add_coin_record at 1. unfold modify at 1.
  change (set_coin_store _ st)
    with (with_spent_record env cs created spent wallet_id wallet_type st).
  unfold bind at 1. unfold gets at 1.
  rewrite is_change_member. unfold bind at 1. unfold lift at 1.
  fold (spent_coin_is_change env cs created spent wallet_id wallet_type st).
  unfold bind at 1.
  assert (Hpre : when (negb (spent_coin_is_change env cs created spent wallet_id
                               wallet_type st))
                   (let* name := fresh_token env in
                    add_transaction_record
                      (mkTransactionRecord created (get_timestamp_for_height env created)
                         (puzzle_hash (cs_coin cs)) (amount (cs_coin cs)) 0 true 0 None
                         [cs_coin cs] [] wallet_id [] None
                         (TransactionType_value INCOMING_TX) name))
                   (with_spent_record env cs created spent wallet_id wallet_type st)
                 = (Ok tt, with_incoming env cs created spent wallet_id wallet_type st)).
  { unfold with_incoming. cbv zeta.
    destruct (spent_coin_is_change env cs created spent wallet_id wallet_type st);
      reflexivity. }
  rewrite Hpre.
  unfold bind at 1. unfold gets at 1.
  unfold bind at 1. unfold lift at 1. rewrite (uint64_in_range _ Htotal).
  unfold bind at 1. unfold lift at 1. rewrite (uint64_in_range _ Hfee).
  reflexivity.
Qed.

(** The loop body on a created-and-spent coin state without a coin record
    whose puzzle hash is ours: the synthesis, then the confirmation of the
    pending spenders, then [removed.append(coin_state)]. *)
Lemma coin_state_body_spent env all_unconfirmed loc cs st created spent
    wallet_id wallet_type st_s :
  created_height cs = Some created ->
  spent_height cs = Some spent ->
  get_coin_record (coin_name env (cs_coin cs)) st = None ->
  wallet_info_for_puzzle_hash (puzzle_hash (cs_coin cs)) st
    = Some (wallet_id, wallet_type) ->
  synthesize_spent env cs created spent wallet_id wallet_type
    (set_events (events st ++ [coin_state_ev cs]) st) = (Ok tt, st_s) ->
  exists txs,
    coin_state_body env all_unconfirmed loc cs st
    = (Ok (locals_after_spent env cs loc), set_tx_store txs st_s)
    /\ confirm_rel spent (tx_store st_s) txs.
Proof.
  intros Hc Hs Hrec Hinfo Hsynth.
  unfold coin_state_body.
  unfold bind at 1. unfold emit at 1. unfold modify at 1.
  unfold bind at 1. unfold gets at 1.
  change (wallet_info_for_puzzle_hash (puzzle_hash (cs_coin cs))
            (set_events (events st ++ [coin_state_ev cs]) st))
    with (wallet_info_for_puzzle_hash (puzzle_hash (cs_coin cs)) st).
  rewrite Hinfo.
  unfold bind at 1. unfold gets at 1. rewrite Hc, Hs.
  unfold spent_case.
  unfold bind at 1. unfold gets at 1.
  change (get_coin_record (coin_name env (cs_coin cs))
            (set_events (events st ++ [coin_state_ev cs]) st))
    with (get_coin_record (coin_name env (cs_coin cs)) st).
  rewrite Hrec.
  unfold bind at 1. rewrite Hsynth.
  destruct (confirm_spenders_run env all_unconfirmed (coin_name env (cs_coin cs))
              spent st_s) as [txs [Hrun Hrel]].
  unfold bind at 1. rewrite Hrun.
  exists txs. split; [reflexivity | exact Hrel].
Qed.




Lemma not_ours_frame st st' :
  derivation_paths st' = derivation_paths st ->
  forall l, List.filter (not_ours st') l = List.filter (not_ours st) l.
Proof.
  intros H l. apply filter_ext. intros c. unfold not_ours,
    get_derivation_record_for_puzzle_hash, find_derivation. rewrite H. reflexivity.
Qed.

Lemma with_incoming_derivation_paths env cs created spent wallet_id wallet_type st :
  derivation_paths (with_incoming env cs created spent wallet_id wallet_type st)
  = derivation_paths st.
Proof.
  unfold with_incoming. cbv zeta.
  destruct (spent_coin_is_change env cs created spent wallet_id wallet_type st);
    reflexivity.
Qed.

(** C2 (amended). For a created-and-spent coin state with no coin record and
    a known wallet, when [fetch_children] returns at least one child and both
    the fee and the amount fit in a [uint64], the loop body leaves in the
    transaction ledger an [OUTGOING_TX] record, confirmed at the spent height,
    whose [fee_amount] is [reveal.reserved_fee()], whose [amount] is the sum of
    the amounts of the children whose puzzle hash has no derivation record of
    ours, and whose [to_puzzle_hash] is the puzzle hash of the last such child,
    or of the first child when every child is ours. *)
Theorem created_and_spent_outgoing_transaction :
  forall env all_unconfirmed loc cs st created spent wallet_id wallet_type node
         first rest,
    created_height cs = Some created ->
    spent_height cs = Some spent ->
    get_coin_record (coin_name env (cs_coin cs)) st = None ->
    wallet_info_for_puzzle_hash (puzzle_hash (cs_coin cs)) st
      = Some (wallet_id, wallet_type) ->
    get_full_node_peer env = Some node ->
    map cs_coin (fetch_children env node (coin_name env (cs_coin cs)))
      = first :: rest ->
    let total := sum_amounts (List.filter (not_ours st) (first :: rest)) in
    let fee := reserved_fee env node spent (cs_coin cs) in
    0 <= total < 2 ^ 64 ->
    0 <= fee < 2 ^ 64 ->
    exists name,
      In (outgoing_tx env (cs_coin cs) spent wallet_id (first :: rest)
            (to_puzzle_hash_of_last st first rest) total fee name)
         (tx_store (snd (coin_state_body env all_unconfirmed loc cs st))).
Proof.
  intros env all_unconfirmed loc cs st created spent wallet_id wallet_type node
         first rest Hc Hs Hrec Hinfo Hpeer Hchildren total fee Htotal Hfee.
  set (st_e := set_events (events st ++ [coin_state_ev cs]) st).
  set (st2 := with_incoming env cs created spent wallet_id wallet_type st_e).
  assert (Hd : derivation_paths st2 = derivation_paths st).
  { subst st2. rewrite with_incoming_derivation_paths. reflexivity. }
  assert (Hloop : children_loop st2 (first :: rest) None 0
                  = (match last (List.filter (not_ours st) (first :: rest)) with
                     | Some c => Some (puzzle_hash c)
                     | None => None
                     end, total)).
  { rewrite children_loop_spec, (not_ours_frame st st2 Hd). reflexivity. }
  assert (Htotal2 : 0 <= snd (children_loop st2 (first :: rest) None 0) < 2 ^ 64).
  { rewrite Hloop. exact Htotal. }
  destruct (coin_state_body_spent env all_unconfirmed loc cs st created spent
              wallet_id wallet_type _ Hc Hs Hrec Hinfo
              (synthesize_spent_children env cs created spent wallet_id
                 wallet_type st_e node first rest Hpeer Hchildren Htotal2 Hfee))
    as [txs [Hrun [_ Hkeep]]].
  rewrite Hrun. simpl snd.
  exists (token_bytes env (entropy st2)).
  apply Hkeep; [|reflexivity|reflexivity].
  unfold with_outgoing. cbv zeta. fold st2. rewrite Hloop.
  unfold to_puzzle_hash_of_last. cbn [fst snd tx_store set_tx_store].
  destruct (last (List.filter (not_ours st) (first :: rest))); apply tx_store_add_in.
Qed.

Lemma created_and_spent_outgoing_transaction_witness :
  exists name,
    In (outgoing_tx ex_spend_env (cs_coin ex_spent_coin_state) 100 1
          (map cs_coin (ex_children (ex_coin_name (mkCoin 1 110 10))))
          600 8 1 name)
       (tx_store (snd (coin_state_body ex_spend_env [] empty_locals
                         ex_spent_coin_state (ex_state [] [])))).
Proof.
  apply (created_and_spent_outgoing_transaction ex_spend_env [] empty_locals
           ex_spent_coin_state (ex_state [] []) 90 100 1 STANDARD_WALLET 1
           (mkCoin (ex_coin_name (mkCoin 1 110 10)) 111 1)
           [mkCoin (ex_coin_name (mkCoin 1 110 10)) 500 6;
            mkCoin (ex_coin_name (mkCoin 1 110 10)) 600 2]).
  - reflexivity.
  - reflexivity.
  - vm_compute. reflexivity.
  - vm_compute. reflexivity.
  - reflexivity.
  - reflexivity.
  - vm_compute. split; [discriminate | reflexivity].
  - vm_compute. split; [discriminate | reflexivity].
Defined.

(** C2 as stated fails on [to_puzzle_hash]: the first child that is not ours
    pays to 500, the last one to 600, and the record that the code writes is
    addressed to 600. *)
Lemma outgoing_to_puzzle_hash_is_not_the_first :
  to_puzzle_hash_as_stated (ex_state [] [])
    (mkCoin (ex_coin_name (mkCoin 1 110 10)) 111 1)
    [mkCoin (ex_coin_name (mkCoin 1 110 10)) 500 6;
     mkCoin (ex_coin_name (mkCoin 1 110 10)) 600 2] = 500
  /\ map (fun t => (tx_type t, to_puzzle_hash t, tx_amount t, fee_amount t))
       (tx_store (snd (coin_state_body ex_spend_env [] empty_locals
                         ex_spent_coin_state (ex_state [] []))))
     = [(TransactionType_value INCOMING_TX, 110, 10, 0);
        (TransactionType_value OUTGOING_TX, 600, 8, 1)].
Proof.
  split; vm_compute; reflexivity.
Qed.

(** *** Rolling the coin ledger back *)

Lemma lookup_rollback h (m : gmap Z WalletCoinRecord) k :
  coin_store_rollback_to_block h m !! k = m !! k ≫= rollback_record h.
Proof.
  unfold coin_store_rollback_to_block, rollback_record.
  rewrite lookup_fmap, map_lookup_filter.
  destruct (m !! k) as [r|]; simpl; [|reflexivity].
  destruct (decide (confirmed_height r <= h)).
  - rewrite option_guard_True by assumption. reflexivity.
  - rewrite option_guard_False by assumption. reflexivity.
Qed.

Lemma clear_spent_above_spent h s r :
  h < s -> clear_spent_above h (with_spent_height s r) = with_spent_height 0 r.
Proof.
  intros H. unfold clear_spent_above. simpl.
  destruct (h <? s) eqn:E; [reflexivity | apply Z.ltb_ge in E; lia].
Qed.

Lemma clear_spent_above_unspent h r :
  wcr_spent_height (clear_spent_above h r) = 0 ->
  clear_spent_above h r = with_spent_height 0 r.
Proof.
  unfold clear_spent_above. destruct (h <? wcr_spent_height r); [reflexivity|].
  intros H. destruct r; simpl in *. subst. reflexivity.
Qed.

Lemma ledger_at_most_rolls_back h (m : gmap Z WalletCoinRecord) :
  ledger_at_most h m -> rolls_back_to h m m.
Proof.
  intros H. apply map_eq. intros k. rewrite lookup_rollback.
  destruct (m !! k) as [r|] eqn:E; simpl; [|reflexivity].
  destruct (H k r E) as [H1 H2]. unfold rollback_record, clear_spent_above.
  destruct (decide (confirmed_height r <= h)); [|contradiction].
  destruct (h <? wcr_spent_height r) eqn:E2; [apply Z.ltb_lt in E2; lia | reflexivity].
Qed.

Lemma rolls_back_insert h before (m : gmap Z WalletCoinRecord) n r :
  rolls_back_to h before m -> h < confirmed_height r -> before !! n = None ->
  rolls_back_to h before (<[n := r]> m).
Proof.
  intros HI Hr Hn. apply map_eq. intros k. rewrite lookup_rollback, lookup_insert.
  destruct (decide (n = k)) as [->|Hne]; simpl.
  - rewrite Hn. unfold rollback_record.
    destruct (decide (confirmed_height r <= h)); [lia | reflexivity].
  - rewrite <- HI, lookup_rollback. reflexivity.
Qed.

Lemma rolls_back_set_spent h before (m : gmap Z WalletCoinRecord) n s :
  rolls_back_to h before m ->
  match before !! n with
  | Some r0 => wcr_spent_height r0 = 0 /\ h < s
  | None => True
  end ->
  rolls_back_to h before (coin_store_set_spent n s m).
Proof.
  intros HI Hn. apply map_eq. intros k.
  unfold coin_store_set_spent. rewrite lookup_rollback.
  destruct (decide (n = k)) as [->|Hne];
    [rewrite lookup_alter_eq | rewrite lookup_alter_ne by assumption].
  - assert (Hk : before !! k = m !! k ≫= rollback_record h)
      by (rewrite <- HI; apply lookup_rollback).
    rewrite Hk in *. destruct (m !! k) as [r|]; simpl in *; [|reflexivity].
    unfold rollback_record in *. simpl.
    destruct (decide (confirmed_height r <= h)); [|reflexivity].
    destruct Hn as [H0 Hs]. f_equal.
    rewrite clear_spent_above_spent by assumption.
    symmetry. apply clear_spent_above_unspent. exact H0.
  - rewrite <- HI, lookup_rollback. reflexivity.
Qed.

Lemma rolls_back_deeper h f before (m : gmap Z WalletCoinRecord) :
  rolls_back_to h before m -> h <= f ->
  rolls_back_to h before (coin_store_rollback_to_block f m).
Proof.
  intros HI Hf. apply map_eq. intros k.
  rewrite <- HI, !lookup_rollback.
  destruct (m !! k) as [r|]; simpl; [|reflexivity].
  unfold rollback_record at 2.
  destruct (decide (confirmed_height r <= f)) as [Hc|Hc]; simpl.
  - unfold rollback_record.
    assert (Hconf : confirmed_height (clear_spent_above f r) = confirmed_height r).
    { unfold clear_spent_above. destruct (f <? wcr_spent_height r); reflexivity. }
    rewrite Hconf.
    destruct (decide (confirmed_height r <= h)); [|reflexivity].
    f_equal. unfold clear_spent_above.
    destruct (f <? wcr_spent_height r) eqn:E1; simpl.
    + apply Z.ltb_lt in E1.
      destruct (h <? wcr_spent_height r) eqn:E2; [|apply Z.ltb_ge in E2; lia].
      destruct (h <? 0); reflexivity.
    + reflexivity.
  - unfold rollback_record.
    destruct (decide (confirmed_height r <= h)); [lia | reflexivity].
Qed.

Lemma rolls_back_absent h before (m : gmap Z WalletCoinRecord) n :
  rolls_back_to h before m -> m !! n = None -> before !! n = None.
Proof.
  intros HI Hn. rewrite <- HI, lookup_rollback, Hn. reflexivity.
Qed.

Lemma py_insert_in {A} (key : A -> option Z) x sorted l' y :
  py_insert key x sorted = Ok l' -> In y l' -> y = x \/ In y sorted.
Proof.
  revert l'. induction sorted as [|z rest IH]; intros l' H Hin; simpl in H.
  - inversion H; subst. destruct Hin as [<-|[]]. left. reflexivity.
  - destruct (py_lt (key z) (key x)) as [[|]|e]; try discriminate.
    + destruct (py_insert key x rest) as [rest'|e] eqn:E; try discriminate.
      inversion H; subst. destruct Hin as [<-|Hin].
      * right. left. reflexivity.
      * destruct (IH _ eq_refl Hin) as [->|Hr]; [left; reflexivity | right; right; exact Hr].
    + inversion H; subst. destruct Hin as [<-|Hin]; [left; reflexivity | right; exact Hin].
Qed.

Lemma py_sort_in {A} (key : A -> option Z) l l' y :
  py_sort key l = Ok l' -> In y l' -> In y l.
Proof.
  revert l'. induction l as [|x rest IH]; intros l' H Hin; simpl in H.
  - inversion H; subst. destruct Hin.
  - destruct (py_sort key rest) as [sorted|e] eqn:E; try discriminate.
    destruct (py_insert_in _ _ _ _ _ H Hin) as [->|Hs].
    + left. reflexivity.
    + right. eapply IH; [reflexivity | exact Hs].
Qed.

Section Restore.

Variable env : Env.
Variable h : Z.
Variable before : gmap Z WalletCoinRecord.

Abbreviation keeps := (stable (keeps_rollback h before)).

Lemma keeps_rollback_refl st : keeps_rollback h before st st.
Proof. intros H. exact H. Qed.

Lemma keeps_rollback_trans a b c :
  keeps_rollback h before a b -> keeps_rollback h before b c ->
  keeps_rollback h before a c.
Proof. intros H1 H2 H. apply H2, H1, H. Qed.

Ltac keeps_step := stable_step keeps_rollback_refl keeps_rollback_trans.

(** A write that leaves the coin ledger alone. *)
Ltac keeps_same :=
  apply stable_modify; intros ? ?; simpl; repeat case_match; assumption.

Lemma emit_keeps e : keeps (emit e).
Proof. keeps_same. Qed.

Lemma add_transaction_record_keeps t : keeps (add_transaction_record t).
Proof. keeps_same. Qed.

Lemma set_confirmed_keeps n s : keeps (set_confirmed n s).
Proof. keeps_same. Qed.

Lemma set_used_up_to_keeps i : keeps (set_used_up_to i).
Proof. keeps_same. Qed.

Lemma fresh_token_keeps : keeps (fresh_token env).
Proof. intros st H. exact H. Qed.

Lemma add_coin_record_keeps r :
  h < confirmed_height r -> before !! coin_name env (wcr_coin r) = None ->
  keeps (add_coin_record env r).
Proof.
  intros Hr Hn. apply stable_modify. intros st HI. simpl.
  apply rolls_back_insert; assumption.
Qed.

Lemma set_spent_keeps n s :
  match before !! n with
  | Some r0 => wcr_spent_height r0 = 0 /\ h < s
  | None => True
  end ->
  keeps (set_spent n s).
Proof.
  intros Hn. apply stable_modify. intros st HI. simpl.
  apply rolls_back_set_spent; assumption.
Qed.

Lemma coin_added_keeps coin cb fr wid wt height out :
  h < height -> before !! coin_name env coin = None ->
  keeps (coin_added env coin cb fr wid wt height out).
Proof.
  intros Hh Hn. unfold coin_added, state_changed.
  repeat first [ apply emit_keeps | apply add_transaction_record_keeps
               | apply set_confirmed_keeps
               | apply add_coin_record_keeps; assumption
               | keeps_step ].
Qed.

Lemma confirm_spenders_keeps l n s : keeps (confirm_spenders env l n s).
Proof.
  unfold confirm_spenders. repeat first [ apply set_confirmed_keeps | keeps_step ].
Qed.

Lemma synthesize_spent_keeps cs created spent wid wt :
  h < created -> before !! coin_name env (cs_coin cs) = None ->
  keeps (synthesize_spent env cs created spent wid wt).
Proof.
  intros Hh Hn. unfold synthesize_spent.
  repeat first [ apply add_transaction_record_keeps | apply fresh_token_keeps
               | apply add_coin_record_keeps; assumption
               | keeps_step ].
Qed.

Lemma pop_new_peak_callback_keeps w : keeps (pop_new_peak_callback w).
Proof. unfold pop_new_peak_callback. repeat first [ keeps_same | keeps_step ]. Qed.

Lemma reorg_rollback_keeps f : h <= f -> keeps (reorg_rollback env f).
Proof.
  intros Hf. unfold reorg_rollback, tx_pending_changed.
  apply (stable_bind _ keeps_rollback_trans); [apply emit_keeps | intros _].
  apply (stable_bind _ keeps_rollback_trans).
  { apply stable_modify. intros st HI. simpl. apply rolls_back_deeper; assumption. }
  intros _.
  repeat first [ apply emit_keeps | apply add_transaction_record_keeps
               | apply pop_new_peak_callback_keeps | keeps_same | keeps_step ].
Qed.

Lemma created_case_keeps cs created info interested loc :
  h < created -> before !! coin_name env (cs_coin cs) = None ->
  keeps (created_case env cs created info interested loc).
Proof.
  intros Hh Hn. unfold created_case.
  repeat first [ apply coin_added_keeps; assumption | apply set_used_up_to_keeps
               | keeps_step ].
Qed.

Lemma spent_case_keeps all_unconfirmed cs created spent info loc :
  match before !! coin_name env (cs_coin cs) with
  | None => h < created
  | Some r0 => wcr_spent_height r0 = 0 /\ h < spent
  end ->
  keeps (spent_case env all_unconfirmed cs created spent info loc).
Proof.
  intros Hcs st HI. unfold spent_case.
  unfold bind at 1. unfold gets at 1.
  destruct (get_coin_record (coin_name env (cs_coin cs)) st) as [r|] eqn:Hrec.
  - revert HI. revert st Hrec.
    assert (Hk : keeps
              (let* _ := set_spent (coin_name env (cs_coin cs)) spent in
               let* _ := confirm_spenders env all_unconfirmed
                           (coin_name env (cs_coin cs)) spent in
               ret (push_removed cs
                      (if existsb (Z.eqb (coin_name env (cs_coin cs)))
                            (trade_removals env)
                       then push_trade_removed cs loc else loc)))).
    { repeat first [ apply confirm_spenders_keeps | keeps_step ].
      apply set_spent_keeps.
      destruct (before !! coin_name env (cs_coin cs)); [exact Hcs | exact I]. }
    intros st _. apply Hk.
  - pose proof (rolls_back_absent _ _ _ _ HI Hrec) as Hn.
    rewrite Hn in Hcs. revert HI. revert st Hrec.
    assert (Hk : keeps
              (let* _ := match info with
                         | Some (wallet_id, wallet_type) =>
                             synthesize_spent env cs created spent wallet_id wallet_type
                         | None => ret tt
                         end in
               let* _ := confirm_spenders env all_unconfirmed
                           (coin_name env (cs_coin cs)) spent in
               ret (push_removed cs
                      (if existsb (Z.eqb (coin_name env (cs_coin cs)))
                            (trade_removals env)
                       then push_trade_removed cs loc else loc)))).
    { repeat first [ apply confirm_spenders_keeps
                   | apply synthesize_spent_keeps; assumption
                   | keeps_step ]. }
    intros st _. apply Hk.
Qed.

Lemma coin_state_body_keeps all_unconfirmed loc cs :
  restorable_coin_state env h before cs ->
  keeps (coin_state_body env all_unconfirmed loc cs).
Proof.
  intros Hcs. unfold coin_state_body. unfold restorable_coin_state in Hcs.
  apply (stable_bind _ keeps_rollback_trans); [apply emit_keeps | intros _].
  apply (stable_bind _ keeps_rollback_trans);
    [apply (stable_gets _ keeps_rollback_refl) | intros info].
  apply (stable_bind _ keeps_rollback_trans);
    [apply (stable_gets _ keeps_rollback_refl) | intros interested].
  destruct (created_height cs) as [created|];
    [|apply (stable_ret _ keeps_rollback_refl)].
  destruct (spent_height cs) as [spent|] eqn:Hs.
  - apply spent_case_keeps.
    destruct (before !! coin_name env (cs_coin cs)); [|exact Hcs].
    destruct Hcs as [H0 [s [Hs' Hlt]]]. inversion Hs'; subst. split; assumption.
  - destruct (before !! coin_name env (cs_coin cs)) eqn:Hn.
    + destruct Hcs as [_ [s [Hs' _]]]. discriminate Hs'.
    + apply created_case_keeps; assumption.
Qed.

Lemma new_coin_state_keeps coin_states fork_height current_height :
  restorable_batch env h before (coin_states, fork_height, current_height) ->
  keeps (new_coin_state env coin_states fork_height current_height).
Proof.
  intros [Hall Hfork]. simpl in Hall, Hfork. unfold new_coin_state.
  intros st. unfold bind at 1. unfold lift at 1.
  destruct (py_sort created_height coin_states) as [sorted|e] eqn:Hsort;
    [|apply keeps_rollback_refl].
  revert st.
  assert (Hsorted : Forall (restorable_coin_state env h before) sorted).
  { apply List.Forall_forall. intros cs Hin. rewrite List.Forall_forall in Hall.
    apply Hall. eapply py_sort_in; eassumption. }
  apply (stable_bind _ keeps_rollback_trans);
    [apply (stable_gets _ keeps_rollback_refl) | intros all_unconfirmed].
  apply (stable_bind _ keeps_rollback_trans).
  { unfold maybe_rollback.
    destruct fork_height as [fork|]; [|apply (stable_ret _ keeps_rollback_refl)].
    destruct current_height as [current|]; [|apply (stable_ret _ keeps_rollback_refl)].
    destruct (fork =? current - 1) eqn:E; simpl.
    - apply (stable_ret _ keeps_rollback_refl).
    - apply reorg_rollback_keeps. destruct Hfork as [Hf|Hf]; [|exact Hf].
      apply Z.eqb_neq in E. contradiction. }
  intros _.
  apply (stable_bind _ keeps_rollback_trans).
  { apply (stable_fold_each _ keeps_rollback_refl keeps_rollback_trans).
    intros loc cs Hin. apply coin_state_body_keeps.
    rewrite List.Forall_forall in Hsorted. apply Hsorted. exact Hin. }
  intros loc.
  repeat first [ apply emit_keeps | keeps_step ].
Qed.

Lemma apply_batches_keeps batches st :
  Forall (restorable_batch env h before) batches ->
  keeps_rollback h before st (apply_batches env batches st).
Proof.
  revert st. induction batches as [|[[css fork] current] rest IH]; intros st Hall.
  - apply keeps_rollback_refl.
  - inversion Hall as [|b bs Hb Hrest]; subst. simpl.
    eapply keeps_rollback_trans; [apply (new_coin_state_keeps _ _ _ Hb) | apply IH, Hrest].
Qed.

End Restore.

Lemma same_ledger_refl st : same_ledger st st.
Proof. reflexivity. Qed.

Lemma same_ledger_trans a b c : same_ledger a b -> same_ledger b c -> same_ledger a c.
Proof. unfold same_ledger. intros H1 H2. rewrite H2. exact H1. Qed.

(** [reorg_rollback] rolls the coin ledger back, whether or not it goes on
    to raise while it removes pool wallets. *)
Lemma reorg_rollback_ledger env h st :
  coin_store (snd (reorg_rollback env h st))
  = coin_store_rollback_to_block h (coin_store st).
Proof.
  unfold reorg_rollback.
  unfold bind at 1. unfold emit at 1. unfold modify at 1.
  unfold bind at 1. unfold modify at 1.
  match goal with
  | |- coin_store (snd (?m ?s)) = _ =>
      assert (Hk : stable same_ledger m); [| exact (Hk s)]
  end.
  unfold tx_pending_changed, pop_new_peak_callback, emit, add_transaction_record.
  repeat first
    [ stable_step same_ledger_refl same_ledger_trans
    | apply stable_modify; intros ?; reflexivity ].
Qed.

(** C4 (amended). Take a ledger that holds nothing above height [h] and a
    sequence of batches applied through [new_coin_state] in which every call
    that rolls back does so to a fork height not below [h], and every coin
    state either concerns a coin that the ledger did not hold and that was
    created above [h], or spends above [h] a coin that the ledger held
    unspent. Then [reorg_rollback(h)] restores the coin ledger to exactly its
    contents before the sequence. *)
Theorem reorg_rollback_restores_ledger :
  forall env h batches st,
    ledger_at_most h (coin_store st) ->
    Forall (restorable_batch env h (coin_store st)) batches ->
    coin_store (snd (reorg_rollback env h (apply_batches env batches st)))
    = coin_store st.
Proof.
  intros env h batches st Hbefore Hall.
  rewrite reorg_rollback_ledger.
  apply (apply_batches_keeps env h (coin_store st) batches st Hall).
  apply ledger_at_most_rolls_back. exact Hbefore.
Qed.

Lemma reorg_rollback_restores_ledger_witness :
  coin_store (snd (reorg_rollback ex_plain_env 10
                     (apply_batches ex_plain_env [ex_spend_batch] ex_parent_state)))
  = coin_store ex_parent_state.
Proof.
  apply reorg_rollback_restores_ledger.
  - simpl. apply map_Forall_insert_2; [simpl; lia | apply map_Forall_empty].
  - constructor; [|constructor]. split.
    + simpl. constructor; [|constructor; [|constructor]].
      * vm_compute. split; [reflexivity|]. eexists. split; reflexivity.
      * vm_compute. reflexivity.
    + simpl. right. lia.
Defined.

(** C4 as stated fails for a sequence that reorganizes the chain below the
    rollback height, and for one that brings a coin created at or below it: in
    the first the coin confirmed at height 5 is gone for good, in the second
    the coin created at height 5 stays after the rollback to height 10. *)
Lemma reorg_rollback_does_not_always_restore :
  coin_store (snd (reorg_rollback ex_plain_env 10
                     (apply_batches ex_plain_env [ex_deep_fork_batch] ex_parent_state)))
  <> coin_store ex_parent_state
  /\ coin_store (snd (reorg_rollback ex_plain_env 10
                        (apply_batches ex_plain_env [ex_old_coin_batch]
                           (ex_state [] []))))
     <> coin_store (ex_state [] []).
Proof.
  split; intros Heq.
  - apply (f_equal (fun m => m !! ex_coin_name (mkCoin 1 110 10))) in Heq.
    vm_compute in Heq. discriminate Heq.
  - apply (f_equal (fun m => m !! ex_coin_name (mkCoin 2 111 20))) in Heq.
    vm_compute in Heq. discriminate Heq.
Qed.

(** *** Derivation-path expansion *)

Lemma derive_loop_standard env wallet_id w range paths :
  w_type w <> POOLING_WALLET -> w_type w <> RATE_LIMITED ->
  (forall i, In i range -> puzzle_for_pk env wallet_id (get_public_key env i) <> None) ->
  exists recs,
    derive_loop env wallet_id w range paths = Ok (paths ++ recs)
    /\ map dr_index recs = range
    /\ Forall (fun d => dr_wallet_id d = wallet_id) recs.
Proof.
  intros Hp Hr. revert paths.
  induction range as [|index rest IH]; intros paths Hpk; simpl.
  - exists []. rewrite app_nil_r. repeat split. constructor.
  - destruct (puzzle_for_pk env wallet_id (get_public_key env index)) as [ph|] eqn:E;
      [|exfalso; apply (Hpk index); [left; reflexivity | exact E]].
    destruct (IH (paths ++ [mkDerivationRecord index ph (get_public_key env index)
                              (w_type w) wallet_id]))
      as [recs [H1 [H2 H3]]].
    { intros i Hi. apply Hpk. right. exact Hi. }
    exists (mkDerivationRecord index ph (get_public_key env index) (w_type w) wallet_id
            :: recs).
    split; [|split].
    + destruct (w_type w); try contradiction; rewrite H1, <- app_assoc; reflexivity.
    + simpl. f_equal. exact H2.
    + constructor; [reflexivity | exact H3].
Qed.

Lemma derive_loop_wallet_id env wallet_id w range paths l :
  derive_loop env wallet_id w range paths = Ok l ->
  exists recs, l = paths ++ recs /\ Forall (fun d => dr_wallet_id d = wallet_id) recs.
Proof.
  revert paths. induction range as [|index rest IH]; intros paths H; simpl in H.
  - inversion H. exists []. rewrite app_nil_r. split; [reflexivity | constructor].
  - destruct (w_type w).
    + destruct (puzzle_for_pk env wallet_id (get_public_key env index)).
      * destruct (IH _ H) as [recs [H1 H2]]. eexists (_ :: recs).
        rewrite H1, <- app_assoc. split; [reflexivity|].
        constructor; [reflexivity | exact H2].
      * inversion H. exists []. rewrite app_nil_r. split; [reflexivity | constructor].
    + destruct (negb (rl_initialized (w_rl_info w))).
      * inversion H. exists []. rewrite app_nil_r. split; [reflexivity | constructor].
      * destruct (puzzle_for_pk env wallet_id _); [|discriminate].
        destruct (_ =? -1); inversion H.
        -- exists []. rewrite app_nil_r. split; [reflexivity | constructor].
        -- eexists [_]. split; [reflexivity|]. constructor; [reflexivity | constructor].
    + destruct (puzzle_for_pk env wallet_id (get_public_key env index)).
      * destruct (IH _ H) as [recs [H1 H2]]. eexists (_ :: recs).
        rewrite H1, <- app_assoc. split; [reflexivity|].
        constructor; [reflexivity | exact H2].
      * inversion H. exists []. rewrite app_nil_r. split; [reflexivity | constructor].
    + destruct (puzzle_for_pk env wallet_id (get_public_key env index)).
      * destruct (IH _ H) as [recs [H1 H2]]. eexists (_ :: recs).
        rewrite H1, <- app_assoc. split; [reflexivity|].
        constructor; [reflexivity | exact H2].
      * inversion H. exists []. rewrite app_nil_r. split; [reflexivity | constructor].
    + apply IH. exact H.
Qed.

(** What one iteration of [for wallet_id in targets] does when it returns:
    it appends records of that wallet and publishes their puzzle hashes. *)
Lemma expand_wallet_returns env from_zero unused generate wallet_id st st' :
  expand_wallet env from_zero unused generate wallet_id st = (Ok tt, st') ->
  exists w recs,
    lookup_wallet wallet_id st = Some w
    /\ derive_loop env wallet_id w
         (seqZ (start_index from_zero (get_last_derivation_path_for_wallet wallet_id st))
               (unused + generate
                - start_index from_zero (get_last_derivation_path_for_wallet wallet_id st)))
         [] = Ok recs
    /\ st' = set_events
               (events st ++ [subscribe_to_new_puzzle_hash_ev (map dr_puzzle_hash recs)])
               (set_derivation_paths (derivation_paths st ++ recs) st).
Proof.
  unfold expand_wallet. unfold bind at 1. unfold gets at 1.
  destruct (lookup_wallet wallet_id st) as [w|]; [|discriminate].
  unfold bind at 1. unfold gets at 1. unfold bind at 1. unfold lift at 1.
  destruct (derive_loop env wallet_id w _ []) as [recs|e] eqn:E; [|discriminate].
  intros H. inversion H. exists w, recs. repeat split. exact E.
Qed.

Lemma filter_app_none {A} (p : A -> bool) l extra :
  Forall (fun x => p x = false) extra -> List.filter p (l ++ extra) = List.filter p l.
Proof.
  intros H. rewrite List.filter_app.
  assert (He : List.filter p extra = []).
  { induction H as [|x extra Hx _ IH]; simpl; [reflexivity|]. rewrite Hx. exact IH. }
  rewrite He. apply app_nil_r.
Qed.

Lemma for_each_expand_keeps env from_zero unused generate targets st st' :
  for_each targets (expand_wallet env from_zero unused generate) st = (Ok tt, st') ->
  wallets st' = wallets st
  /\ last_used st' = last_used st
  /\ forall d, In d (derivation_paths st) -> In d (derivation_paths st').
Proof.
  revert st. induction targets as [|v rest IH]; intros st H; simpl in H.
  - inversion H. repeat split. intros d Hd. exact Hd.
  - unfold bind in H.
    destruct (expand_wallet env from_zero unused generate v st) as [[[]|e] st1] eqn:E;
      [|discriminate].
    destruct (expand_wallet_returns _ _ _ _ _ _ _ E) as [w [recs [_ [_ Hst1]]]].
    destruct (IH _ H) as [H1 [H2 H3]]. subst st1. simpl in *.
    repeat split; try assumption.
    intros d Hd. apply H3. apply in_or_app. left. exact Hd.
Qed.

Lemma for_each_expand_covers env from_zero unused generate wallet_id w targets :
  w_type w <> POOLING_WALLET -> w_type w <> RATE_LIMITED ->
  forall st st',
    for_each targets (expand_wallet env from_zero unused generate) st = (Ok tt, st') ->
    In wallet_id targets ->
    lookup_wallet wallet_id st = Some w ->
    let start :=
      start_index from_zero (get_last_derivation_path_for_wallet wallet_id st) in
    (forall i, start <= i < unused + generate ->
               puzzle_for_pk env wallet_id (get_public_key env i) <> None) ->
    forall i, start <= i < unused + generate ->
      exists d, In d (derivation_paths st') /\ dr_index d = i /\ dr_wallet_id d = wallet_id.
Proof.
  intros Hp Hr. induction targets as [|v rest IH]; intros st st' H Hin Hw start Hpk i Hi.
  - destruct Hin.
  - simpl in H. unfold bind in H.
    destruct (expand_wallet env from_zero unused generate v st) as [[[]|e] st1] eqn:E;
      [|discriminate].
    destruct (expand_wallet_returns _ _ _ _ _ _ _ E) as [w' [recs [Hw' [Hloop Hst1]]]].
    destruct (Z.eq_dec v wallet_id) as [->|Hne].
    + (* the iteration of this wallet *)
      rewrite Hw in Hw'. inversion Hw'; subst w'.
      destruct (derive_loop_standard env wallet_id w
                  (seqZ start (unused + generate - start)) [] Hp Hr)
        as [recs' [Hl [Hidx Hid]]].
      { intros j Hj. apply Hpk. apply list_elem_of_In, elem_of_seqZ in Hj. lia. }
      fold start in Hloop. rewrite Hl in Hloop. inversion Hloop; subst recs.
      assert (Hi' : In i (map dr_index recs')).
      { rewrite Hidx. apply list_elem_of_In, elem_of_seqZ. lia. }
      apply in_map_iff in Hi'. destruct Hi' as [d [Hd1 Hd2]].
      exists d. split; [|split; [exact Hd1|]].
      * destruct (for_each_expand_keeps _ _ _ _ _ _ _ H) as [_ [_ Hkeep]].
        apply Hkeep. subst st1. simpl. apply in_or_app. right. exact Hd2.
      * rewrite List.Forall_forall in Hid. apply Hid. exact Hd2.
    + (* the iteration of another wallet *)
      destruct Hin as [Heq|Hin]; [contradiction|].
      destruct (derive_loop_wallet_id _ _ _ _ _ _ Hloop) as [recs0 [Hrecs Hids]].
      simpl in Hrecs. subst recs0.
      assert (Hlast : get_last_derivation_path_for_wallet wallet_id st1
                      = get_last_derivation_path_for_wallet wallet_id st).
      { subst st1. unfold get_last_derivation_path_for_wallet. simpl.
        rewrite filter_app_none; [reflexivity|].
        eapply Forall_impl; [exact Hids|]. intros d Hd. simpl in Hd.
        rewrite Hd. apply Z.eqb_neq. exact Hne. }
      apply (IH st1 st' H Hin).
      * subst st1. exact Hw.
      * rewrite Hlast. exact Hpk.
      * rewrite Hlast. exact Hi.
Qed.

Lemma lookup_wallet_in wallet_id w st :
  lookup_wallet wallet_id st = Some w -> In wallet_id (map fst (wallets st)).
Proof.
  unfold lookup_wallet.
  destruct (List.find (fun p => fst p =? wallet_id) (wallets st)) as [p|] eqn:E;
    [|discriminate].
  intros _. apply find_some in E. destruct E as [Hin Heq].
  apply Z.eqb_eq in Heq. subst wallet_id. apply in_map. exact Hin.
Qed.

(** The empty-database bootstrap: one standard wallet, nothing derived,
    nothing used, eight keys to generate. *)
Lemma create_more_puzzle_hashes_bootstrap env st w :
  derivation_paths st = [] -> last_used st = None ->
  wallets st = [(1, w)] -> w_type w = STANDARD_WALLET ->
  to_generate env st = 8 ->
  (forall i, 0 <= i < 8 -> puzzle_for_pk env 1 (get_public_key env i) <> None) ->
  exists recs,
    create_more_puzzle_hashes env true st
    = (Ok tt,
       set_events (events st ++ [subscribe_to_new_puzzle_hash_ev (map dr_puzzle_hash recs)])
         (set_derivation_paths recs st))
    /\ map dr_index recs = seqZ 0 8.
Proof.
  intros Hd Hu Hw Hty Hgen Hpk.
  destruct (derive_loop_standard env 1 w (seqZ 0 8) []) as [recs [Hl [Hidx _]]].
  { rewrite Hty. discriminate. }
  { rewrite Hty. discriminate. }
  { intros i Hi. apply Hpk. apply list_elem_of_In, elem_of_seqZ in Hi. lia. }
  exists recs. split; [|exact Hidx].
  assert (Hunused : unused_or_last st = 0).
  { unfold unused_or_last, get_unused_derivation_path, get_last_derivation_path.
    rewrite Hd. reflexivity. }
  assert (Hlast : get_last_derivation_path_for_wallet 1 st = None).
  { unfold get_last_derivation_path_for_wallet. rewrite Hd. reflexivity. }
  assert (Hlook : lookup_wallet 1 st = Some w).
  { unfold lookup_wallet. rewrite Hw. reflexivity. }
  unfold create_more_puzzle_hashes.
  unfold bind at 1. unfold gets at 1. rewrite Hw.
  unfold bind at 1. unfold gets at 1. rewrite Hunused.
  unfold bind at 1. unfold gets at 1. rewrite Hgen.
  simpl map. simpl for_each.
  unfold expand_wallet.
  unfold bind at 1. unfold bind at 1. unfold bind at 1. unfold gets at 1.
  rewrite Hlook.
  unfold bind at 1. unfold gets at 1. rewrite Hlast.
  change (start_index true None) with 0. change (0 + 8 - 0) with 8.
  unfold bind at 1. unfold lift at 1. rewrite Hl.
  simpl. rewrite Hd. reflexivity.
Qed.

(** C8 (amended). After [create_more_puzzle_hashes(from_zero)] returns, for
    every wallet of the registry that is neither a pool wallet nor a
    rate-limited one and whose [puzzle_for_pk] gives a puzzle at every index
    of [[start, unused + N)], the derivation index holds a record of that
    wallet for every index of that range. Here [N] is
    [initial_num_public_keys], or [initial_num_public_keys_new_wallet] when
    [new_wallet] is set; [unused] is the first unused index, else the last
    generated one, else 0; and [start] is 0 when [from_zero], else the
    wallet's last generated index plus 1 (0 if it has none). In the
    empty-database bootstrap of such a wallet with [N = 8] the index then
    holds exactly the indices 0..7, [last_used] is not advanced, and the
    eight puzzle hashes are published in one call. *)
Theorem create_more_puzzle_hashes_covers :
  forall env from_zero st st',
    create_more_puzzle_hashes env from_zero st = (Ok tt, st') ->
    let N :=
      if new_wallet st then initial_num_public_keys_new_wallet env
      else initial_num_public_keys env in
    let unused :=
      match get_unused_derivation_path st with
      | Some first_unused => first_unused
      | None =>
          match get_last_derivation_path st with
          | Some last_generated => last_generated
          | None => 0
          end
      end in
    (forall wallet_id w,
       lookup_wallet wallet_id st = Some w ->
       w_type w <> POOLING_WALLET -> w_type w <> RATE_LIMITED ->
       let start :=
         if from_zero then 0
         else match get_last_derivation_path_for_wallet wallet_id st with
              | Some last_generated => last_generated + 1
              | None => 0
              end in
       (forall i, start <= i < unused + N ->
                  puzzle_for_pk env wallet_id (get_public_key env i) <> None) ->
       forall i, start <= i < unused + N ->
         exists d, In d (derivation_paths st')
                   /\ dr_index d = i /\ dr_wallet_id d = wallet_id)
    /\ (forall w,
          derivation_paths st = [] -> last_used st = None ->
          wallets st = [(1, w)] -> w_type w = STANDARD_WALLET ->
          from_zero = true -> N = 8 ->
          (forall i, 0 <= i < 8 -> puzzle_for_pk env 1 (get_public_key env i) <> None) ->
          map dr_index (derivation_paths st') = seqZ 0 8
          /\ last_used st' = None
          /\ exists hashes,
               events st' = events st ++ [subscribe_to_new_puzzle_hash_ev hashes]
               /\ length hashes = 8%nat).
Proof.
  intros env from_zero st st' Hret N unused.
  change N with (to_generate env st). change unused with (unused_or_last st).
  clear N unused. split.
  - intros wallet_id w Hw Hp Hr start.
    change start
      with (start_index from_zero (get_last_derivation_path_for_wallet wallet_id st)).
    clear start. intros Hpk i Hi.
    unfold create_more_puzzle_hashes in Hret.
    unfold bind at 1 in Hret. unfold gets at 1 in Hret.
    unfold bind at 1 in Hret. unfold gets at 1 in Hret.
    unfold bind at 1 in Hret. unfold gets at 1 in Hret.
    unfold bind at 1 in Hret.
    destruct (for_each (map fst (wallets st))
                (expand_wallet env from_zero (unused_or_last st) (to_generate env st)) st)
      as [[[]|e] st1] eqn:Hloop; [|discriminate].
    destruct (for_each_expand_covers env from_zero (unused_or_last st)
                (to_generate env st) wallet_id w (map fst (wallets st)) Hp Hr st st1
                Hloop (lookup_wallet_in _ _ _ Hw) Hw Hpk i Hi) as [d [Hd1 Hd2]].
    exists d. split; [|exact Hd2].
    assert (Hsame : derivation_paths st' = derivation_paths st1).
    { destruct (0 <? unused_or_last st); simpl in Hret; inversion Hret; [|reflexivity].
      destruct (last_used st1); [destruct (_ <? _)|]; reflexivity. }
    rewrite Hsame. exact Hd1.
  - intros w Hd Hu Hw Hty -> Hgen Hpk.
    destruct (create_more_puzzle_hashes_bootstrap env st w Hd Hu Hw Hty Hgen Hpk)
      as [recs [Hrun Hidx]].
    rewrite Hrun in Hret. inversion Hret. simpl.
    split; [exact Hidx|]. split; [exact Hu|].
    exists (map dr_puzzle_hash recs). split; [reflexivity|].
    rewrite length_map, <- (length_map dr_index), Hidx. reflexivity.
Qed.

Lemma create_more_puzzle_hashes_covers_witness :
  map dr_index
    (derivation_paths (snd (create_more_puzzle_hashes ex_plain_env true ex_empty_state)))
  = seqZ 0 8
  /\ last_used (snd (create_more_puzzle_hashes ex_plain_env true ex_empty_state)) = None.
Proof.
  assert (Hret : create_more_puzzle_hashes ex_plain_env true ex_empty_state
                 = (Ok tt, snd (create_more_puzzle_hashes ex_plain_env true
                                  ex_empty_state)))
    by (vm_compute; reflexivity).
  destruct (create_more_puzzle_hashes_covers ex_plain_env true ex_empty_state _ Hret)
    as [_ Hboot].
  destruct (Hboot (mkWalletEntry STANDARD_WALLET no_rl_info)) as [H1 [H2 _]];
    try reflexivity.
  - intros i _. discriminate.
  - split; assumption.
Defined.

(** C8 as stated fails for a wallet whose [puzzle_for_pk] gives no puzzle:
    the loop stops at the first index, the call returns, and the index 0 of
    the range [[0, 8)] has no record. *)
Lemma create_more_puzzle_hashes_without_puzzle :
  lookup_wallet 1 ex_empty_state = Some (mkWalletEntry STANDARD_WALLET no_rl_info)
  /\ fst (create_more_puzzle_hashes ex_no_puzzle_env true ex_empty_state) = Ok tt
  /\ ~ exists d,
         In d (derivation_paths
                 (snd (create_more_puzzle_hashes ex_no_puzzle_env true ex_empty_state)))
         /\ dr_index d = 0 /\ dr_wallet_id d = 1.
Proof.
  split; [|split].
  - reflexivity.
  - vm_compute. reflexivity.
  - intros (d & Hd & _). vm_compute in Hd. exact Hd.
Qed.

(** *** The singleton history engine *)

Section SingletonProperties.

Variable name_of : Coin -> Z.
Variable R : Z.








End SingletonProperties.



(** C7 (amended). [add_state(launcher_id, new_cr)] creates a fresh
    [SingletonInfo] with [latest_state = new_cr] and both windows empty when
    no info exists for the launcher. Otherwise it fails whenever the
    [parent_coin_info] of [new_cr] differs from the coin name of the current
    [latest_state] or a state with the coin name of [new_cr] is already
    present: with [NotChildOfLatest] when only the first holds, with
    [AlreadyExists] when only the second holds, with one of the two when both
    hold; and it succeeds when neither holds. On failure the store is
    unchanged. *)
Theorem add_state_failures :
  forall name_of R launcher_id new_cr st,
    let run := add_state name_of R launcher_id new_cr st in
    (singleton_history st !! launcher_id = None ->
       fst run = None
       /\ singleton_history (snd run) !! launcher_id
          = Some (mkSingletonInfo new_cr None []))
    /\ (forall info,
          singleton_history st !! launcher_id = Some info ->
          let not_child :=
            parent_coin_info (cr_coin new_cr) <> cr_name name_of (latest_state info) in
          let present :=
            state_present name_of (cr_name name_of new_cr) info = true in
          (not_child \/ present ->
             fst run = Some NotChildOfLatest \/ fst run = Some AlreadyExists)
          /\ (not_child -> ~ present -> fst run = Some NotChildOfLatest)
          /\ (present -> ~ not_child -> fst run = Some AlreadyExists)
          /\ (~ not_child -> ~ present -> fst run = None))
    /\ (forall e, fst run = Some e -> snd run = st).
Proof.
  intros name_of R launcher_id new_cr st run. subst run. unfold add_state.
  split; [|split].
  - intros Hnone. rewrite Hnone. simpl. split; [reflexivity|].
    apply lookup_insert_eq.
  - intros info Hinfo. cbv zeta. rewrite Hinfo.
    destruct (parent_coin_info (cr_coin new_cr) =? cr_name name_of (latest_state info))
      eqn:Eparent;
      [apply Z.eqb_eq in Eparent | apply Z.eqb_neq in Eparent];
      destruct (state_present name_of (cr_name name_of new_cr) info) eqn:Epresent;
      simpl; (split; [|split; [|split]]); intros;
      first [ reflexivity | left; reflexivity | right; reflexivity
            | exfalso; intuition congruence ].
  - intros e.
    destruct (singleton_history st !! launcher_id) as [info|]; [|discriminate].
    destruct (negb _); [reflexivity|].
    destruct (state_present name_of (cr_name name_of new_cr) info);
      [reflexivity | discriminate].
Qed.

Lemma add_state_failures_witness :
  fst (add_state ex_coin_name 100 1 ex_stranger ex_singleton_store)
  = Some NotChildOfLatest
  /\ snd (add_state ex_coin_name 100 1 ex_stranger ex_singleton_store)
     = ex_singleton_store.
Proof.
  destruct (add_state_failures ex_coin_name 100 1 ex_stranger ex_singleton_store)
    as [_ [Hfail Hsame]].
  destruct (Hfail (mkSingletonInfo ex_launcher_spend None []))
    as (_ & Horphan & _).
  - vm_compute. reflexivity.
  - assert (H : fst (add_state ex_coin_name 100 1 ex_stranger ex_singleton_store)
                = Some NotChildOfLatest).
    { apply Horphan; vm_compute; discriminate. }
    split; [exact H | exact (Hsame _ H)].
Defined.

(** C7 as stated asks too much where its two conditions overlap. The latest
    state added a second time has a parent that is not the latest state's
    coin name and is a state that is already present: the claim wants that
    one call to fail with [NotChildOfLatest] and with [AlreadyExists], and no
    call fails with both. *)
Lemma add_state_duplicate_of_latest :
  singleton_history ex_singleton_store !! 1
  = Some (mkSingletonInfo ex_launcher_spend None [])
  /\ parent_coin_info (cr_coin ex_launcher_spend)
     <> cr_name ex_coin_name ex_launcher_spend
  /\ state_present ex_coin_name (cr_name ex_coin_name ex_launcher_spend)
       (mkSingletonInfo ex_launcher_spend None []) = true
  /\ ~ (fst (add_state ex_coin_name 100 1 ex_launcher_spend ex_singleton_store)
        = Some NotChildOfLatest
        /\ fst (add_state ex_coin_name 100 1 ex_launcher_spend ex_singleton_store)
           = Some AlreadyExists).
Proof.
  split; [|split; [|split]].
  - vm_compute. reflexivity.
  - vm_compute. discriminate.
  - vm_compute. reflexivity.
  - intros [H1 H2]. rewrite H1 in H2. discriminate H2.
Qed.

(** What the test observes on lines 60 to 65, for every store: a state that
    [add_state] has accepted is refused when it is added again. *)
Lemma add_state_twice_fails name_of R launcher_id new_cr st :
  fst (add_state name_of R launcher_id new_cr st) = None ->
  fst (add_state name_of R launcher_id new_cr
         (snd (add_state name_of R launcher_id new_cr st))) <> None.
Proof.
  intros Hfirst.
  assert (Hlatest : exists info,
             singleton_history (snd (add_state name_of R launcher_id new_cr st))
               !! launcher_id = Some info
             /\ latest_state info = new_cr).
  { unfold add_state in *.
    destruct (singleton_history st !! launcher_id) as [info|].
    - destruct (negb _); [discriminate Hfirst|].
      destruct (state_present name_of (cr_name name_of new_cr) info);
        [discriminate Hfirst|].
      simpl. eexists. split; [apply lookup_insert_eq|].
      unfold shelve. destruct (is_recent R st _); reflexivity.
    - simpl. eexists. split; [apply lookup_insert_eq | reflexivity]. }
  destruct Hlatest as (info & Hinfo & Hlatest).
  unfold add_state at 1. rewrite Hinfo.
  destruct (negb _); [discriminate|].
  unfold state_present. rewrite Hlatest, Z.eqb_refl. simpl. discriminate.
Qed.

(** *** The scenarios of the specification and of the tests *)

(** Scenario 2: a farmer reward is recorded as one coin record flagged as a
    farm reward and one confirmed [FEE_REWARD] transaction of its amount. *)
Example scenario_incoming_reward :
  let st := snd (new_coin_state ex_plain_env
                   [mkCoinState ex_farmer_coin None (Some 100)] None None
                   (ex_state [] [])) in
  coin_store st !! ex_coin_name ex_farmer_coin
  = Some (mkWalletCoinRecord ex_farmer_coin 100 0 false true STANDARD_WALLET 1)
  /\ map (fun t => (tx_type t, tx_amount t, confirmed t, confirmed_at_height t))
       (tx_store st)
     = [(TransactionType_value FEE_REWARD, 250, true, 100)].
Proof. split; vm_compute; reflexivity. Qed.

(** Scenario 4: a coin state batch with fork height 104 and current height
    106 deletes the coin confirmed at 108 and queues again the outgoing
    transaction confirmed at 105. *)
Example scenario_reorg_rollback :
  let st := snd (new_coin_state ex_plain_env [] (Some 104) (Some 106) ex_reorg_state) in
  coin_store st = ∅
  /\ map (fun t => (tx_name t, confirmed t)) (tx_store st) = [(43, false)].
Proof. split; vm_compute; reflexivity. Qed.

(** Scenario 6: the change creates no incoming transaction, and the pending
    transaction is confirmed at the height of the spend. *)
Example scenario_change_detection :
  let st := snd (new_coin_state ex_plain_env ex_change_batch None None
                   ex_balance_state) in
  map (fun t => (tx_name t, tx_type t, confirmed t, confirmed_at_height t)) (tx_store st)
  = [(42, TransactionType_value OUTGOING_TX, true, 12)].
Proof. vm_compute. reflexivity. Qed.

(** A coin found through the interested store (line 594 passes the bare
    [wallet.type()]) whose parent is in the ledger: [coin_added] raises
    [AttributeError] at line 775 and the batch is abandoned with the coin
    not recorded; with a parent the ledger does not hold the coin is recorded. *)
Example scenario_interested_coin :
  fst (new_coin_state ex_plain_env [ex_interested_child] None None
         ex_interested_state)
  = Raise AttributeError
  /\ coin_store (snd (new_coin_state ex_plain_env [ex_interested_child] None None
                        ex_interested_state))
       !! ex_coin_name (cs_coin ex_interested_child) = None
  /\ fst (new_coin_state ex_plain_env [ex_interested_orphan] None None
            ex_interested_state)
     = Ok ([mkWalletCoinRecord (mkCoin 77 555 3) 12 0 false false STANDARD_WALLET 1],
           []).
Proof. split; [|split]; vm_compute; reflexivity. Qed.

(** Scenario 5: at peak 200 the latest state is the one of height 190, the
    last non-recent state the one of height 90 and the recent history has the
    heights 100, ..., 180; after [rollback(150)] the latest state is the one
    of height 150 and no entry is above 150. *)
Example scenario_singleton_window :
  let info := singleton_history ex_scenario_store !! 1 in
  let rolled :=
    singleton_history
      (rollback ex_serial_name 100 ex_scenario_coin_store 150 200 ex_scenario_store)
      !! 1 in
  (confirmed_block_index <$> (latest_state <$> info)) = Some 190
  /\ (fst <$> (info ≫= last_non_recent_state)) = Some 90
  /\ (map fst <$> (recent_history <$> info))
     = Some [100; 110; 120; 130; 140; 150; 160; 170; 180]
  /\ (confirmed_block_index <$> (latest_state <$> rolled)) = Some 150
  /\ (fst <$> (rolled ≫= last_non_recent_state)) = Some 40
  /\ (map fst <$> (recent_history <$> rolled))
     = Some [50; 60; 70; 80; 90; 100; 110; 120; 130; 140].
Proof. repeat split; vm_compute; reflexivity. Qed.

(** [test_basic_singleton_store], lines 60 to 65: the state that was just
    added is refused when it is added again, and stays the latest state. *)
Example test_add_state_twice :
  fst (add_state ex_coin_name 100 1 ex_launcher_spend ex_singleton_store) <> None
  /\ get_latest_coin_record_by_launcher_id 1
       (snd (add_state ex_coin_name 100 1 ex_launcher_spend ex_singleton_store))
     = Some ex_launcher_spend.
Proof. split; [vm_compute; discriminate | vm_compute; reflexivity]. Qed.

(** [test_add_state]: after the nineteen additions the last non-recent state
    is the one of height 100 and the recent history has the eight entries of
    the heights 110, ..., 180. *)
Example test_add_state_windows :
  (get_latest_coin_record_by_launcher_id 1 (fst ex_grown_store)) = Some (snd ex_grown_store)
  /\ (fst <$> (singleton_history (fst ex_grown_store) !! 1 ≫= last_non_recent_state))
     = Some 100
  /\ (map fst <$> (recent_history <$> singleton_history (fst ex_grown_store) !! 1))
     = Some [110; 120; 130; 140; 150; 160; 170; 180].
Proof. split; [|split]; vm_compute; reflexivity. Qed.

(** [test_basic_singleton_store], lines 117 to 138: when the loop ends the
    latest state is the one confirmed at 198, there is a last non-recent
    state and the recent history has between 99 and 110 entries; moving the
    peak without pruning leaves the recent history as it is, and pruning up
    to the peak 349 empties it. *)
Example test_basic_singleton_store_windows :
  (confirmed_block_index <$> get_latest_coin_record_by_launcher_id 1 ex_test_store)
  = Some 198
  /\ is_Some (singleton_history ex_test_store !! 1 ≫= last_non_recent_state)
  /\ (length <$> (recent_history <$> singleton_history ex_test_store !! 1))
     = Some 99%nat
  /\ (recent_history
        <$> singleton_history (set_peak_height 100 300 [] false ex_test_store) !! 1)
     = (recent_history <$> singleton_history ex_test_store !! 1)
  /\ (recent_history <$> singleton_history ex_test_pruned_store !! 1) = Some [].
Proof.
  split; [|split; [|split; [|split]]]; vm_compute;
    first [reflexivity | eexists; reflexivity].
Qed.

(** [test_basic_singleton_store], lines 140 to 156: after [rollback(200)] the
    recent history that pruning had emptied holds [198 - MAX_REORG_SIZE]
    entries; after [rollback(30)] it holds 25 and after [rollback(28)] 23,
    the latest state being the child of its last entry; [rollback(0)] leaves
    no singleton. *)
Example test_basic_singleton_store_rollback :
  let to_200 := rollback ex_serial_name 100 ex_test_coin_store 200 200
                  ex_test_pruned_store in
  let to_30 := rollback ex_serial_name 100 ex_test_coin_store 30 200 to_200 in
  let to_28 := rollback ex_serial_name 100 ex_test_coin_store 28 200 to_30 in
  let to_0 := rollback ex_serial_name 100 ex_test_coin_store 0 200 to_28 in
  (length <$> (recent_history <$> singleton_history to_200 !! 1))
  = Some (Z.to_nat (198 - 100))
  /\ (length <$> (recent_history <$> singleton_history to_30 !! 1)) = Some 25%nat
  /\ (length <$> (recent_history <$> singleton_history to_28 !! 1)) = Some 23%nat
  /\ (parent_coin_info <$> (cr_coin <$> get_latest_coin_record_by_launcher_id 1 to_28))
     = (snd <$> (singleton_history to_28 !! 1 ≫= fun info => last (recent_history info)))
  /\ singleton_history to_0 = ∅.
Proof.
  cbv zeta. split; [|split; [|split; [|split]]]; vm_compute; reflexivity.
Qed.

(* ===================================================================== *)
(** ** Further properties of the manager *)
(* ===================================================================== *)

(** *** The order in which a batch is processed *)

Lemma py_insert_perm {A} (key : A -> option Z) x sorted l' :
  py_insert key x sorted = Ok l' -> Permutation (x :: sorted) l'.
Proof.
  revert l'. induction sorted as [|y rest IH]; intros l' H; simpl in H.
  - inversion H; subst. reflexivity.
  - destruct (py_lt (key y) (key x)) as [[|]|e]; try discriminate.
    + destruct (py_insert key x rest) as [rest'|e] eqn:E; try discriminate.
      inversion H; subst. rewrite perm_swap. constructor. apply IH. reflexivity.
    + inversion H; subst. reflexivity.
Qed.

Lemma py_insert_total {A} (key : A -> option Z) x sorted :
  key x <> None -> Forall (fun y => key y <> None) sorted ->
  exists l', py_insert key x sorted = Ok l'.
Proof.
  intros Hx Hs. induction Hs as [|y rest Hy Hrest IH]; simpl.
  - eexists. reflexivity.
  - destruct (key y) as [ky|] eqn:Ey; [|congruence].
    destruct (key x) as [kx|] eqn:Ex; [|congruence]. simpl.
    destruct (ky <? kx).
    + destruct IH as [l' ->]. eexists. reflexivity.
    + eexists. reflexivity.
Qed.

Lemma created_le_trans a b c : created_le a b -> created_le b c -> created_le a c.
Proof.
  unfold created_le.
  destruct (created_height a), (created_height b), (created_height c);
    try tauto; lia.
Qed.

Lemma py_insert_sorted x sorted l' :
  StronglySorted created_le sorted ->
  py_insert created_height x sorted = Ok l' ->
  StronglySorted created_le l'.
Proof.
  intros Hs. revert l'.
  induction Hs as [|y rest Hrest IH Hy]; intros l' H; simpl in H.
  - inversion H; subst. repeat constructor.
  - destruct (created_height y) as [ky|] eqn:Ey; [|discriminate].
    destruct (created_height x) as [kx|] eqn:Ex; [|discriminate]. simpl in H.
    destruct (ky <? kx) eqn:Hlt.
    + destruct (py_insert created_height x rest) as [rest'|e] eqn:E; try discriminate.
      inversion H; subst. constructor.
      * apply IH. reflexivity.
      * apply List.Forall_forall. intros z Hz.
        destruct (py_insert_in _ _ _ _ _ E Hz) as [->|Hin].
        -- unfold created_le. rewrite Ey, Ex. lia.
        -- rewrite List.Forall_forall in Hy. apply Hy, Hin.
    + inversion H; subst.
      assert (Hxy : created_le x y) by (unfold created_le; rewrite Ey, Ex; lia).
      constructor; [constructor; assumption|].
      constructor; [exact Hxy|].
      apply List.Forall_forall. intros z Hz.
      rewrite List.Forall_forall in Hy.
      apply created_le_trans with y; [exact Hxy | apply Hy, Hz].
Qed.

Lemma py_insert_created_at x sorted l' k :
  py_insert created_height x sorted = Ok l' ->
  created_at k l' = created_at k (x :: sorted).
Proof.
  revert l'. induction sorted as [|y rest IH]; intros l' H; simpl in H.
  - inversion H; subst. reflexivity.
  - destruct (created_height y) as [ky|] eqn:Ey; [|discriminate].
    destruct (created_height x) as [kx|] eqn:Ex; [|discriminate]. simpl in H.
    destruct (ky <? kx) eqn:Hlt.
    + destruct (py_insert created_height x rest) as [rest'|e] eqn:E; try discriminate.
      inversion H; subst.
      specialize (IH _ eq_refl). unfold created_at in *. simpl in *.
      rewrite Ey, Ex in *. rewrite IH.
      destruct (ky =? k) eqn:E1, (kx =? k) eqn:E2; try reflexivity. lia.
    + inversion H; subst. reflexivity.
Qed.

Lemma py_sort_perm {A} (key : A -> option Z) l sorted :
  py_sort key l = Ok sorted -> Permutation l sorted.
Proof.
  revert sorted. induction l as [|x rest IH]; intros sorted H; simpl in H.
  - inversion H. reflexivity.
  - destruct (py_sort key rest) as [sorted'|e] eqn:E; [|discriminate].
    rewrite <- (py_insert_perm _ _ _ _ H). constructor. apply IH. reflexivity.
Qed.

Lemma py_sort_sorted l sorted :
  py_sort created_height l = Ok sorted -> StronglySorted created_le sorted.
Proof.
  revert sorted. induction l as [|x rest IH]; intros sorted H; simpl in H.
  - inversion H. constructor.
  - destruct (py_sort created_height rest) as [sorted'|e] eqn:E; [|discriminate].
    eapply py_insert_sorted; [apply IH; reflexivity | exact H].
Qed.

Lemma py_sort_created_at l sorted k :
  py_sort created_height l = Ok sorted -> created_at k sorted = created_at k l.
Proof.
  revert sorted. induction l as [|x rest IH]; intros sorted H; simpl in H.
  - inversion H. reflexivity.
  - destruct (py_sort created_height rest) as [sorted'|e] eqn:E; [|discriminate].
    rewrite (py_insert_created_at _ _ _ k H).
    unfold created_at in *. simpl. rewrite (IH _ eq_refl). reflexivity.
Qed.

Lemma py_sort_total {A} (key : A -> option Z) l :
  Forall (fun x => key x <> None) l -> exists sorted, py_sort key l = Ok sorted.
Proof.
  intros H. induction H as [|x rest Hx Hrest IH]; simpl.
  - eexists. reflexivity.
  - destruct IH as [sorted E]. rewrite E.
    apply py_insert_total; [exact Hx|].
    apply List.Forall_forall. intros y Hy.
    rewrite List.Forall_forall in Hrest. apply Hrest.
    apply Permutation_in with sorted; [symmetry; eapply py_sort_perm; exact E | exact Hy].
Qed.

(** X1. When every coin state of a batch has a created height, the sort of
    [new_coin_state] succeeds and yields the same coin states in ascending
    order of created height, those of equal height in the order in which the
    batch listed them. *)
Theorem sort_is_stable_and_ascending (coin_states : list CoinState) :
  Forall (fun cs => created_height cs <> None) coin_states ->
  exists sorted,
    py_sort created_height coin_states = Ok sorted
    /\ Permutation coin_states sorted
    /\ StronglySorted created_le sorted
    /\ forall k, created_at k sorted = created_at k coin_states.
Proof.
  intros H. destruct (py_sort_total created_height coin_states H) as [sorted E].
  exists sorted. split; [exact E|]. split; [|split].
  - eapply py_sort_perm, E.
  - eapply py_sort_sorted, E.
  - intros k. apply py_sort_created_at, E.
Qed.

Lemma sort_is_stable_and_ascending_witness :
  exists sorted,
    py_sort created_height ex_unordered_batch = Ok sorted
    /\ Permutation ex_unordered_batch sorted
    /\ StronglySorted created_le sorted
    /\ forall k, created_at k sorted = created_at k ex_unordered_batch.
Proof.
  apply (sort_is_stable_and_ascending ex_unordered_batch).
  repeat constructor; vm_compute; discriminate.
Defined.

(** *** The reward windows *)

Lemma reward_loop_spec parent_of created parent_id (n : nat) (a : Z) :
  reward_loop parent_of created parent_id (seqZ a (Z.of_nat n)) = true
  <-> exists i, a <= i < a + Z.of_nat n /\ 0 <= created - i
                /\ parent_of (created - i) = parent_id.
Proof.
  revert a. induction n as [|n IH]; intros a.
  - simpl. split; [discriminate | intros (i & Hi & _); lia].
  - rewrite seqZ_cons by lia. simpl reward_loop.
    replace (Z.pred (Z.of_nat (S n))) with (Z.of_nat n) by lia.
    destruct (created - a <? 0) eqn:Hneg.
    + split; [discriminate | intros (i & Hi & Hpos & _); lia].
    + destruct (parent_of (created - a) =? parent_id) eqn:Heq.
      * split; [|reflexivity]. intros _. exists a. repeat split; lia.
      * rewrite IH. split.
        -- intros (i & Hi & Hpos & Hp). exists i. repeat split; lia.
        -- intros (i & Hi & Hpos & Hp).
           assert (i <> a) by (intros ->; rewrite Hp in Heq; lia).
           exists i. repeat split; lia.
Qed.

(** X2. [is_farmer_reward] and [is_pool_reward] answer [True] exactly when
    the parent id is the farmer (pool) parent id of one of the thirty heights
    [created_height - 29, ..., created_height] that is not negative. *)
Theorem reward_window env created parent_id :
  (is_farmer_reward env created parent_id = true
   <-> exists h, created - 29 <= h <= created /\ 0 <= h
                 /\ farmer_parent_id env h = parent_id)
  /\ (is_pool_reward env created parent_id = true
      <-> exists h, created - 29 <= h <= created /\ 0 <= h
                    /\ pool_parent_id env h = parent_id).
Proof.
  unfold is_farmer_reward, is_pool_reward.
  change 30 with (Z.of_nat 30).
  split; rewrite reward_loop_spec; split.
  all: try (intros (i & Hi & Hpos & Hp); exists (created - i);
            repeat split; lia).
  all: intros (h & Hh & Hpos & Hp); exists (created - h);
       replace (created - (created - h)) with h by lia;
       repeat split; lia.
Qed.

(** *** The derivation index of a public key *)

Lemma derivation_index_loop_spec env pubkey (n : nat) (a : Z) :
  let r := derivation_index_loop env pubkey (seqZ a (Z.of_nat n)) in
  (r = -1 /\ forall i, a <= i < a + Z.of_nat n -> get_public_key env i <> pubkey)
  \/ (a <= r < a + Z.of_nat n /\ get_public_key env r = pubkey
      /\ forall i, a <= i < r -> get_public_key env i <> pubkey).
Proof.
  revert a. induction n as [|n IH]; intros a; cbv zeta.
  - left. split; [reflexivity | intros i Hi; lia].
  - rewrite seqZ_cons by lia. simpl derivation_index_loop.
    replace (Z.pred (Z.of_nat (S n))) with (Z.of_nat n) by lia.
    destruct (get_public_key env a =? pubkey) eqn:Heq.
    + right. repeat split; lia.
    + destruct (IH (Z.succ a)) as [[Hr Hnone]|(Hr & Hkey & Hleast)].
      * left. split; [exact Hr|]. intros i Hi.
        destruct (decide (i = a)) as [->|Hne]; [lia | apply Hnone; lia].
      * right. split; [lia|]. split; [exact Hkey|]. intros i Hi.
        destruct (decide (i = a)) as [->|Hne]; [lia | apply Hleast; lia].
Qed.

(** X3. [get_derivation_index] returns the least index below 1000 whose
    public key is the one asked for, and -1 exactly when no index below 1000
    has that public key. *)
Theorem get_derivation_index_least env pubkey :
  let r := get_derivation_index env pubkey in
  (r = -1 /\ forall i, 0 <= i < 1000 -> get_public_key env i <> pubkey)
  \/ (0 <= r < 1000 /\ get_public_key env r = pubkey
      /\ forall i, 0 <= i < r -> get_public_key env i <> pubkey).
Proof.
  unfold get_derivation_index. change 1000 with (Z.of_nat 1000) at 1.
  pose proof (derivation_index_loop_spec env pubkey 1000 0) as H.
  cbv zeta in *. replace (0 + Z.of_nat 1000) with 1000 in H by reflexivity.
  exact H.
Qed.

(** *** Balances *)

Lemma uint128_nonneg v : 0 <= v -> v < 2 ^ 128 -> uint128 v = Ok v.
Proof.
  intros H1 H2. unfold uint128, sized_int.
  destruct (0 <=? v) eqn:E1; [|lia]. destruct (v <? 2 ^ 128) eqn:E2; [|lia].
  reflexivity.
Qed.

Lemma uint128_overflow v : 2 ^ 128 <= v -> uint128 v = Raise ValueError.
Proof.
  intros H. unfold uint128, sized_int.
  destruct (v <? 2 ^ 128) eqn:E2; [lia|]. rewrite andb_false_r. reflexivity.
Qed.

Lemma sum_record_amounts_nonneg l :
  Forall (fun r => 0 <= amount (wcr_coin r)) l -> 0 <= sum_record_amounts l.
Proof. induction 1; simpl; lia. Qed.

Lemma confirmed_balance_loop_sum records total :
  0 <= total -> Forall (fun r => 0 <= amount (wcr_coin r)) records ->
  confirmed_balance_loop records total = uint128 (total + sum_record_amounts records).
Proof.
  intros Ht H. revert total Ht.
  induction H as [|r rest Hr Hrest IH]; intros total Ht; simpl.
  - f_equal. lia.
  - pose proof (sum_record_amounts_nonneg _ Hrest) as Hs.
    destruct (Z_lt_le_dec (total + amount (wcr_coin r)) (2 ^ 128)) as [Hlt|Hge].
    + rewrite uint128_nonneg by lia. rewrite IH by lia. f_equal. lia.
    + rewrite uint128_overflow by lia. rewrite uint128_overflow by lia. reflexivity.
Qed.

(** X4. On coin records whose amounts are not negative,
    [get_confirmed_balance_for_wallet] returns the sum of the amounts of the
    records it is given (of the wallet's unspent records when it is given
    none), and raises [ValueError] exactly when that sum does not fit a
    [uint128]. *)
Theorem get_confirmed_balance_is_sum wallet_id unspent_coin_records st :
  let records :=
    match unspent_coin_records with
    | Some records => records
    | None => get_unspent_coins_for_wallet wallet_id st
    end in
  Forall (fun r => 0 <= amount (wcr_coin r)) records ->
  get_confirmed_balance_for_wallet wallet_id unspent_coin_records st
  = uint128 (sum_record_amounts records).
Proof.
  intros records H. unfold get_confirmed_balance_for_wallet.
  fold records. rewrite uint128_nonneg by (try lia; reflexivity).
  rewrite confirmed_balance_loop_sum by (try lia; exact H). reflexivity.
Qed.

Lemma get_confirmed_balance_is_sum_witness :
  get_confirmed_balance_for_wallet 1 None ex_balance_state
  = uint128 (sum_record_amounts (get_unspent_coins_for_wallet 1 ex_balance_state)).
Proof.
  apply (get_confirmed_balance_is_sum 1 None ex_balance_state).
  vm_compute. repeat constructor; discriminate.
Defined.

(** *** Pending removals and spendable coins *)

Lemma removals_fold_value env (p : Coin -> bool) l (acc : gmap Z Coin) k c :
  fold_left (fun acc coin =>
               if p coin then <[coin_name env coin := coin]> acc else acc) l acc
    !! k = Some c ->
  acc !! k = Some c \/ (In c l /\ p c = true /\ coin_name env c = k).
Proof.
  revert acc. induction l as [|x rest IH]; intros acc H; simpl in H.
  - left. exact H.
  - destruct (IH _ H) as [Hacc|(Hin & Hp & Hk)].
    + destruct (p x) eqn:Hpx; [|left; exact Hacc].
      destruct (decide (coin_name env x = k)) as [Heq|Hne].
      * rewrite <- Heq, lookup_insert_eq in Hacc. inversion Hacc; subst.
        right. split; [left; reflexivity | split; [exact Hpx | reflexivity]].
      * rewrite lookup_insert_ne in Hacc by exact Hne. left. exact Hacc.
    + right. split; [right; exact Hin | split; assumption].
Qed.

Lemma removals_fold_keys env (p : Coin -> bool) l (acc : gmap Z Coin) k :
  is_Some (fold_left (fun acc coin =>
                        if p coin then <[coin_name env coin := coin]> acc else acc)
             l acc !! k)
  <-> is_Some (acc !! k)
      \/ exists c, In c l /\ p c = true /\ coin_name env c = k.
Proof.
  revert acc. induction l as [|x rest IH]; intros acc; simpl.
  - split; [intros H; left; exact H | intros [H|(c & [] & _)]; exact H].
  - rewrite IH. split.
    + intros [Hacc|(c & Hin & Hp & Hk)].
      * destruct (p x) eqn:Hpx; [|left; exact Hacc].
        destruct (decide (coin_name env x = k)) as [Heq|Hne].
        -- right. exists x. split; [left; reflexivity | split; assumption].
        -- rewrite lookup_insert_ne in Hacc by exact Hne. left. exact Hacc.
      * right. exists c. split; [right; exact Hin | split; assumption].
    + intros [Hacc|(c & [<-|Hin] & Hp & Hk)].
      * left. destruct (p x); [|exact Hacc].
        destruct (decide (coin_name env x = k)) as [Heq|Hne].
        -- rewrite <- Heq, lookup_insert_eq. eexists. reflexivity.
        -- rewrite lookup_insert_ne by exact Hne. exact Hacc.
      * left. rewrite Hp, <- Hk, lookup_insert_eq. eexists. reflexivity.
      * right. exists c. split; [exact Hin | split; assumption].
Qed.

Lemma removals_of_txs_value env (p : Coin -> bool) txs (acc : gmap Z Coin) k c :
  fold_left (fun acc tx =>
               fold_left (fun acc coin =>
                            if p coin then <[coin_name env coin := coin]> acc else acc)
                 (removals tx) acc) txs acc !! k = Some c ->
  acc !! k = Some c
  \/ exists tx, In tx txs /\ In c (removals tx) /\ p c = true /\ coin_name env c = k.
Proof.
  revert acc. induction txs as [|tx rest IH]; intros acc H; simpl in H.
  - left. exact H.
  - destruct (IH _ H) as [Hacc|(tx' & Hin & Hc)].
    + destruct (removals_fold_value _ _ _ _ _ _ Hacc) as [Hacc'|Hc].
      * left. exact Hacc'.
      * right. exists tx. split; [left; reflexivity | exact Hc].
    + right. exists tx'. split; [right; exact Hin | exact Hc].
Qed.

Lemma removals_of_txs_keys env (p : Coin -> bool) txs (acc : gmap Z Coin) k :
  is_Some (fold_left (fun acc tx =>
                        fold_left (fun acc coin =>
                                     if p coin then <[coin_name env coin := coin]> acc
                                     else acc)
                          (removals tx) acc) txs acc !! k)
  <-> is_Some (acc !! k)
      \/ exists tx c, In tx txs /\ In c (removals tx) /\ p c = true
                      /\ coin_name env c = k.
Proof.
  revert acc. induction txs as [|tx rest IH]; intros acc; simpl.
  - split; [intros H; left; exact H | intros [H|(tx & c & [] & _)]; exact H].
  - rewrite IH, removals_fold_keys. split.
    + intros [[Hacc|(c & Hc)]|(tx' & c & Hin & Hc)].
      * left. exact Hacc.
      * right. exists tx, c. split; [left; reflexivity | exact Hc].
      * right. exists tx', c. split; [right; exact Hin | exact Hc].
    + intros [Hacc|(tx' & c & [<-|Hin] & Hc)].
      * left. left. exact Hacc.
      * left. right. exists c. exact Hc.
      * right. exists tx', c. split; [exact Hin | exact Hc].
Qed.

(** X5. The dictionary of [unconfirmed_removals_for_wallet] maps a coin name
    to a coin of that name taken from the removals of an unconfirmed
    transaction of the wallet, and it has an entry for the name of every such
    removal. *)
Theorem unconfirmed_removals_for_wallet_spec env wallet_id st :
  let pending := unconfirmed_removals_for_wallet env wallet_id st in
  (forall k c, pending !! k = Some c ->
     coin_name env c = k
     /\ exists tx, In tx (get_unconfirmed_for_wallet wallet_id st)
                   /\ In c (removals tx))
  /\ (forall tx c, In tx (get_unconfirmed_for_wallet wallet_id st) ->
        In c (removals tx) -> is_Some (pending !! coin_name env c)).
Proof.
  cbv zeta. unfold unconfirmed_removals_for_wallet, removals_into. split.
  - intros k c H.
    destruct (removals_of_txs_value env (fun _ => true) _ _ _ _ H)
      as [Hempty|(tx & Hin & Hc & _ & Hk)].
    + rewrite lookup_empty in Hempty. discriminate.
    + split; [exact Hk | exists tx; split; assumption].
  - intros tx c Hin Hc.
    apply (removals_of_txs_keys env (fun _ => true)).
    right. exists tx, c. repeat split; assumption.
Qed.

Lemma set_add_in x s r : In r (set_add x s) <-> r = x \/ In r s.
Proof.
  unfold set_add. destruct (decide (x ∈ s)) as [Hx|Hx].
  - apply list_elem_of_In in Hx. split; [intros H; right; exact H|].
    intros [->|H]; assumption.
  - rewrite in_app_iff. simpl. split.
    + intros [H|[<-|[]]]; [right; exact H | left; reflexivity].
    + intros [->|H]; [right; left; reflexivity | left; exact H].
Qed.

Lemma set_add_NoDup x s : List.NoDup s -> List.NoDup (set_add x s).
Proof.
  intros H. unfold set_add. destruct (decide (x ∈ s)) as [Hx|Hx]; [exact H|].
  apply NoDup_ListNoDup. apply NoDup_app. split; [apply NoDup_ListNoDup, H|].
  split; [|apply NoDup_singleton].
  intros y Hy Hy'. apply list_elem_of_singleton in Hy'. subst. contradiction.
Qed.

Lemma set_add_sum x s :
  0 <= amount (wcr_coin x) ->
  sum_record_amounts (set_add x s) <= sum_record_amounts s + amount (wcr_coin x).
Proof.
  intros Hx. unfold set_add. destruct (decide (x ∈ s)) as [_|_]; [lia|].
  induction s as [|y rest IH]; simpl in *; lia.
Qed.

Lemma spendable_loop_in env locked (pending : gmap Z Coin) records filtered r :
  In r (spendable_loop env locked pending records filtered)
  <-> In r filtered
      \/ (In r records /\ locked !! coin_name env (wcr_coin r) = None
          /\ pending !! coin_name env (wcr_coin r) = None).
Proof.
  revert filtered. induction records as [|x rest IH]; intros filtered; simpl.
  - split; [intros H; left; exact H | intros [H|([] & _)]; exact H].
  - destruct (locked !! coin_name env (wcr_coin x)) eqn:Hl;
      [|destruct (pending !! coin_name env (wcr_coin x)) eqn:Hp];
      rewrite IH; try rewrite set_add_in.
    + split; [intros [H|(Hin & H)]; [left; exact H | right; split; [right; exact Hin | exact H]]|].
      intros [H|([<-|Hin] & H1 & H2)]; [left; exact H | congruence |].
      right. split; [exact Hin | split; assumption].
    + split; [intros [H|(Hin & H)]; [left; exact H | right; split; [right; exact Hin | exact H]]|].
      intros [H|([<-|Hin] & H1 & H2)]; [left; exact H | congruence |].
      right. split; [exact Hin | split; assumption].
    + split.
      * intros [[->|H]|(Hin & H)].
        -- right. split; [left; reflexivity | split; assumption].
        -- left. exact H.
        -- right. split; [right; exact Hin | exact H].
      * intros [H|([<-|Hin] & H1 & H2)].
        -- left. right. exact H.
        -- left. left. reflexivity.
        -- right. split; [exact Hin | split; assumption].
Qed.

Lemma spendable_loop_NoDup env locked (pending : gmap Z Coin) records filtered :
  List.NoDup filtered ->
  List.NoDup (spendable_loop env locked pending records filtered).
Proof.
  revert filtered. induction records as [|x rest IH]; intros filtered H; simpl.
  - exact H.
  - destruct (locked !! _); [apply IH, H|].
    destruct (pending !! _); [apply IH, H|]. apply IH, set_add_NoDup, H.
Qed.

Lemma spendable_loop_sum env locked (pending : gmap Z Coin) records filtered :
  Forall (fun r => 0 <= amount (wcr_coin r)) records ->
  sum_record_amounts (spendable_loop env locked pending records filtered)
  <= sum_record_amounts filtered + sum_record_amounts records.
Proof.
  intros H. revert filtered.
  induction H as [|x rest Hx Hrest IH]; intros filtered; simpl.
  - lia.
  - destruct (locked !! _); [specialize (IH filtered); lia|].
    destruct (pending !! _); [specialize (IH filtered); lia|].
    specialize (IH (set_add x filtered)).
    pose proof (set_add_sum x filtered Hx). lia.
Qed.

(** X6. [get_spendable_coins_for_wallet] returns, each once, the records it
    is given (the wallet's unspent records when it is given none) whose coin
    is neither locked by an open offer nor the removal, belonging to the
    wallet, of one of the wallet's unconfirmed transactions. *)
Theorem get_spendable_coins_spec env offer_locked_coins wallet_id records st :
  let given :=
    match records with
    | Some records => records
    | None => get_unspent_coins_for_wallet wallet_id st
    end in
  let spendable :=
    get_spendable_coins_for_wallet env offer_locked_coins wallet_id records st in
  List.NoDup spendable
  /\ forall r, In r spendable <->
       In r given
       /\ offer_locked_coins !! coin_name env (wcr_coin r) = None
       /\ ~ exists tx c, In tx (get_unconfirmed_for_wallet wallet_id st)
                         /\ In c (removals tx)
                         /\ does_coin_belong_to_wallet c wallet_id st = true
                         /\ coin_name env c = coin_name env (wcr_coin r).
Proof.
  cbv zeta. unfold get_spendable_coins_for_wallet. split.
  - apply spendable_loop_NoDup. constructor.
  - intros r. rewrite spendable_loop_in.
    assert (Hkeys : removal_dict env wallet_id st !! coin_name env (wcr_coin r) = None
                    <-> ~ exists tx c, In tx (get_unconfirmed_for_wallet wallet_id st)
                         /\ In c (removals tx)
                         /\ does_coin_belong_to_wallet c wallet_id st = true
                         /\ coin_name env c = coin_name env (wcr_coin r)).
    { rewrite eq_None_not_Some.
      unfold removal_dict, own_removals_into.
      rewrite (removals_of_txs_keys env
                 (fun c => does_coin_belong_to_wallet c wallet_id st)).
      rewrite lookup_empty. split.
      - intros Hn Hex. apply Hn. right. exact Hex.
      - intros Hn [[x Hx]|Hex]; [discriminate | apply Hn, Hex]. }
    rewrite Hkeys. split.
    + intros [[]|H]. exact H.
    + intros H. right. exact H.
Qed.

Lemma spendable_balance_loop_sum records total :
  0 <= total < 2 ^ 128 -> Forall (fun r => 0 <= amount (wcr_coin r)) records ->
  spendable_balance_loop records total = uint128 (total + sum_record_amounts records).
Proof.
  intros Ht H. revert total Ht.
  induction H as [|r rest Hr Hrest IH]; intros total Ht; simpl.
  - rewrite uint128_nonneg by lia. f_equal. lia.
  - pose proof (sum_record_amounts_nonneg _ Hrest) as Hs.
    destruct (Z_lt_le_dec (total + amount (wcr_coin r)) (2 ^ 128)) as [Hlt|Hge].
    + rewrite uint128_nonneg by lia. rewrite IH by lia. f_equal. lia.
    + rewrite uint128_overflow by lia. rewrite uint128_overflow by lia. reflexivity.
Qed.

Lemma uint128_inv v c : uint128 v = Ok c -> c = v /\ 0 <= v < 2 ^ 128.
Proof.
  unfold uint128, sized_int.
  destruct (0 <=? v) eqn:E1, (v <? 2 ^ 128) eqn:E2; simpl; try discriminate.
  intros H. inversion H. lia.
Qed.

(** X7. On coin records whose amounts are not negative, whenever the
    confirmed balance of a wallet can be computed, so can its spendable
    balance, and the spendable balance is the sum of the amounts of the
    spendable coins and never exceeds the confirmed balance. *)
Theorem spendable_balance_at_most_confirmed env offer_locked_coins wallet_id
    records st confirmed_balance :
  let given :=
    match records with
    | Some records => records
    | None => get_unspent_coins_for_wallet wallet_id st
    end in
  Forall (fun r => 0 <= amount (wcr_coin r)) given ->
  get_confirmed_balance_for_wallet wallet_id records st = Ok confirmed_balance ->
  exists spendable_balance,
    get_confirmed_spendable_balance_for_wallet env offer_locked_coins wallet_id
      records st = Ok spendable_balance
    /\ spendable_balance
       = sum_record_amounts
           (get_spendable_coins_for_wallet env offer_locked_coins wallet_id records st)
    /\ 0 <= spendable_balance <= confirmed_balance.
Proof.
  intros given Hpos Hbal.
  unfold get_confirmed_balance_for_wallet in Hbal. fold given in Hbal.
  rewrite uint128_nonneg in Hbal by (try lia; reflexivity).
  rewrite confirmed_balance_loop_sum in Hbal by (try lia; exact Hpos).
  apply uint128_inv in Hbal. destruct Hbal as [-> Hrange].
  unfold get_confirmed_spendable_balance_for_wallet.
  rewrite uint128_nonneg by (try lia; reflexivity).
  assert (Hsub : Forall (fun r => 0 <= amount (wcr_coin r))
                   (get_spendable_coins_for_wallet env offer_locked_coins wallet_id
                      records st)).
  { apply List.Forall_forall. intros r Hr.
    unfold get_spendable_coins_for_wallet in Hr. fold given in Hr.
    apply spendable_loop_in in Hr. destruct Hr as [[]|[Hr _]].
    rewrite List.Forall_forall in Hpos. apply Hpos, Hr. }
  pose proof (sum_record_amounts_nonneg _ Hsub) as Hs.
  assert (Hle : sum_record_amounts
                  (get_spendable_coins_for_wallet env offer_locked_coins wallet_id
                     records st)
                <= sum_record_amounts given).
  { unfold get_spendable_coins_for_wallet. fold given.
    pose proof (spendable_loop_sum env offer_locked_coins
                  (removal_dict env wallet_id st) given [] Hpos) as H.
    simpl in H. exact H. }
  rewrite spendable_balance_loop_sum; [| split; [lia | reflexivity] | exact Hsub].
  rewrite uint128_nonneg by lia.
  eexists. split; [reflexivity|]. split; [simpl; lia | simpl; lia].
Qed.

Lemma spendable_balance_at_most_confirmed_witness :
  exists spendable_balance,
    get_confirmed_spendable_balance_for_wallet ex_plain_env ∅ 1 None ex_balance_state
    = Ok spendable_balance
    /\ spendable_balance
       = sum_record_amounts
           (get_spendable_coins_for_wallet ex_plain_env ∅ 1 None ex_balance_state)
    /\ 0 <= spendable_balance <= 30.
Proof.
  apply (spendable_balance_at_most_confirmed ex_plain_env ∅ 1 None ex_balance_state 30).
  - vm_compute. repeat constructor; discriminate.
  - vm_compute. reflexivity.
Defined.

(** *** What [coin_added] writes *)

Lemma coin_added_coin_store env coin coinbase fee_reward wallet_id wallet_type
    height all_outgoing st change :
  is_change (get_coin_record (parent_coin_info coin) st) wallet_type = Ok change ->
  coin_store (snd (coin_added env coin coinbase fee_reward wallet_id wallet_type
                     height all_outgoing st))
  = <[coin_name env coin :=
        added_coin_record coin coinbase fee_reward wallet_id
          (denoted_type wallet_type) height]>
      (coin_store st).
Proof.
  intros Hchange. rewrite coin_added_run, Hchange. cbv zeta.
  destruct (denoted_type wallet_type); try destruct (lookup_wallet wallet_id st);
    reflexivity.
Qed.

Lemma same_wallet_type_other t r :
  wcr_wallet_type r <> t -> same_wallet_type t r = false.
Proof.
  intros Hne. unfold same_wallet_type. apply Z.eqb_neq. intros Heq. apply Hne.
  destruct t, (wcr_wallet_type r); first [reflexivity | discriminate Heq].
Qed.

Lemma is_change_other_type parent_record wallet_type :
  (forall parent, parent_record = Some parent ->
                  exists t, wallet_type = enum_member t /\ wcr_wallet_type parent <> t) ->
  is_change parent_record wallet_type = Ok false.
Proof.
  intros H. destruct parent_record as [parent|]; [|reflexivity].
  destruct (H parent eq_refl) as (t & -> & Hne). simpl.
  rewrite (same_wallet_type_other _ _ Hne). reflexivity.
Qed.

Lemma is_change_returns parent_record wallet_type :
  (is_Some parent_record -> exists t, wallet_type = enum_member t) ->
  exists change, is_change parent_record wallet_type = Ok change.
Proof.
  intros H. destruct parent_record as [parent|]; [|eexists; reflexivity].
  destruct H as [t ->]; [eexists; reflexivity|]. eexists. reflexivity.
Qed.

(** X8. [coin_added] raises [AttributeError], having written nothing, exactly
    when the parent of the coin is in the ledger and [wallet_type] is a bare
    integer. In every other case it writes the coin record: unspent, at the
    given height, flagged as a farm reward exactly when the coin is a
    coinbase or a fee reward. It then returns that record, unless the wallet
    is a coloured-coin or a DID wallet that [self.wallets] does not hold:
    then it raises [KeyError], after the record is written. *)
Theorem coin_added_writes_the_coin_record env coin coinbase fee_reward wallet_id
    wallet_type height all_outgoing st :
  let run := coin_added env coin coinbase fee_reward wallet_id wallet_type height
               all_outgoing st in
  let record :=
    added_coin_record coin coinbase fee_reward wallet_id (denoted_type wallet_type)
      height in
  (fst run = Raise AttributeError
   <-> is_Some (get_coin_record (parent_coin_info coin) st)
       /\ exists t, wallet_type = bare_int t)
  /\ (fst run = Raise AttributeError -> snd run = st)
  /\ (fst run <> Raise AttributeError ->
      coin_store (snd run) = <[coin_name env coin := record]> (coin_store st)
      /\ (fst run = Ok record \/ fst run = Raise KeyError)
      /\ (fst run = Raise KeyError
          <-> (denoted_type wallet_type = COLOURED_COIN
               \/ denoted_type wallet_type = DISTRIBUTED_ID)
              /\ lookup_wallet wallet_id st = None)).
Proof.
  cbv zeta. rewrite coin_added_run. cbv zeta.
  destruct (get_coin_record (parent_coin_info coin) st) as [parent|];
    destruct wallet_type as [t|t]; cbn [is_change denoted_type].
  2: { split; [|split].
       - split; [|reflexivity]. intros _. split; eexists; reflexivity.
       - reflexivity.
       - intros H. exfalso. apply H. reflexivity. }
  all: destruct t; try destruct (lookup_wallet wallet_id st) eqn:Hw; cbn [fst snd].
  all: split;
    [ split;
      [ intros H; discriminate H
      | intros [Hs [t' Ht']];
        first [discriminate Ht' | destruct Hs as [x Hx]; discriminate Hx] ]
    | ].
  all: split; [intros H; discriminate H|].
  all: intros _; split; [reflexivity|].
  all: split; [first [left; reflexivity | right; reflexivity]|].
  all: split;
    [ intros H; first [discriminate H | split; [auto | reflexivity]]
    | intros [[H|H] H']; first [discriminate H | discriminate H' | reflexivity] ].
Qed.

(** X9. For a coinbase or fee-reward coin that is not change (its parent is
    not in the ledger, or [wallet_type] is a member of [WalletType] other
    than the parent's), [coin_added] enters a confirmed reward transaction
    named after the coin, in place of any transaction of that name: of type
    [COINBASE_REWARD] for a coinbase, [FEE_REWARD] otherwise. *)
Theorem coin_added_reward_transaction env coin coinbase fee_reward wallet_id
    wallet_type height all_outgoing st :
  coinbase || fee_reward = true ->
  (forall parent,
     get_coin_record (parent_coin_info coin) st = Some parent ->
     exists t, wallet_type = enum_member t /\ wcr_wallet_type parent <> t) ->
  tx_store (snd (coin_added env coin coinbase fee_reward wallet_id wallet_type
                   height all_outgoing st))
  = tx_store_add (reward_tx env coin coinbase wallet_id height) (tx_store st).
Proof.
  intros Hreward Hchange. apply is_change_other_type in Hchange.
  rewrite coin_added_run, Hchange. cbv zeta.
  rewrite Hreward.
  destruct (denoted_type wallet_type); try destruct (lookup_wallet wallet_id st);
    reflexivity.
Qed.

Lemma coin_added_reward_transaction_witness :
  tx_store (snd (coin_added ex_plain_env ex_farmer_coin false true 1
                   (enum_member STANDARD_WALLET) 100 [] (ex_state [] [])))
  = tx_store_add (reward_tx ex_plain_env ex_farmer_coin false 1 100)
      (tx_store (ex_state [] [])).
Proof.
  apply (coin_added_reward_transaction ex_plain_env ex_farmer_coin false true 1
           (enum_member STANDARD_WALLET) 100 [] (ex_state [] [])).
  - reflexivity.
  - intros parent Hparent. vm_compute in Hparent. discriminate Hparent.
Defined.



Lemma set_confirmed_confirms n height l t :
  In t (tx_store_set_confirmed n height l) -> tx_name t = n ->
  confirmed t = true /\ confirmed_at_height t = height.
Proof.
  unfold tx_store_set_confirmed. rewrite in_map_iff.
  intros (t0 & Ht & _) Hn. destruct (tx_name t0 =? n) eqn:E.
  - subst t. split; reflexivity.
  - subst t. lia.
Qed.

Lemma set_confirmed_keeps_confirmed n n' height l :
  (forall t, In t l -> tx_name t = n ->
             confirmed t = true /\ confirmed_at_height t = height) ->
  forall t, In t (tx_store_set_confirmed n' height l) -> tx_name t = n ->
            confirmed t = true /\ confirmed_at_height t = height.
Proof.
  intros H t Ht Hn. unfold tx_store_set_confirmed in Ht. rewrite in_map_iff in Ht.
  destruct Ht as (t0 & Ht & Hin). destruct (tx_name t0 =? n').
  - subst t. split; reflexivity.
  - subst t. apply H; assumption.
Qed.

Lemma confirm_fold_confirms records height l r :
  In r records -> confirmed r = false ->
  forall t,
    In t (fold_left (fun txs record =>
                       if confirmed record then txs
                       else tx_store_set_confirmed (tx_name record) height txs)
            records l) ->
    tx_name t = tx_name r ->
    confirmed t = true /\ confirmed_at_height t = height.
Proof.
  intros Hin Hr.
  assert (Hkeep : forall records l,
            (forall t, In t l -> tx_name t = tx_name r ->
                       confirmed t = true /\ confirmed_at_height t = height) ->
            forall t,
              In t (fold_left (fun txs record =>
                                 if confirmed record then txs
                                 else tx_store_set_confirmed (tx_name record) height txs)
                      records l) ->
              tx_name t = tx_name r ->
              confirmed t = true /\ confirmed_at_height t = height).
  { clear. induction records as [|x rest IH]; intros l H; simpl; [exact H|].
    apply IH. destruct (confirmed x); [exact H|].
    apply set_confirmed_keeps_confirmed, H. }
  revert l. induction records as [|x rest IH]; intros l; [destruct Hin|].
  simpl. destruct Hin as [->|Hin].
  - rewrite Hr. apply Hkeep. intros t Ht Hn.
    eapply set_confirmed_confirms; eassumption.
  - apply IH, Hin.
Qed.

(** X11. When the coin is not a reward, outgoing transactions of the wallet
    list it among their additions, and the change test does not raise (the
    parent is not in the ledger, or [wallet_type] is a member of
    [WalletType]), [coin_added] creates no transaction: the ledger keeps its
    records, name by name and type by type, and every record named like a
    listing transaction that was passed in as unconfirmed is confirmed at the
    height of the coin. *)
Theorem coin_added_confirms_outgoing env coin wallet_id wallet_type height
    all_outgoing st :
  (is_Some (get_coin_record (parent_coin_info coin) st) ->
   exists t, wallet_type = enum_member t) ->
  matching_outgoing env coin all_outgoing <> [] ->
  let st' := snd (coin_added env coin false false wallet_id wallet_type height
                    all_outgoing st) in
  map tx_shape (tx_store st') = map tx_shape (tx_store st)
  /\ forall r t,
       In r (matching_outgoing env coin all_outgoing) -> confirmed r = false ->
       In t (tx_store st') -> tx_name t = tx_name r ->
       confirmed t = true /\ confirmed_at_height t = height.
Proof.
  intros Hchange Hmatch. cbv zeta.
  apply is_change_returns in Hchange. destruct Hchange as [change Hchange].
  assert (Hst : tx_store (snd (coin_added env coin false false wallet_id wallet_type
                                 height all_outgoing st))
                = fold_left (fun txs record =>
                               if confirmed record then txs
                               else tx_store_set_confirmed (tx_name record) height txs)
                    (matching_outgoing env coin all_outgoing) (tx_store st)).
  { rewrite coin_added_run, Hchange. cbv zeta. simpl orb. cbv iota.
    destruct (matching_outgoing env coin all_outgoing) as [|r0 records] eqn:E;
      [congruence|].
    destruct (denoted_type wallet_type); try destruct (lookup_wallet wallet_id st);
      reflexivity. }
  rewrite Hst. split.
  - apply confirm_fold_shape.
  - intros r t Hr Hc Ht Hn.
    exact (confirm_fold_confirms _ height (tx_store st) r Hr Hc t Ht Hn).
Qed.

Lemma coin_added_confirms_outgoing_witness :
  let st' := snd (coin_added ex_plain_env (mkCoin 9 111 3) false false 1
                    (enum_member STANDARD_WALLET) 12 (tx_store ex_balance_state)
                    ex_balance_state) in
  map tx_shape (tx_store st') = map tx_shape (tx_store ex_balance_state)
  /\ forall r t,
       In r (matching_outgoing ex_plain_env (mkCoin 9 111 3)
               (tx_store ex_balance_state)) ->
       confirmed r = false ->
       In t (tx_store st') -> tx_name t = tx_name r ->
       confirmed t = true /\ confirmed_at_height t = 12.
Proof.
  apply (coin_added_confirms_outgoing ex_plain_env (mkCoin 9 111 3) 1
           (enum_member STANDARD_WALLET) 12 (tx_store ex_balance_state)
           ex_balance_state).
  - intros _. exists STANDARD_WALLET. reflexivity.
  - vm_compute. discriminate.
Defined.

(** *** What [new_coin_state] returns and what it leaves alone *)

Lemma bind_ok_inv {A B} (m : M A) (k : A -> M B) st b st' :
  bind m k st = (Ok b, st') ->
  exists a st1, m st = (Ok a, st1) /\ k a st1 = (Ok b, st').
Proof.
  unfold bind. destruct (m st) as [[a|e] st1]; [|discriminate].
  intros H. exists a, st1. split; [reflexivity | exact H].
Qed.

Tactic Notation "bind_inv" hyp(H) "as" ident(a) ident(s) ident(H1) :=
  apply bind_ok_inv in H; destruct H as (a & s & H1 & H).

Lemma coin_added_result env coin coinbase fee_reward wallet_id wallet_type height
    all_outgoing st r st' :
  coin_added env coin coinbase fee_reward wallet_id wallet_type height all_outgoing st
  = (Ok r, st') ->
  r = added_coin_record coin coinbase fee_reward wallet_id (denoted_type wallet_type)
        height.
Proof.
  rewrite coin_added_run. cbv zeta.
  destruct (is_change _ wallet_type); [|discriminate].
  destruct (denoted_type wallet_type); try destruct (lookup_wallet wallet_id st);
    intros H; inversion H; reflexivity.
Qed.

(** What one round of the loop of [new_coin_state] appends to [added] and to
    [removed] when it returns. *)
Lemma coin_state_body_lists env all_unconfirmed loc cs st loc' st' :
  coin_state_body env all_unconfirmed loc cs st = (Ok loc', st') ->
  removed loc' = removed loc ++ (if created_and_spent cs then [cs] else [])
  /\ (added loc' = added loc
      \/ exists created coinbase fee_reward wallet_id wallet_type,
           created_height cs = Some created /\ spent_height cs = None
           /\ added loc'
              = added loc ++ [added_coin_record (cs_coin cs) coinbase fee_reward
                                wallet_id wallet_type created]).
Proof.
  intros H. unfold coin_state_body in H.
  bind_inv H as u1 s1 H1. bind_inv H as info s2 H2. bind_inv H as interested s3 H3.
  unfold created_and_spent.
  destruct (created_height cs) as [created|] eqn:Ec.
  - destruct (spent_height cs) as [spent|] eqn:Es.
    + unfold spent_case in H.
      bind_inv H as record s4 H4. bind_inv H as u2 s5 H5. bind_inv H as u3 s6 H6.
      inversion H; subst. split; [|left].
      * destruct (existsb _ _); reflexivity.
      * destruct (existsb _ _); reflexivity.
    + unfold created_case in H. bind_inv H as resolved s4 H4.
      set (loc0 := if existsb (Z.eqb (coin_name env (cs_coin cs))) (trade_additions env)
                   then push_trade_add cs loc else loc) in *.
      assert (Hloc0 : added loc0 = added loc /\ removed loc0 = removed loc).
      { subst loc0. destruct (existsb _ _); split; reflexivity. }
      destruct Hloc0 as [Ha0 Hr0].
      destruct resolved as [[wallet_id wallet_type]|].
      * bind_inv H as cached s5 H5. bind_inv H as record s6 H6.
        bind_inv H as index s7 H7. bind_inv H as u2 s8 H8.
        inversion H; subst. clear H.
        assert (Hcached : added (snd cached) = added loc0
                          /\ removed (snd cached) = removed loc0).
        { destruct (cached_outgoing wallet_id loc0).
          - inversion H5; subst. split; reflexivity.
          - bind_inv H5 as all s9 H9. inversion H5; subst. split; reflexivity. }
        destruct Hcached as [Ha Hr].
        apply coin_added_result in H6. subst record.
        simpl. rewrite Hr, Hr0, Ha, Ha0, app_nil_r. split; [reflexivity|].
        right. do 5 eexists. split; [reflexivity|]. split; reflexivity.
      * inversion H; subst. rewrite Hr0, Ha0, app_nil_r.
        split; [reflexivity | left; reflexivity].
  - inversion H; subst. rewrite app_nil_r. split; [reflexivity | left; reflexivity].
Qed.

Lemma fold_body_lists env all_unconfirmed l loc st loc' st' :
  fold_each l (coin_state_body env all_unconfirmed) loc st = (Ok loc', st') ->
  removed loc' = removed loc ++ List.filter created_and_spent l
  /\ forall r, In r (added loc') ->
       In r (added loc)
       \/ exists cs, In cs l /\ created_height cs = Some (confirmed_height r)
                     /\ spent_height cs = None /\ wcr_coin r = cs_coin cs
                     /\ wcr_spent_height r = 0.
Proof.
  revert loc st. induction l as [|cs rest IH]; intros loc st H; simpl in H.
  - inversion H; subst. simpl. rewrite app_nil_r. split; [reflexivity|]. intros r Hr. left. exact Hr.
  - bind_inv H as loc1 s1 Hrun.
    destruct (coin_state_body_lists _ _ _ _ _ _ _ Hrun) as [Hrem Hadd].
    destruct (IH _ _ H) as [Hrem' Hadd']. split.
    + rewrite Hrem', Hrem. simpl. destruct (created_and_spent cs); simpl;
        rewrite <- app_assoc; reflexivity.
    + intros r Hr. destruct (Hadd' r Hr) as [Hin|(cs' & Hin & Hcs')].
      * destruct Hadd as [Heq|(created & cb & fr & wid & wt & Hc & Hs & Heq)].
        -- left. rewrite <- Heq. exact Hin.
        -- rewrite Heq in Hin. apply in_app_iff in Hin. destruct Hin as [Hin|[<-|[]]].
           ++ left. exact Hin.
           ++ right. exists cs. split; [left; reflexivity|]. simpl.
              repeat split; assumption.
      * right. exists cs'. split; [right; exact Hin | exact Hcs'].
Qed.

Lemma for_each_emit_returns {A} (l : list A) (f : A -> Event) st :
  for_each l (fun x => emit (f x)) st
  = (Ok tt, set_events (events st ++ map f l) st).
Proof.
  revert st. induction l as [|x rest IH]; intros st; simpl.
  - rewrite app_nil_r. destruct st; reflexivity.
  - unfold bind. unfold emit at 1. unfold modify at 1. rewrite IH.
    destruct st; simpl. rewrite <- app_assoc. reflexivity.
Qed.

Lemma new_coin_state_inv env coin_states fork_height current_height st
    added_records removed_states st' :
  new_coin_state env coin_states fork_height current_height st
  = (Ok (added_records, removed_states), st') ->
  exists sorted loc st1 st2,
    py_sort created_height coin_states = Ok sorted
    /\ fold_each sorted (coin_state_body env (get_all_unconfirmed st)) empty_locals st1
       = (Ok loc, st2)
    /\ added_records = added loc /\ removed_states = removed loc.
Proof.
  intros H. unfold new_coin_state in H.
  bind_inv H as sorted s1 H1. bind_inv H as all s2 H2. bind_inv H as u1 s3 H3.
  bind_inv H as loc s4 H4. bind_inv H as u2 s5 H5. bind_inv H as u3 s6 H6.
  unfold lift in H1. inversion H1; subst.
  unfold gets in H2. inversion H2; subst.
  inversion H; subst.
  exists sorted, loc, s3, s4. repeat split; try reflexivity; assumption.
Qed.

Lemma filter_sorted {A} (R : A -> A -> Prop) (p : A -> bool) l :
  StronglySorted R l -> StronglySorted R (List.filter p l).
Proof.
  induction 1 as [|x l Hl IH Hx]; simpl; [constructor|].
  destruct (p x); [|exact IH]. constructor; [exact IH|].
  apply List.Forall_forall. intros y Hy. apply List.filter_In in Hy.
  rewrite List.Forall_forall in Hx. apply Hx, Hy.
Qed.

Lemma filter_perm {A} (p : A -> bool) l l' :
  Permutation l l' -> Permutation (List.filter p l) (List.filter p l').
Proof.
  induction 1 as [|x l l' H IH|x y l|l l' l'' H1 IH1 H2 IH2]; simpl.
  - constructor.
  - destruct (p x); [constructor|]; exact IH.
  - destruct (p x), (p y); try reflexivity. apply perm_swap.
  - etransitivity; eassumption.
Qed.

Lemma created_at_filter p k l :
  created_at k (List.filter p l) = List.filter p (created_at k l).
Proof.
  unfold created_at. induction l as [|x rest IH]; simpl; [reflexivity|].
  destruct (p x) eqn:Hp; simpl;
    destruct (match created_height x with Some x0 => x0 =? k | None => false end);
    simpl; rewrite ?Hp, IH; reflexivity.
Qed.

(** X12. When [new_coin_state] returns, its second result [removed] lists
    exactly the coin states of the batch that carry both a created and a
    spent height: each of them once, in ascending order of created height,
    those of equal created height in the order of the batch. *)
Theorem new_coin_state_removed env coin_states fork_height current_height st
    added_records removed_states st' :
  new_coin_state env coin_states fork_height current_height st
  = (Ok (added_records, removed_states), st') ->
  Permutation (List.filter created_and_spent coin_states) removed_states
  /\ StronglySorted created_le removed_states
  /\ forall k, created_at k removed_states
               = created_at k (List.filter created_and_spent coin_states).
Proof.
  intros H. apply new_coin_state_inv in H.
  destruct H as (sorted & loc & st1 & st2 & Hsort & Hfold & _ & ->).
  apply fold_body_lists in Hfold. destruct Hfold as [-> _]. simpl.
  split; [|split].
  - apply filter_perm. eapply py_sort_perm, Hsort.
  - apply filter_sorted. eapply py_sort_sorted, Hsort.
  - intros k. rewrite !created_at_filter. f_equal. apply py_sort_created_at, Hsort.
Qed.

(** X13. When [new_coin_state] returns, every record of its first result
    [added] is the unspent record of a coin state of the batch that is
    created and not spent: it has the coin of that coin state and is
    confirmed at its created height. *)
Theorem new_coin_state_added env coin_states fork_height current_height st
    added_records removed_states st' :
  new_coin_state env coin_states fork_height current_height st
  = (Ok (added_records, removed_states), st') ->
  forall r, In r added_records ->
    exists cs, In cs coin_states
               /\ created_height cs = Some (confirmed_height r)
               /\ spent_height cs = None
               /\ wcr_coin r = cs_coin cs
               /\ wcr_spent_height r = 0.
Proof.
  intros H r Hr. apply new_coin_state_inv in H.
  destruct H as (sorted & loc & st1 & st2 & Hsort & Hfold & -> & _).
  apply fold_body_lists in Hfold. destruct Hfold as [_ Hadd].
  destruct (Hadd r Hr) as [[]|(cs & Hin & Hcs)].
  exists cs. split; [|exact Hcs].
  apply Permutation_in with sorted; [symmetry; eapply py_sort_perm, Hsort | exact Hin].
Qed.

Lemma new_coin_state_removed_witness :
  Permutation (List.filter created_and_spent ex_change_batch)
    [mkCoinState (mkCoin 1 110 10) (Some 12) (Some 5)]
  /\ StronglySorted created_le [mkCoinState (mkCoin 1 110 10) (Some 12) (Some 5)]
  /\ forall k, created_at k [mkCoinState (mkCoin 1 110 10) (Some 12) (Some 5)]
               = created_at k (List.filter created_and_spent ex_change_batch).
Proof.
  apply (new_coin_state_removed ex_plain_env ex_change_batch None None
           ex_balance_state
           [mkWalletCoinRecord (mkCoin 9 111 3) 12 0 false false STANDARD_WALLET 1]
           [mkCoinState (mkCoin 1 110 10) (Some 12) (Some 5)]
           (snd (new_coin_state ex_plain_env ex_change_batch None None
                   ex_balance_state))).
  vm_compute. reflexivity.
Defined.

Lemma new_coin_state_added_witness :
  exists cs,
    In cs ex_change_batch
    /\ created_height cs
       = Some (confirmed_height
                 (mkWalletCoinRecord (mkCoin 9 111 3) 12 0 false false STANDARD_WALLET 1))
    /\ spent_height cs = None
    /\ wcr_coin (mkWalletCoinRecord (mkCoin 9 111 3) 12 0 false false STANDARD_WALLET 1)
       = cs_coin cs
    /\ wcr_spent_height
         (mkWalletCoinRecord (mkCoin 9 111 3) 12 0 false false STANDARD_WALLET 1) = 0.
Proof.
  apply (new_coin_state_added ex_plain_env ex_change_batch None None
           ex_balance_state
           [mkWalletCoinRecord (mkCoin 9 111 3) 12 0 false false STANDARD_WALLET 1]
           [mkCoinState (mkCoin 1 110 10) (Some 12) (Some 5)]
           (snd (new_coin_state ex_plain_env ex_change_batch None None
                   ex_balance_state))).
  - vm_compute. reflexivity.
  - left. reflexivity.
Defined.

Lemma set_events_twice evs evs' st :
  set_events evs' (set_events evs st) = set_events evs' st.
Proof. destruct st; reflexivity. Qed.

Lemma coin_state_body_foreign env all_unconfirmed loc cs st created :
  created_height cs = Some created ->
  spent_height cs = None ->
  wallet_info_for_puzzle_hash (puzzle_hash (cs_coin cs)) st = None ->
  get_interested_puzzle_hash_wallet_id (puzzle_hash (cs_coin cs)) st = None ->
  coin_state_body env all_unconfirmed loc cs st
  = (Ok (if existsb (Z.eqb (coin_name env (cs_coin cs))) (trade_additions env)
         then push_trade_add cs loc else loc),
     set_events (events st ++ [coin_state_ev cs]) st).
Proof.
  intros Hc Hs Hinfo Hint. unfold coin_state_body.
  unfold bind at 1. unfold emit at 1. unfold modify at 1.
  unfold bind at 1. unfold gets at 1.
  change (wallet_info_for_puzzle_hash (puzzle_hash (cs_coin cs))
            (set_events (events st ++ [coin_state_ev cs]) st))
    with (wallet_info_for_puzzle_hash (puzzle_hash (cs_coin cs)) st).
  rewrite Hinfo.
  unfold bind at 1. unfold gets at 1.
  change (get_interested_puzzle_hash_wallet_id (puzzle_hash (cs_coin cs))
            (set_events (events st ++ [coin_state_ev cs]) st))
    with (get_interested_puzzle_hash_wallet_id (puzzle_hash (cs_coin cs)) st).
  rewrite Hint, Hc, Hs. unfold created_case. reflexivity.
Qed.

Lemma fold_body_foreign env all_unconfirmed l st :
  Forall (fun cs =>
            created_height cs <> None /\ spent_height cs = None
            /\ wallet_info_for_puzzle_hash (puzzle_hash (cs_coin cs)) st = None
            /\ get_interested_puzzle_hash_wallet_id (puzzle_hash (cs_coin cs)) st
               = None) l ->
  forall loc evs,
  exists loc',
    fold_each l (coin_state_body env all_unconfirmed) loc (set_events evs st)
    = (Ok loc', set_events (evs ++ map coin_state_ev l) st)
    /\ added loc' = added loc /\ removed loc' = removed loc.
Proof.
  induction 1 as [|cs rest (Hc & Hs & Hinfo & Hint) Hrest IH]; intros loc evs.
  - exists loc. simpl. rewrite app_nil_r. repeat split; reflexivity.
  - destruct (created_height cs) as [created|] eqn:Ec; [|congruence].
    simpl fold_each. unfold bind.
    rewrite (coin_state_body_foreign env all_unconfirmed loc cs (set_events evs st)
               created Ec Hs Hinfo Hint).
    rewrite set_events_twice.
    replace (events (set_events evs st)) with evs by (destruct st; reflexivity).
    destruct (IH (if existsb (Z.eqb (coin_name env (cs_coin cs))) (trade_additions env)
                  then push_trade_add cs loc else loc)
                 (evs ++ [coin_state_ev cs])) as (loc' & Hrun & Ha & Hr).
    exists loc'. rewrite Hrun. simpl map. rewrite <- app_assoc. simpl.
    split; [reflexivity|].
    rewrite Ha, Hr. destruct (existsb _ _); split; reflexivity.
Qed.

Lemma set_events_same st : set_events (events st) st = st.
Proof. destruct st; reflexivity. Qed.

(** X14. A batch, with no fork height, of coin states that are created and
    not spent and whose puzzle hashes are neither in the derivation index nor
    in the interested store is dropped: [new_coin_state] returns two empty
    lists and leaves the coin ledger, the transaction ledger and the
    derivation index as they are (it only notifies its observers). *)
Theorem new_coin_state_drops_foreign_coins env coin_states current_height st :
  Forall (fun cs =>
            created_height cs <> None /\ spent_height cs = None
            /\ wallet_info_for_puzzle_hash (puzzle_hash (cs_coin cs)) st = None
            /\ get_interested_puzzle_hash_wallet_id (puzzle_hash (cs_coin cs)) st
               = None) coin_states ->
  exists evs,
    new_coin_state env coin_states None current_height st
    = (Ok ([], []), set_events (events st ++ evs) st).
Proof.
  intros H.
  assert (Hkeys : Forall (fun cs => created_height cs <> None) coin_states).
  { eapply List.Forall_impl; [|exact H]. intros cs Hcs. apply Hcs. }
  destruct (py_sort_total created_height coin_states Hkeys) as [sorted Hsort].
  assert (Hsorted : Forall (fun cs =>
            created_height cs <> None /\ spent_height cs = None
            /\ wallet_info_for_puzzle_hash (puzzle_hash (cs_coin cs)) st = None
            /\ get_interested_puzzle_hash_wallet_id (puzzle_hash (cs_coin cs)) st
               = None) sorted).
  { apply List.Forall_forall. intros cs Hcs. rewrite List.Forall_forall in H.
    apply H. apply Permutation_in with sorted;
               [symmetry; eapply py_sort_perm, Hsort | exact Hcs]. }
  destruct (fold_body_foreign env (get_all_unconfirmed st) sorted st Hsorted
              empty_locals (events st)) as (loc & Hrun & Ha & Hr).
  rewrite set_events_same in Hrun.
  unfold new_coin_state. unfold bind at 1. unfold lift at 1. rewrite Hsort.
  unfold bind at 1. unfold gets at 1.
  unfold bind at 1. unfold maybe_rollback, ret at 1.
  unfold bind at 1. rewrite Hrun.
  unfold bind at 1. rewrite for_each_emit_returns.
  unfold bind at 1. rewrite for_each_emit_returns.
  exists (map coin_state_ev sorted
          ++ map (fun cs => coins_of_interest_farmed_ev cs) (trade_adds loc)
          ++ map (fun cs => coins_of_interest_farmed_ev cs) (trade_coin_removed loc)).
  unfold ret. rewrite Ha, Hr. destruct st; simpl. rewrite <- ?app_assoc. reflexivity.
Qed.

Lemma new_coin_state_drops_foreign_coins_witness :
  exists evs,
    new_coin_state ex_plain_env [mkCoinState (mkCoin 5 999 4) None (Some 7)] None None
      ex_balance_state
    = (Ok ([], []), set_events (events ex_balance_state ++ evs) ex_balance_state).
Proof.
  apply (new_coin_state_drops_foreign_coins ex_plain_env
           [mkCoinState (mkCoin 5 999 4) None (Some 7)] None ex_balance_state).
  repeat constructor; vm_compute; try reflexivity; discriminate.
Defined.

(** X15. A batch that consists of one coin state without a created height (a
    coin that a reorg removed) is accepted and ignored: [new_coin_state]
    returns two empty lists and changes no store, so a record that the coin
    ledger holds for that coin stays as it is. *)
Theorem new_coin_state_ignores_reorged_coin env cs current_height st :
  created_height cs = None ->
  new_coin_state env [cs] None current_height st
  = (Ok ([], []), set_events (events st ++ [coin_state_ev cs]) st).
Proof.
  intros Hc. unfold new_coin_state. simpl py_sort.
  unfold bind at 1. unfold lift at 1.
  unfold bind at 1. unfold gets at 1.
  unfold bind at 1. unfold maybe_rollback, ret at 1.
  simpl fold_each. unfold coin_state_body. rewrite Hc.
  unfold bind, emit, modify, gets, ret. simpl.
  destruct st; reflexivity.
Qed.

Lemma new_coin_state_ignores_reorged_coin_witness :
  new_coin_state ex_plain_env [mkCoinState (mkCoin 1 110 10) None None] None None
    ex_balance_state
  = (Ok ([], []),
     set_events (events ex_balance_state
                 ++ [coin_state_ev (mkCoinState (mkCoin 1 110 10) None None)])
       ex_balance_state).
Proof.
  apply (new_coin_state_ignores_reorged_coin ex_plain_env
           (mkCoinState (mkCoin 1 110 10) None None) None ex_balance_state).
  reflexivity.
Defined.

(** *** Spending a coin of the ledger *)

Lemma confirmed_stable_refl (name spent : Z) st :
  (forall t, In t (tx_store st) -> tx_name t = name ->
             confirmed t = true /\ confirmed_at_height t = spent) ->
  forall t, In t (tx_store st) -> tx_name t = name ->
            confirmed t = true /\ confirmed_at_height t = spent.
Proof. intros H. exact H. Qed.

Lemma set_confirmed_stable n name spent :
  stable (fun st st' =>
            (forall t, In t (tx_store st) -> tx_name t = name ->
                       confirmed t = true /\ confirmed_at_height t = spent) ->
            forall t, In t (tx_store st') -> tx_name t = name ->
                      confirmed t = true /\ confirmed_at_height t = spent)
    (set_confirmed n spent).
Proof.
  intros st H. simpl. destruct st; simpl in *.
  apply set_confirmed_keeps_confirmed, H.
Qed.

Lemma removals_loop_stable env (l : list Coin) n u name spent :
  stable (fun st st' =>
            (forall t, In t (tx_store st) -> tx_name t = name ->
                       confirmed t = true /\ confirmed_at_height t = spent) ->
            forall t, In t (tx_store st') -> tx_name t = name ->
                      confirmed t = true /\ confirmed_at_height t = spent)
    (for_each l (fun rem_coin =>
       when (coin_name env rem_coin =? n) (set_confirmed u spent))).
Proof.
  apply stable_for_each.
  - intros st. apply confirmed_stable_refl.
  - intros a b c H1 H2 H. apply H2, H1, H.
  - intros c _. apply stable_when.
    + intros st. apply confirmed_stable_refl.
    + apply set_confirmed_stable.
Qed.

Lemma confirm_spenders_stable env l n name spent :
  stable (fun st st' =>
            (forall t, In t (tx_store st) -> tx_name t = name ->
                       confirmed t = true /\ confirmed_at_height t = spent) ->
            forall t, In t (tx_store st') -> tx_name t = name ->
                      confirmed t = true /\ confirmed_at_height t = spent)
    (confirm_spenders env l n spent).
Proof.
  unfold confirm_spenders. apply stable_for_each.
  - intros st. apply confirmed_stable_refl.
  - intros a b c H1 H2 H. apply H2, H1, H.
  - intros u _. apply removals_loop_stable.
Qed.

Lemma removals_loop_confirms env (l : list Coin) n u spent c st :
  In c l -> coin_name env c = n ->
  forall t,
    In t (tx_store (snd (for_each l (fun rem_coin =>
                           when (coin_name env rem_coin =? n) (set_confirmed u spent))
                           st))) ->
    tx_name t = u -> confirmed t = true /\ confirmed_at_height t = spent.
Proof.
  revert st. induction l as [|x rest IH]; intros st Hin Hn; [destruct Hin|].
  simpl for_each. unfold bind.
  destruct (coin_name env x =? n) eqn:Hx.
  - simpl. apply (removals_loop_stable env rest n u u spent).
    intros t Ht Hname. destruct st; simpl in *.
    eapply set_confirmed_confirms; eassumption.
  - simpl. destruct Hin as [->|Hin]; [lia|]. apply IH; assumption.
Qed.

Lemma confirm_spenders_confirms env l n spent u st :
  In u l -> (exists c, In c (removals u) /\ coin_name env c = n) ->
  forall t,
    In t (tx_store (snd (confirm_spenders env l n spent st))) ->
    tx_name t = tx_name u -> confirmed t = true /\ confirmed_at_height t = spent.
Proof.
  intros Hin (c & Hc & Hn). revert st.
  induction l as [|x rest IH]; intros st; [destruct Hin|].
  unfold confirm_spenders. simpl for_each. unfold bind.
  assert (Hret : fst (for_each (removals x)
                        (fun rem_coin =>
                           when (coin_name env rem_coin =? n)
                             (set_confirmed (tx_name x) spent)) st) = Ok tt).
  { apply for_each_returns. intros c0 st0.
    destruct (coin_name env c0 =? n); reflexivity. }
  destruct (for_each (removals x) _ st) as [[[]|e] st1] eqn:E; [|discriminate].
  destruct Hin as [->|Hin].
  - apply (confirm_spenders_stable env rest n (tx_name u) spent st1).
    pose proof (removals_loop_confirms env (removals u) n (tx_name u) spent c st Hc Hn)
      as H.
    rewrite E in H. exact H.
  - apply (IH Hin).
Qed.

Lemma new_coin_state_single env cs current_height st :
  new_coin_state env [cs] None current_height st
  = match coin_state_body env (get_all_unconfirmed st) empty_locals cs st with
    | (Ok loc, st1) =>
        (Ok (added loc, removed loc),
         set_events
           (events st1
            ++ map (fun cs0 => coins_of_interest_farmed_ev cs0) (trade_adds loc)
            ++ map (fun cs0 => coins_of_interest_farmed_ev cs0) (trade_coin_removed loc))
           st1)
    | (Raise e, st1) => (Raise e, st1)
    end.
Proof.
  unfold new_coin_state. simpl py_sort.
  unfold bind at 1. unfold lift at 1.
  unfold bind at 1. unfold gets at 1.
  unfold bind at 1. unfold maybe_rollback, ret at 1.
  simpl fold_each. unfold bind at 1. unfold bind at 1.
  destruct (coin_state_body env (get_all_unconfirmed st) empty_locals cs st)
    as [[loc|e] st1]; [|reflexivity].
  unfold ret at 1.
  unfold bind at 1. rewrite for_each_emit_returns.
  unfold bind at 1. rewrite for_each_emit_returns. unfold ret.
  destruct st1; simpl. rewrite <- app_assoc. reflexivity.
Qed.

Lemma coin_state_body_known env all_unconfirmed loc cs st created spent record :
  created_height cs = Some created ->
  spent_height cs = Some spent ->
  get_coin_record (coin_name env (cs_coin cs)) st = Some record ->
  coin_state_body env all_unconfirmed loc cs st
  = (Ok (locals_after_spent env cs loc),
     snd (confirm_spenders env all_unconfirmed (coin_name env (cs_coin cs)) spent
            (set_coin_store
               (coin_store_set_spent (coin_name env (cs_coin cs)) spent (coin_store st))
               (set_events (events st ++ [coin_state_ev cs]) st)))).
Proof.
  intros Hc Hs Hrec.
  unfold coin_state_body.
  unfold bind at 1. unfold emit at 1. unfold modify at 1.
  unfold bind at 1. unfold gets at 1.
  unfold bind at 1. unfold gets at 1. rewrite Hc, Hs.
  unfold spent_case.
  unfold bind at 1. unfold gets at 1.
  change (get_coin_record (coin_name env (cs_coin cs))
            (set_events (events st ++ [coin_state_ev cs]) st))
    with (get_coin_record (coin_name env (cs_coin cs)) st).
  rewrite Hrec.
  unfold bind at 1. unfold set_spent at 1. unfold modify at 1.
  change (coin_store (set_events (events st ++ [coin_state_ev cs]) st))
    with (coin_store st).
  unfold bind at 1.
  pose proof (confirm_spenders_returns env all_unconfirmed
                (coin_name env (cs_coin cs)) spent
                (set_coin_store
                   (coin_store_set_spent (coin_name env (cs_coin cs)) spent
                      (coin_store st))
                   (set_events (events st ++ [coin_state_ev cs]) st))) as Hret.
  destruct (confirm_spenders env all_unconfirmed (coin_name env (cs_coin cs)) spent _)
    as [[[]|e] st2]; [|discriminate].
  reflexivity.
Qed.

(** X16. A coin state, created and spent, of a coin that the ledger already
    holds makes [new_coin_state] set the spent height of that record and
    nothing else in the coin ledger. No transaction is created; the
    transactions that were unconfirmed before the call and have the coin
    among their removals are confirmed at the spent height; the coin state is
    the one element of [removed]. *)
Theorem new_coin_state_spends_known_coin env cs current_height st created spent
    record :
  created_height cs = Some created ->
  spent_height cs = Some spent ->
  get_coin_record (coin_name env (cs_coin cs)) st = Some record ->
  let run := new_coin_state env [cs] None current_height st in
  fst run = Ok ([], [cs])
  /\ coin_store (snd run)
     = <[coin_name env (cs_coin cs) := with_spent_height spent record]> (coin_store st)
  /\ map tx_shape (tx_store (snd run)) = map tx_shape (tx_store st)
  /\ forall u t,
       In u (get_all_unconfirmed st) ->
       (exists c, In c (removals u)
                  /\ coin_name env c = coin_name env (cs_coin cs)) ->
       In t (tx_store (snd run)) -> tx_name t = tx_name u ->
       confirmed t = true /\ confirmed_at_height t = spent.
Proof.
  intros Hc Hs Hrec run. subst run.
  rewrite new_coin_state_single.
  rewrite (coin_state_body_known env _ _ cs st created spent record Hc Hs Hrec).
  set (st1 := set_coin_store _ (set_events (events st ++ [coin_state_ev cs]) st)).
  pose proof (confirm_spenders_confirms env (get_all_unconfirmed st)
                (coin_name env (cs_coin cs)) spent) as Hconf.
  destruct (confirm_spenders_run env (get_all_unconfirmed st)
              (coin_name env (cs_coin cs)) spent st1) as (txs & Hrun & Hshape & _).
  assert (Hstore : coin_store st1
                   = <[coin_name env (cs_coin cs) := with_spent_height spent record]>
                       (coin_store st)).
  { subst st1. destruct st; simpl in *. unfold coin_store_set_spent.
    unfold get_coin_record in Hrec. simpl in Hrec.
    apply map_eq. intros k.
    destruct (decide (k = coin_name env (cs_coin cs))) as [->|Hne].
    - rewrite lookup_alter_eq, lookup_insert_eq, Hrec. reflexivity.
    - rewrite lookup_alter_ne, lookup_insert_ne by congruence. reflexivity. }
  cbv beta iota. cbn [fst snd].
  split; [|split; [|split]].
  - unfold locals_after_spent. destruct (existsb _ _); reflexivity.
  - rewrite <- Hstore, Hrun. destruct st1; reflexivity.
  - rewrite Hrun. cbn [snd].
    transitivity (map tx_shape txs); [destruct st1; reflexivity|].
    rewrite Hshape. subst st1. destruct st; reflexivity.
  - intros u t Hu Hrem Ht Hname.
    apply (Hconf u st1 Hu Hrem t); [|exact Hname].
    destruct (confirm_spenders env (get_all_unconfirmed st)
                (coin_name env (cs_coin cs)) spent st1) as [r st2].
    cbn [snd] in *. destruct st2; exact Ht.
Qed.

Lemma new_coin_state_spends_known_coin_witness :
  let run := new_coin_state ex_plain_env
               [mkCoinState (mkCoin 1 110 10) (Some 12) (Some 5)] None None
               ex_balance_state in
  fst run = Ok ([], [mkCoinState (mkCoin 1 110 10) (Some 12) (Some 5)])
  /\ coin_store (snd run)
     = <[coin_name ex_plain_env (mkCoin 1 110 10) :=
           with_spent_height 12
             (mkWalletCoinRecord (mkCoin 1 110 10) 5 0 false false STANDARD_WALLET 1)]>
         (coin_store ex_balance_state)
  /\ map tx_shape (tx_store (snd run)) = map tx_shape (tx_store ex_balance_state)
  /\ forall u t,
       In u (get_all_unconfirmed ex_balance_state) ->
       (exists c, In c (removals u)
                  /\ coin_name ex_plain_env c = coin_name ex_plain_env (mkCoin 1 110 10)) ->
       In t (tx_store (snd run)) -> tx_name t = tx_name u ->
       confirmed t = true /\ confirmed_at_height t = 12.
Proof.
  apply (new_coin_state_spends_known_coin ex_plain_env
           (mkCoinState (mkCoin 1 110 10) (Some 12) (Some 5)) None ex_balance_state
           5 12
           (mkWalletCoinRecord (mkCoin 1 110 10) 5 0 false false STANDARD_WALLET 1));
    vm_compute; reflexivity.
Defined.

(** *** What a rollback leaves in the transaction ledger and in the registry *)

Lemma requeue_run records st :
  for_each records (fun record =>
    when (is_requeued_type (tx_type record))
      (add_transaction_record (tx_reorged_record record))) st
  = (Ok tt,
     set_tx_store
       (fold_left (fun txs record =>
                     if is_requeued_type (tx_type record)
                     then tx_store_add (tx_reorged_record record) txs else txs)
          records (tx_store st)) st).
Proof.
  revert st. induction records as [|r records IH]; intros st.
  - destruct st; reflexivity.
  - simpl. unfold bind. destruct (is_requeued_type (tx_type r)); simpl.
    + rewrite IH. destruct st; reflexivity.
    + apply IH.
Qed.

(** [reorg_rollback] up to its last loop: the state in which the rewound
    pool wallets are removed. *)
Lemma reorg_rollback_run env h st :
  reorg_rollback env h st
  = for_each (rewound_pool_wallets env h st)
      (fun wallet_id =>
         let* _ := emit (delete_wallet_ev wallet_id) in
         let* _ := modify (fun st =>
                     set_wallets
                       (List.filter (fun p => negb (fst p =? wallet_id)) (wallets st))
                       st) in
         pop_new_peak_callback wallet_id)
      (set_events (events st ++ [reorg_rollback_ev h; tx_pending_changed_ev])
         (set_tx_store
            (fold_left (fun txs record =>
                          if is_requeued_type (tx_type record)
                          then tx_store_add (tx_reorged_record record) txs else txs)
               (get_transaction_above h st)
               (tx_store_rollback_to_block h (tx_store st)))
            (set_coin_store (coin_store_rollback_to_block h (coin_store st)) st))).
Proof.
  unfold reorg_rollback.
  unfold bind at 1. unfold emit at 1. unfold modify at 1.
  unfold bind at 1. unfold modify at 1.
  unfold bind at 1. unfold gets at 1.
  unfold bind at 1. unfold modify at 1.
  unfold bind at 1. rewrite requeue_run.
  unfold bind at 1. unfold tx_pending_changed, emit at 1. unfold modify at 1.
  unfold bind at 1. unfold gets at 1.
  unfold rewound_pool_wallets.
  destruct st; simpl. rewrite <- app_assoc. reflexivity.
Qed.

Lemma pop_loop_tx_store ids st :
  tx_store (snd (for_each ids
      (fun wallet_id =>
         let* _ := emit (delete_wallet_ev wallet_id) in
         let* _ := modify (fun st =>
                     set_wallets
                       (List.filter (fun p => negb (fst p =? wallet_id)) (wallets st))
                       st) in
         pop_new_peak_callback wallet_id) st))
  = tx_store st.
Proof.
  match goal with
  | |- tx_store (snd (?m ?s)) = _ =>
      assert (Hk : stable (fun st st' => tx_store st' = tx_store st) m);
        [| exact (Hk s)]
  end.
  unfold pop_new_peak_callback, emit.
  repeat first
    [ stable_step (fun st : State => @eq_refl _ (tx_store st))
        (fun (a b c : State) (H1 : tx_store b = tx_store a)
             (H2 : tx_store c = tx_store b) => eq_trans H2 H1)
    | apply stable_modify; intros ?; reflexivity ].
Qed.

Lemma reorg_rollback_tx_store env h st :
  tx_store (snd (reorg_rollback env h st))
  = fold_left (fun txs record =>
                 if is_requeued_type (tx_type record)
                 then tx_store_add (tx_reorged_record record) txs else txs)
      (get_transaction_above h st)
      (tx_store_rollback_to_block h (tx_store st)).
Proof.
  rewrite reorg_rollback_run, pop_loop_tx_store. destruct st; reflexivity.
Qed.

(** X17. After [reorg_rollback(height)] the transaction ledger holds no
    confirmed transaction above the height: every transaction that is still
    confirmed was confirmed at or below it. *)
Theorem reorg_rollback_no_confirmed_above env h st t :
  In t (tx_store (snd (reorg_rollback env h st))) ->
  confirmed t = true -> confirmed_at_height t <= h.
Proof.
  rewrite reorg_rollback_tx_store.
  generalize (get_transaction_above h st). intros records.
  assert (Hbase : forall t, In t (tx_store_rollback_to_block h (tx_store st)) ->
                            confirmed t = true -> confirmed_at_height t <= h).
  { intros t0 Ht Hc. unfold tx_store_rollback_to_block in Ht.
    apply List.filter_In in Ht. destruct Ht as [_ Ht]. rewrite Hc in Ht.
    simpl in Ht. lia. }
  revert Hbase. generalize (tx_store_rollback_to_block h (tx_store st)).
  revert t. induction records as [|r rest IH]; intros t l Hbase Ht Hc; simpl in Ht.
  - apply Hbase; assumption.
  - apply (IH t _) in Ht; [exact Ht | | exact Hc].
    intros t0 Ht0 Hc0. destruct (is_requeued_type (tx_type r)).
    + apply tx_store_add_inv in Ht0. destruct Ht0 as [->|Ht0].
      * simpl in Hc0. discriminate.
      * apply Hbase; assumption.
    + apply Hbase; assumption.
Qed.

Lemma reorg_rollback_no_confirmed_above_witness :
  confirmed_at_height
    (mkTransactionRecord 3 0 500 7 0 true 0 None [] [] 1 [] None
       (TransactionType_value INCOMING_TX) 41) <= 104.
Proof.
  apply (reorg_rollback_no_confirmed_above ex_plain_env 104
           (ex_state []
              [mkTransactionRecord 3 0 500 7 0 true 0 None [] [] 1 [] None
                 (TransactionType_value INCOMING_TX) 41;
               mkTransactionRecord 105 0 500 7 0 true 0 None [] [] 1 [] None
                 (TransactionType_value OUTGOING_TX) 43])).
  - vm_compute. left. reflexivity.
  - reflexivity.
Defined.

Lemma tx_store_add_other x t l :
  In x l -> tx_name x <> tx_name t -> In x (tx_store_add t l).
Proof.
  induction l as [|y rest IH]; intros Hin Hne; [destruct Hin|].
  simpl. destruct (tx_name y =? tx_name t) eqn:E.
  - destruct Hin as [->|Hin]; [lia | right; exact Hin].
  - destruct Hin as [->|Hin]; [left; reflexivity | right; apply IH; assumption].
Qed.

Lemma requeue_fold_keeps records name l :
  (exists t', In t' l /\ tx_name t' = name /\ requeued t') ->
  exists t',
    In t' (fold_left (fun txs record =>
                        if is_requeued_type (tx_type record)
                        then tx_store_add (tx_reorged_record record) txs else txs)
             records l)
    /\ tx_name t' = name /\ requeued t'.
Proof.
  revert l. induction records as [|r rest IH]; intros l H; simpl; [exact H|].
  apply IH. destruct (is_requeued_type (tx_type r)); [|exact H].
  destruct H as (t' & Hin & Hname & Hq).
  destruct (decide (tx_name t' = tx_name (tx_reorged_record r))) as [Heq|Hne].
  - exists (tx_reorged_record r). split; [apply tx_store_add_in|].
    split; [congruence|]. repeat split.
  - exists t'. split; [apply tx_store_add_other; assumption|]. split; assumption.
Qed.

(** X18. [reorg_rollback(height)] puts back in the pending queue every
    transaction above the height whose type is [OUTGOING_TX],
    [OUTGOING_TRADE] or [INCOMING_TRADE]: afterwards the ledger holds a
    transaction of that name that is unconfirmed, at height 0, never sent. *)
Theorem reorg_rollback_requeues env h st t :
  In t (tx_store st) ->
  h < confirmed_at_height t ->
  tx_type t = TransactionType_value OUTGOING_TX
  \/ tx_type t = TransactionType_value OUTGOING_TRADE
  \/ tx_type t = TransactionType_value INCOMING_TRADE ->
  exists t', In t' (tx_store (snd (reorg_rollback env h st)))
             /\ tx_name t' = tx_name t /\ requeued t'.
Proof.
  intros Hin Hh Hty.
  assert (Hty' : is_requeued_type (tx_type t) = true)
    by (destruct Hty as [->| [->| ->]]; reflexivity).
  clear Hty. rename Hty' into Hty. rewrite reorg_rollback_tx_store.
  assert (Habove : In t (get_transaction_above h st)).
  { unfold get_transaction_above. apply List.filter_In. split; [exact Hin | lia]. }
  revert Habove. generalize (get_transaction_above h st).
  generalize (tx_store_rollback_to_block h (tx_store st)).
  intros l records. revert l.
  induction records as [|r rest IH]; intros l Habove; [destruct Habove|].
  simpl. destruct Habove as [->|Habove].
  - rewrite Hty. apply requeue_fold_keeps.
    exists (tx_reorged_record t). split; [apply tx_store_add_in|].
    split; [reflexivity | repeat split].
  - apply IH, Habove.
Qed.

Lemma reorg_rollback_requeues_witness :
  exists t',
    In t' (tx_store (snd (reorg_rollback ex_plain_env 104 ex_reorg_state)))
    /\ tx_name t' = 43 /\ requeued t'.
Proof.
  apply (reorg_rollback_requeues ex_plain_env 104 ex_reorg_state
           (mkTransactionRecord 105 0 500 7 0 true 1 None [] [] 1 [] None
              (TransactionType_value OUTGOING_TX) 43)).
  - vm_compute. left. reflexivity.
  - reflexivity.
  - left. reflexivity.
Defined.

Lemma existsb_eqb_in (x : Z) l : existsb (Z.eqb x) l = true <-> In x l.
Proof.
  rewrite existsb_exists. split.
  - intros (y & Hy & Heq). apply Z.eqb_eq in Heq. subst. exact Hy.
  - intros H. exists x. split; [exact H | apply Z.eqb_refl].
Qed.

Lemma filter_ne_in (x y : Z) l :
  In y (List.filter (fun w => negb (w =? x)) l) <-> In y l /\ y <> x.
Proof.
  rewrite List.filter_In. split; intros [H1 H2]; split; try exact H1.
  - intros ->. rewrite Z.eqb_refl in H2. discriminate.
  - destruct (y =? x) eqn:E; [lia | reflexivity].
Qed.

(** The loop of [reorg_rollback] that removes the rewound pool wallets. *)
Lemma pop_loop_spec ids st :
  List.NoDup ids ->
  let run :=
    for_each ids
      (fun wallet_id =>
         let* _ := emit (delete_wallet_ev wallet_id) in
         let* _ := modify (fun st =>
                     set_wallets
                       (List.filter (fun p => negb (fst p =? wallet_id)) (wallets st))
                       st) in
         pop_new_peak_callback wallet_id) st in
  (fst run = Ok tt <-> forall w, In w ids -> In w (new_peak_callbacks st))
  /\ (fst run = Ok tt ->
      wallets (snd run)
      = List.filter (fun p => negb (existsb (Z.eqb (fst p)) ids)) (wallets st)
      /\ new_peak_callbacks (snd run)
         = List.filter (fun w => negb (existsb (Z.eqb w) ids)) (new_peak_callbacks st)).
Proof.
  intros Hnodup. revert st.
  induction Hnodup as [|x rest Hx Hrest IH]; intros st; cbv zeta.
  - simpl. split.
    + split; [intros _ w [] | reflexivity].
    + intros _. split.
      * induction (wallets st) as [|p l IHl]; simpl; [reflexivity | f_equal; exact IHl].
      * induction (new_peak_callbacks st) as [|p l IHl]; simpl;
          [reflexivity | f_equal; exact IHl].
  - match goal with
    | |- context [for_each (x :: rest) ?body st] =>
        assert (Hstep :
          for_each (x :: rest) body st
          = if existsb (Z.eqb x) (new_peak_callbacks st)
            then for_each rest body
                   (set_new_peak_callbacks
                      (List.filter (fun w => negb (w =? x)) (new_peak_callbacks st))
                      (set_wallets
                         (List.filter (fun p => negb (fst p =? x)) (wallets st))
                         (set_events (events st ++ [delete_wallet_ev x]) st)))
            else (Raise KeyError,
                  set_wallets
                    (List.filter (fun p => negb (fst p =? x)) (wallets st))
                    (set_events (events st ++ [delete_wallet_ev x]) st)))
    end.
    { simpl for_each.
      unfold bind at 1. unfold bind at 1. unfold emit at 1. unfold modify at 1.
      unfold bind at 1. unfold modify at 1.
      unfold pop_new_peak_callback at 1. unfold bind at 1. unfold gets at 1.
      replace (new_peak_callbacks
                 (set_wallets
                    (List.filter (fun p => negb (fst p =? x))
                       (wallets (set_events (events st ++ [delete_wallet_ev x]) st)))
                    (set_events (events st ++ [delete_wallet_ev x]) st)))
        with (new_peak_callbacks st) by (destruct st; reflexivity).
      destruct (existsb (Z.eqb x) (new_peak_callbacks st)); destruct st; reflexivity. }
    rewrite Hstep. clear Hstep.
    destruct (existsb (Z.eqb x) (new_peak_callbacks st)) eqn:Hpop.
    + match goal with
      | |- context [for_each rest ?body ?s] =>
          specialize (IH s); cbv zeta in IH; destruct IH as [IHret IHst];
          set (s1 := s) in *
      end.
      assert (Hcb : new_peak_callbacks s1
                    = List.filter (fun w => negb (w =? x)) (new_peak_callbacks st))
        by (subst s1; destruct st; reflexivity).
      assert (Hws : wallets s1
                    = List.filter (fun p => negb (fst p =? x)) (wallets st))
        by (subst s1; destruct st; reflexivity).
      split.
      * rewrite IHret. split.
        -- intros H w [<-|Hw]; [apply existsb_eqb_in, Hpop|].
           specialize (H w Hw). rewrite Hcb in H. apply filter_ne_in in H. apply H.
        -- intros H w Hw. rewrite Hcb. apply filter_ne_in. split.
           ++ apply H. right. exact Hw.
           ++ intros ->. contradiction.
      * intros Hok. destruct (IHst Hok) as [H1 H2]. rewrite H1, H2, Hws, Hcb. split.
        -- clear. induction (wallets st) as [|p l IHl]; [reflexivity|].
           simpl.
           destruct (fst p =? x); simpl; [exact IHl|].
           destruct (existsb (Z.eqb (fst p)) rest); simpl; [exact IHl|].
           f_equal. exact IHl.
        -- clear. induction (new_peak_callbacks st) as [|p l IHl]; [reflexivity|].
           simpl.
           destruct (p =? x); simpl; [exact IHl|].
           destruct (existsb (Z.eqb p) rest); simpl; [exact IHl|].
           f_equal. exact IHl.
    + unfold raise. cbn [fst snd]. split.
      * split; [discriminate|]. intros H.
        specialize (H x (or_introl eq_refl)). apply existsb_eqb_in in H. congruence.
      * discriminate.
Qed.

Lemma NoDup_map_filter {A B} (f : A -> B) (p : A -> bool) l :
  List.NoDup (map f l) -> List.NoDup (map f (List.filter p l)).
Proof.
  induction l as [|x rest IH]; simpl; intros H; [constructor|].
  inversion H as [|? ? Hx Hrest]; subst.
  destruct (p x); [|apply IH, Hrest]. simpl. constructor; [|apply IH, Hrest].
  intros Hin. apply Hx. apply in_map_iff in Hin. destruct Hin as (y & Hy & Hin).
  apply in_map_iff. exists y. split; [exact Hy|].
  apply List.filter_In in Hin. apply Hin.
Qed.

(** X19. [reorg_rollback(height)] returns exactly when every pool wallet
    whose [rewind(height)] asks for its removal has a new-peak callback
    registered (otherwise popping the callback raises). When it returns, the
    registry has lost those pool wallets and no other wallet, and their
    new-peak callbacks are deregistered. *)
Theorem reorg_rollback_removes_rewound_pool_wallets env h st :
  List.NoDup (map fst (wallets st)) ->
  let run := reorg_rollback env h st in
  let rewound := rewound_pool_wallets env h st in
  (fst run = Ok tt <-> forall w, In w rewound -> In w (new_peak_callbacks st))
  /\ (fst run = Ok tt ->
      wallets (snd run)
      = List.filter (fun p => negb (existsb (Z.eqb (fst p)) rewound)) (wallets st)
      /\ new_peak_callbacks (snd run)
         = List.filter (fun w => negb (existsb (Z.eqb w) rewound)) (new_peak_callbacks st)).
Proof.
  intros Hnodup. cbv zeta. rewrite reorg_rollback_run.
  assert (Hids : List.NoDup (rewound_pool_wallets env h st)).
  { unfold rewound_pool_wallets. apply NoDup_map_filter, Hnodup. }
  match goal with
  | |- context [for_each _ _ ?s] =>
      pose proof (pop_loop_spec (rewound_pool_wallets env h st) s Hids) as H;
      cbv zeta in H;
      replace (new_peak_callbacks s) with (new_peak_callbacks st) in H
        by (destruct st; reflexivity);
      replace (wallets s) with (wallets st) in H by (destruct st; reflexivity)
  end.
  exact H.
Qed.

Lemma reorg_rollback_removes_rewound_pool_wallets_witness :
  let run := reorg_rollback ex_rewind_env 50 ex_pool_state in
  let rewound := rewound_pool_wallets ex_rewind_env 50 ex_pool_state in
  (fst run = Ok tt <-> forall w, In w rewound -> In w (new_peak_callbacks ex_pool_state))
  /\ (fst run = Ok tt ->
      wallets (snd run)
      = List.filter (fun p => negb (existsb (Z.eqb (fst p)) rewound))
          (wallets ex_pool_state)
      /\ new_peak_callbacks (snd run)
         = List.filter (fun w => negb (existsb (Z.eqb w) rewound))
             (new_peak_callbacks ex_pool_state)).
Proof.
  apply (reorg_rollback_removes_rewound_pool_wallets ex_rewind_env 50 ex_pool_state).
  vm_compute. constructor.
  - intros [H|[]]. discriminate H.
  - constructor; [intros [] | constructor].
Defined.

(** *** Key derivation *)

Lemma max_fold_ge l (m : Z) :
  exists m',
    fold_left (fun acc d =>
                 match acc with
                 | Some m => Some (Z.max m (dr_index d))
                 | None => Some (dr_index d)
                 end) l (Some m) = Some m'
    /\ m <= m' /\ (forall d, In d l -> dr_index d <= m')
    /\ (m' = m \/ exists d, In d l /\ dr_index d = m').
Proof.
  revert m. induction l as [|x rest IH]; intros m; simpl.
  - exists m. repeat split; [lia | intros d [] | left; reflexivity].
  - destruct (IH (Z.max m (dr_index x))) as (m' & H & Hge & Hall & Hatt).
    exists m'. split; [exact H|]. split; [lia|]. split.
    + intros d [<-|Hd]; [lia | apply Hall, Hd].
    + destruct Hatt as [->|(d & Hd & Hm)].
      * destruct (Z.max_spec m (dr_index x)) as [[_ ->]|[_ ->]].
        -- right. exists x. split; [left|]; reflexivity.
        -- left. reflexivity.
      * right. exists d. split; [right; exact Hd | exact Hm].
Qed.

Lemma max_index_spec l :
  match max_index l with
  | None => l = []
  | Some m => (forall d, In d l -> dr_index d <= m) /\ exists d, In d l /\ dr_index d = m
  end.
Proof.
  unfold max_index. destruct l as [|x rest]; simpl; [reflexivity|].
  destruct (max_fold_ge rest (dr_index x)) as (m' & -> & Hge & Hall & Hatt).
  split.
  - intros d [<-|Hd]; [exact Hge | apply Hall, Hd].
  - destruct Hatt as [->|(d & Hd & Hm)].
    + exists x. split; [left|]; reflexivity.
    + exists d. split; [right; exact Hd | exact Hm].
Qed.

Lemma max_index_app_below l recs m :
  max_index l = Some m -> (forall d, In d recs -> dr_index d <= m) ->
  max_index (l ++ recs) = Some m.
Proof.
  unfold max_index. rewrite fold_left_app. intros -> H.
  induction recs as [|x rest IH]; simpl; [reflexivity|].
  rewrite Z.max_l by (apply H; left; reflexivity).
  apply IH. intros d Hd. apply H. right. exact Hd.
Qed.

Lemma get_derivation_index_key env pubkey :
  get_derivation_index env pubkey <> -1 ->
  get_public_key env (get_derivation_index env pubkey) = pubkey.
Proof.
  intros Hne. unfold get_derivation_index in *.
  change 1000 with (Z.of_nat 1000) in *.
  pose proof (derivation_index_loop_spec env pubkey 1000 0) as H. cbv zeta in H.
  destruct H as [[H _]|(_ & H & _)]; [contradiction | exact H].
Qed.

Lemma derive_loop_records env wallet_id w range paths l :
  derive_loop env wallet_id w range paths = Ok l ->
  exists recs,
    l = paths ++ recs
    /\ (w_type w = POOLING_WALLET -> recs = [])
    /\ Forall (fun d =>
                 dr_wallet_id d = wallet_id
                 /\ dr_wallet_type d = w_type w
                 /\ dr_pubkey d = get_public_key env (dr_index d)
                 /\ (w_type w <> RATE_LIMITED -> In (dr_index d) range)) recs.
Proof.
  revert paths. induction range as [|index rest IH]; intros paths H; simpl in H.
  - inversion H. exists []. rewrite app_nil_r. repeat split; constructor.
  - assert (Hstd : forall ph,
              w_type w <> POOLING_WALLET -> w_type w <> RATE_LIMITED ->
              derive_loop env wallet_id w rest
                (paths ++ [mkDerivationRecord index ph (get_public_key env index)
                             (w_type w) wallet_id]) = Ok l ->
              exists recs,
                l = paths ++ recs
                /\ (w_type w = POOLING_WALLET -> recs = [])
                /\ Forall (fun d =>
                             dr_wallet_id d = wallet_id
                             /\ dr_wallet_type d = w_type w
                             /\ dr_pubkey d = get_public_key env (dr_index d)
                             /\ (w_type w <> RATE_LIMITED ->
                                 In (dr_index d) (index :: rest))) recs).
    { intros ph Hp Hr H0. destruct (IH _ H0) as (recs & H1 & _ & H2).
      eexists (_ :: recs). rewrite H1, <- app_assoc. split; [reflexivity|].
      split; [intros; contradiction|].
      constructor.
      - simpl. repeat split. intros _. left. reflexivity.
      - eapply List.Forall_impl; [|exact H2]. intros d (Ha & Hb & Hc & Hd).
        repeat split; try assumption. intros Hn. right. apply Hd, Hn. }
    assert (Hnone : l = paths ->
              exists recs,
                l = paths ++ recs
                /\ (w_type w = POOLING_WALLET -> recs = [])
                /\ Forall (fun d =>
                             dr_wallet_id d = wallet_id
                             /\ dr_wallet_type d = w_type w
                             /\ dr_pubkey d = get_public_key env (dr_index d)
                             /\ (w_type w <> RATE_LIMITED ->
                                 In (dr_index d) (index :: rest))) recs).
    { intros ->. exists []. rewrite app_nil_r. repeat split. constructor. }
    destruct (w_type w) eqn:Hty.
    + destruct (puzzle_for_pk env wallet_id (get_public_key env index)) as [ph|];
        [apply (Hstd ph); [discriminate | discriminate | exact H]
        | apply Hnone; congruence].
    + destruct (negb (rl_initialized (w_rl_info w)));
        [apply Hnone; congruence|].
      destruct (puzzle_for_pk env wallet_id _) as [ph|]; [|discriminate].
      destruct (_ =? -1) eqn:Hidx; [apply Hnone; congruence|]. inversion H.
      eexists [_]. split; [reflexivity|]. split; [discriminate|].
      constructor; [|constructor]. simpl. repeat split; [|intros Hn; contradiction].
      match goal with
      | |- ?pk = get_public_key env (get_derivation_index env ?pk) =>
          pose proof (get_derivation_index_key env pk) as Hkey
      end.
      symmetry. apply Hkey. apply Z.eqb_neq in Hidx. exact Hidx.
    + destruct (puzzle_for_pk env wallet_id (get_public_key env index)) as [ph|];
        [apply (Hstd ph); [discriminate | discriminate | exact H]
        | apply Hnone; congruence].
    + destruct (puzzle_for_pk env wallet_id (get_public_key env index)) as [ph|];
        [apply (Hstd ph); [discriminate | discriminate | exact H]
        | apply Hnone; congruence].
    + destruct (IH _ H) as (recs & H1 & H2 & H3).
      exists recs. split; [exact H1|]. split; [exact H2|].
      eapply List.Forall_impl; [|exact H3]. intros d (Ha & Hb & Hc & Hd).
      repeat split; try assumption. intros Hn. right. apply Hd, Hn.
Qed.

Lemma expand_wallet_run env from_zero unused generate wallet_id st :
  expand_wallet env from_zero unused generate wallet_id st
  = match lookup_wallet wallet_id st with
    | None => (Raise KeyError, st)
    | Some w =>
        match derive_loop env wallet_id w
                (seqZ (start_index from_zero
                         (get_last_derivation_path_for_wallet wallet_id st))
                      (unused + generate
                       - start_index from_zero
                           (get_last_derivation_path_for_wallet wallet_id st)))
                [] with
        | Ok recs =>
            (Ok tt,
             set_events
               (events st ++ [subscribe_to_new_puzzle_hash_ev (map dr_puzzle_hash recs)])
               (set_derivation_paths (derivation_paths st ++ recs) st))
        | Raise e => (Raise e, st)
        end
    end.
Proof.
  unfold expand_wallet. unfold bind at 1. unfold gets at 1.
  destruct (lookup_wallet wallet_id st) as [w|]; [|reflexivity].
  unfold bind at 1. unfold gets at 1. unfold bind at 1. unfold lift at 1.
  destruct (derive_loop env wallet_id w _ []) as [recs|e]; [|reflexivity].
  unfold bind, add_derivation_paths, emit, modify. destruct st; reflexivity.
Qed.

Lemma expand_wallet_state env from_zero unused generate wallet_id st :
  snd (expand_wallet env from_zero unused generate wallet_id st) = st
  \/ exists w recs,
       lookup_wallet wallet_id st = Some w
       /\ derive_loop env wallet_id w
            (seqZ (start_index from_zero
                     (get_last_derivation_path_for_wallet wallet_id st))
                  (unused + generate
                   - start_index from_zero
                       (get_last_derivation_path_for_wallet wallet_id st)))
            [] = Ok recs
       /\ snd (expand_wallet env from_zero unused generate wallet_id st)
          = set_events
              (events st ++ [subscribe_to_new_puzzle_hash_ev (map dr_puzzle_hash recs)])
              (set_derivation_paths (derivation_paths st ++ recs) st).
Proof.
  rewrite expand_wallet_run.
  destruct (lookup_wallet wallet_id st) as [w|]; [|left; reflexivity].
  destruct (derive_loop env wallet_id w _ []) as [recs|e] eqn:E; [|left; reflexivity].
  right. exists w, recs. split; [reflexivity|]. split; [exact E | reflexivity].
Qed.

Section Expansion.

Variable env : Env.
Variable R : State -> State -> Prop.
Hypothesis R_refl : forall st, R st st.
Hypothesis R_trans : forall a b c, R a b -> R b c -> R a c.

(** A relation that each round of the expansion and the final
    [set_used_up_to] keep is kept by [create_more_puzzle_hashes]. *)
Lemma create_more_puzzle_hashes_stable from_zero :
  (forall unused generate wallet_id,
     stable R (expand_wallet env from_zero unused generate wallet_id)) ->
  (forall index, stable R (set_used_up_to index)) ->
  stable R (create_more_puzzle_hashes env from_zero).
Proof.
  intros Hexpand Hused. unfold create_more_puzzle_hashes.
  repeat first [ apply Hexpand | apply Hused | stable_step R_refl R_trans ].
Qed.

End Expansion.

(** X20. [create_more_puzzle_hashes] skips pool wallets: whether it returns
    or raises, the derivation records of a pool wallet of the registry are
    afterwards the ones it had before. *)
Theorem create_more_puzzle_hashes_skips_pool_wallets env from_zero st wallet_id w :
  lookup_wallet wallet_id st = Some w ->
  w_type w = POOLING_WALLET ->
  List.filter (fun d => dr_wallet_id d =? wallet_id)
    (derivation_paths (snd (create_more_puzzle_hashes env from_zero st)))
  = List.filter (fun d => dr_wallet_id d =? wallet_id) (derivation_paths st).
Proof.
  intros Hw Hpool.
  assert (Hk : stable
                 (fun st st' =>
                    lookup_wallet wallet_id st = Some w ->
                    lookup_wallet wallet_id st' = Some w
                    /\ List.filter (fun d => dr_wallet_id d =? wallet_id)
                         (derivation_paths st')
                       = List.filter (fun d => dr_wallet_id d =? wallet_id)
                           (derivation_paths st))
                 (create_more_puzzle_hashes env from_zero)).
  { apply create_more_puzzle_hashes_stable.
    - intros s H. split; [exact H | reflexivity].
    - intros a b c H1 H2 H. destruct (H1 H) as [Hb Hb'].
      destruct (H2 Hb) as [Hc Hc']. split; [exact Hc | congruence].
    - intros unused generate wid s H.
      destruct (expand_wallet_state env from_zero unused generate wid s)
        as [->|(tw & recs & Htw & Hloop & ->)]; [split; [exact H | reflexivity]|].
      split; [destruct s; exact H|].
      destruct (derive_loop_records _ _ _ _ _ _ Hloop) as (recs' & Heq & Hp & Hall).
      simpl in Heq. subst recs'.
      replace (derivation_paths _) with (derivation_paths s ++ recs)
        by (destruct s; reflexivity).
      destruct (Z.eq_dec wid wallet_id) as [->|Hne].
      + rewrite H in Htw. inversion Htw; subst tw.
        rewrite (Hp Hpool), app_nil_r. reflexivity.
      + apply filter_app_none. eapply List.Forall_impl; [|exact Hall].
        intros d (Hd & _). simpl. rewrite Hd. apply Z.eqb_neq. exact Hne.
    - intros index s H. unfold set_used_up_to, modify. simpl.
      destruct (last_used s) as [u|]; [destruct (u <? index)|];
        destruct s; split; first [exact H | reflexivity]. }
  apply (Hk st Hw).
Qed.

Lemma create_more_puzzle_hashes_skips_pool_wallets_witness :
  List.filter (fun d => dr_wallet_id d =? 2)
    (derivation_paths (snd (create_more_puzzle_hashes ex_plain_env false ex_pool_state)))
  = List.filter (fun d => dr_wallet_id d =? 2) (derivation_paths ex_pool_state).
Proof.
  apply (create_more_puzzle_hashes_skips_pool_wallets ex_plain_env false ex_pool_state
           2 (mkWalletEntry POOLING_WALLET no_rl_info)); reflexivity.
Defined.

(** X21. [create_more_puzzle_hashes] keeps the derivation index consistent
    with the keys: if every record carried the public key of its index
    before the call, so does every record after it, the record of a
    rate-limited wallet included. *)
Theorem create_more_puzzle_hashes_keys_consistent env from_zero st :
  keys_consistent env (derivation_paths st) ->
  keys_consistent env
    (derivation_paths (snd (create_more_puzzle_hashes env from_zero st))).
Proof.
  assert (Hk : stable
                 (fun st st' =>
                    keys_consistent env (derivation_paths st) ->
                    keys_consistent env (derivation_paths st'))
                 (create_more_puzzle_hashes env from_zero)).
  { apply create_more_puzzle_hashes_stable.
    - intros s H. exact H.
    - intros a b c H1 H2 H. apply H2, H1, H.
    - intros unused generate wid s H.
      destruct (expand_wallet_state env from_zero unused generate wid s)
        as [->|(tw & recs & Htw & Hloop & ->)]; [exact H|].
      destruct (derive_loop_records _ _ _ _ _ _ Hloop) as (recs' & Heq & _ & Hall).
      simpl in Heq. subst recs'.
      replace (derivation_paths _) with (derivation_paths s ++ recs)
        by (destruct s; reflexivity).
      unfold keys_consistent in *. apply List.Forall_app. split; [exact H|].
      eapply List.Forall_impl; [|exact Hall]. intros d (_ & _ & Hd & _). exact Hd.
    - intros index s H. unfold set_used_up_to, modify. simpl.
      destruct (last_used s) as [u|]; [destruct (u <? index)|];
        destruct s; exact H. }
  apply (Hk st).
Qed.

Lemma create_more_puzzle_hashes_keys_consistent_witness :
  keys_consistent ex_plain_env
    (derivation_paths (snd (create_more_puzzle_hashes ex_plain_env false ex_pool_state))).
Proof.
  apply (create_more_puzzle_hashes_keys_consistent ex_plain_env false ex_pool_state).
  repeat constructor.
Defined.

(** X22. Without [from_zero], [create_more_puzzle_hashes] only appends to the
    derivation index, and a record that it appends for a wallet that is not
    rate-limited has an index above every index that the wallet had: no
    index is derived twice. *)
Theorem create_more_puzzle_hashes_fresh_indices env st :
  exists extra,
    derivation_paths (snd (create_more_puzzle_hashes env false st))
    = derivation_paths st ++ extra
    /\ forall d d0,
         In d extra -> dr_wallet_type d <> RATE_LIMITED ->
         In d0 (derivation_paths st) -> dr_wallet_id d0 = dr_wallet_id d ->
         dr_index d0 < dr_index d.
Proof.
  assert (Hk : stable
                 (fun st st' =>
                    exists extra,
                      derivation_paths st' = derivation_paths st ++ extra
                      /\ forall d d0,
                           In d extra -> dr_wallet_type d <> RATE_LIMITED ->
                           In d0 (derivation_paths st) ->
                           dr_wallet_id d0 = dr_wallet_id d ->
                           dr_index d0 < dr_index d)
                 (create_more_puzzle_hashes env false)).
  { apply create_more_puzzle_hashes_stable.
    - intros s. exists []. rewrite app_nil_r. split; [reflexivity | intros d d0 []].
    - intros a b c (e1 & H1 & H1') (e2 & H2 & H2').
      exists (e1 ++ e2). rewrite H2, H1, <- app_assoc. split; [reflexivity|].
      intros d d0 Hd Hty Hd0 Hid. apply in_app_iff in Hd. destruct Hd as [Hd|Hd].
      + apply H1'; assumption.
      + apply H2'; try assumption. rewrite H1. apply in_or_app. left. exact Hd0.
    - intros unused generate wid s.
      destruct (expand_wallet_state env false unused generate wid s)
        as [->|(tw & recs & Htw & Hloop & ->)].
      { exists []. rewrite app_nil_r. split; [reflexivity | intros d d0 []]. }
      exists recs. split; [destruct s; reflexivity|].
      destruct (derive_loop_records _ _ _ _ _ _ Hloop) as (recs' & Heq & _ & Hall).
      simpl in Heq. subst recs'.
      intros d d0 Hd Hty Hd0 Hid.
      rewrite List.Forall_forall in Hall.
      destruct (Hall d Hd) as (Hwid & Htype & _ & Hrange).
      assert (Hin : In d0 (List.filter (fun d => dr_wallet_id d =? wid)
                             (derivation_paths s))).
      { apply List.filter_In. split; [exact Hd0|]. apply Z.eqb_eq. congruence. }
      pose proof (max_index_spec (List.filter (fun d => dr_wallet_id d =? wid)
                                    (derivation_paths s))) as Hmax.
      unfold get_last_derivation_path_for_wallet in Hrange.
      destruct (max_index _) as [m|].
      + destruct Hmax as [Hle _]. specialize (Hle d0 Hin).
        assert (Hr : In (dr_index d) (seqZ (m + 1) (unused + generate - (m + 1)))).
        { apply Hrange. congruence. }
        apply list_elem_of_In, elem_of_seqZ in Hr. lia.
      + rewrite Hmax in Hin. destruct Hin.
    - intros index s. exists []. rewrite app_nil_r. split; [|intros d d0 []].
      unfold set_used_up_to, modify. simpl.
      destruct (last_used s) as [u|]; [destruct (u <? index)|];
        destruct s; reflexivity. }
  apply (Hk st).
Qed.

Lemma update_loop_records env wallet_id w range paths l :
  update_loop env wallet_id w range paths = Ok l ->
  exists recs,
    l = paths ++ recs
    /\ Forall (fun d => dr_wallet_id d = wallet_id /\ In (dr_index d) range) recs.
Proof.
  revert paths. induction range as [|index rest IH]; intros paths H; simpl in H.
  - inversion H. exists []. rewrite app_nil_r. split; [reflexivity | constructor].
  - destruct (puzzle_for_pk env wallet_id (get_public_key env index)) as [ph|];
      [|discriminate].
    destruct (IH _ H) as (recs & H1 & H2). eexists (_ :: recs).
    rewrite H1, <- app_assoc. split; [reflexivity|]. constructor.
    + simpl. split; [reflexivity | left; reflexivity].
    + eapply List.Forall_impl; [|exact H2]. intros d [Ha Hb].
      split; [exact Ha | right; exact Hb].
Qed.

Lemma update_wallet_puzzle_hashes_run env wallet_id st :
  update_wallet_puzzle_hashes env wallet_id st
  = match lookup_wallet wallet_id st with
    | None => (Raise KeyError, st)
    | Some w =>
        match get_last_derivation_path_for_wallet wallet_id st with
        | None => (Raise TypeError, st)
        | Some last =>
            match update_loop env wallet_id w
                    (seqZ (unused_or_last st) (last - unused_or_last st)) [] with
            | Ok recs =>
                (Ok tt, set_derivation_paths (derivation_paths st ++ recs) st)
            | Raise e => (Raise e, st)
            end
        end
    end.
Proof.
  unfold update_wallet_puzzle_hashes. unfold bind at 1. unfold gets at 1.
  destruct (lookup_wallet wallet_id st) as [w|]; [|reflexivity].
  unfold bind at 1. unfold gets at 1. unfold bind at 1. unfold gets at 1.
  destruct (get_last_derivation_path_for_wallet wallet_id st) as [last|];
    [|reflexivity].
  unfold bind at 1. unfold lift at 1.
  destruct (update_loop env wallet_id w _ []) as [recs|e]; reflexivity.
Qed.

(** X23. [update_wallet_puzzle_hashes] never extends the derivation index:
    the records it adds are below the wallet's last index, so the last index
    of every wallet and the last index of the whole store stay what they
    were. For a wallet that has no derivation record yet the call raises
    ([range(unused, None)]). *)
Theorem update_wallet_puzzle_hashes_never_extends env wallet_id st :
  let run := update_wallet_puzzle_hashes env wallet_id st in
  (forall id, get_last_derivation_path_for_wallet id (snd run)
              = get_last_derivation_path_for_wallet id st)
  /\ get_last_derivation_path (snd run) = get_last_derivation_path st
  /\ (get_last_derivation_path_for_wallet wallet_id st = None -> fst run <> Ok tt).
Proof.
  cbv zeta. rewrite update_wallet_puzzle_hashes_run.
  destruct (lookup_wallet wallet_id st) as [w|];
    [|repeat split; try reflexivity; discriminate].
  destruct (get_last_derivation_path_for_wallet wallet_id st) as [last|] eqn:Hlast;
    [|repeat split; try reflexivity; discriminate].
  destruct (update_loop env wallet_id w _ []) as [recs|e] eqn:Hloop;
    [|repeat split; try reflexivity; discriminate].
  destruct (update_loop_records _ _ _ _ _ _ Hloop) as (recs' & Heq & Hall).
  simpl in Heq. subst recs'. cbn [fst snd].
  assert (Hbelow : forall d, In d recs -> dr_index d <= last).
  { intros d Hd. rewrite List.Forall_forall in Hall. destruct (Hall d Hd) as [_ Hr].
    apply list_elem_of_In, elem_of_seqZ in Hr. lia. }
  unfold get_last_derivation_path_for_wallet in Hlast.
  pose proof (max_index_spec (List.filter (fun d => dr_wallet_id d =? wallet_id)
                                (derivation_paths st))) as Hmax.
  rewrite Hlast in Hmax. destruct Hmax as [_ (d0 & Hd0 & Hidx)].
  apply List.filter_In in Hd0. destruct Hd0 as [Hd0 _].
  split; [|split; [|discriminate]].
  - intros id. unfold get_last_derivation_path_for_wallet.
    replace (derivation_paths (set_derivation_paths (derivation_paths st ++ recs) st))
      with (derivation_paths st ++ recs) by (destruct st; reflexivity).
    destruct (Z.eq_dec id wallet_id) as [->|Hne].
    + rewrite List.filter_app, Hlast. apply max_index_app_below; [exact Hlast|].
      intros d Hd. apply List.filter_In in Hd. apply Hbelow, Hd.
    + rewrite filter_app_none; [reflexivity|].
      eapply List.Forall_impl; [|exact Hall]. intros d [Hd _]. simpl.
      rewrite Hd. apply Z.eqb_neq. congruence.
  - unfold get_last_derivation_path.
    replace (derivation_paths (set_derivation_paths (derivation_paths st ++ recs) st))
      with (derivation_paths st ++ recs) by (destruct st; reflexivity).
    pose proof (max_index_spec (derivation_paths st)) as Hall_max.
    destruct (max_index (derivation_paths st)) as [g|] eqn:Hg.
    + destruct Hall_max as [Hle _]. apply max_index_app_below; [exact Hg|].
      intros d Hd. specialize (Hle d0 Hd0). specialize (Hbelow d Hd). lia.
    + rewrite Hall_max in Hd0. destruct Hd0.
Qed.

(** *** A coin that arrives *)

Lemma coin_added_frame env coin coinbase fee_reward wallet_id wallet_type height
    all_outgoing st :
  let st' := snd (coin_added env coin coinbase fee_reward wallet_id wallet_type
                    height all_outgoing st) in
  last_used st' = last_used st
  /\ derivation_paths st' = derivation_paths st
  /\ wallets st' = wallets st.
Proof.
  cbv zeta. rewrite coin_added_run. cbv zeta.
  destruct (is_change _ wallet_type); [|repeat split].
  destruct (denoted_type wallet_type); try destruct (lookup_wallet wallet_id st);
    destruct st; repeat split.
Qed.

Lemma coin_added_returned env coin coinbase fee_reward wallet_id wallet_type height
    all_outgoing st r st' :
  coin_added env coin coinbase fee_reward wallet_id wallet_type height all_outgoing st
  = (Ok r, st') ->
  exists change,
    is_change (get_coin_record (parent_coin_info coin) st) wallet_type = Ok change.
Proof.
  rewrite coin_added_run.
  destruct (is_change _ wallet_type) as [change|e]; [|discriminate].
  intros _. exists change. reflexivity.
Qed.

(** X24. After [coin_added] has returned for a coin, [get_wallet_for_coin]
    on the name of that coin answers the wallet that [self.wallets] holds
    under the wallet id of the coin, and raises [KeyError] when it holds
    none (a standard wallet is not looked up by [coin_added]). *)
Theorem get_wallet_for_coin_after_coin_added env coin coinbase fee_reward wallet_id
    wallet_type height all_outgoing st record st' :
  coin_added env coin coinbase fee_reward wallet_id wallet_type height all_outgoing st
  = (Ok record, st') ->
  fst (get_wallet_for_coin (coin_name env coin) st')
  = match lookup_wallet wallet_id st with
    | Some wallet => Ok (Some wallet)
    | None => Raise KeyError
    end.
Proof.
  intros H.
  destruct (coin_added_returned _ _ _ _ _ _ _ _ _ _ _ H) as [change Hchange].
  pose proof (coin_added_coin_store env coin coinbase fee_reward wallet_id
                wallet_type height all_outgoing st change Hchange) as Hstore.
  pose proof (coin_added_frame env coin coinbase fee_reward wallet_id wallet_type
                height all_outgoing st) as Hframe.
  cbv zeta in Hframe. rewrite H in Hstore, Hframe. cbn [snd] in *.
  destruct Hframe as (_ & _ & Hw).
  unfold get_wallet_for_coin, bind, gets, get_coin_record.
  rewrite Hstore, lookup_insert_eq. unfold added_coin_record. cbn [wcr_wallet_id].
  unfold lookup_wallet. rewrite Hw.
  destruct (List.find (fun p => fst p =? wallet_id) (wallets st)); reflexivity.
Qed.

Lemma get_wallet_for_coin_after_coin_added_witness :
  fst (get_wallet_for_coin (coin_name ex_plain_env ex_farmer_coin)
         (snd (coin_added ex_plain_env ex_farmer_coin false true 1
                 (enum_member STANDARD_WALLET) 100 [] (ex_state [] []))))
  = match lookup_wallet 1 (ex_state [] []) with
    | Some wallet => Ok (Some wallet)
    | None => Raise KeyError
    end.
Proof.
  apply (get_wallet_for_coin_after_coin_added ex_plain_env ex_farmer_coin false true 1
           (enum_member STANDARD_WALLET) 100 [] (ex_state [] [])
           (added_coin_record ex_farmer_coin false true 1 STANDARD_WALLET 100)).
  vm_compute. reflexivity.
Defined.

Lemma min_fold_attained l (m : Z) :
  exists m',
    fold_left (fun acc d =>
                 match acc with
                 | Some m => Some (Z.min m (dr_index d))
                 | None => Some (dr_index d)
                 end) l (Some m) = Some m'
    /\ (m' = m \/ exists d, In d l /\ dr_index d = m').
Proof.
  revert m. induction l as [|x rest IH]; intros m; simpl.
  - exists m. split; [reflexivity | left; reflexivity].
  - destruct (IH (Z.min m (dr_index x))) as (m' & H & Hatt).
    exists m'. split; [exact H|].
    destruct Hatt as [->|(d & Hd & Hm)].
    + destruct (Z.min_spec m (dr_index x)) as [[_ ->]|[_ ->]].
      * left. reflexivity.
      * right. exists x. split; [left|]; reflexivity.
    + right. exists d. split; [right; exact Hd | exact Hm].
Qed.

Lemma min_index_attained l m :
  min_index l = Some m -> exists d, In d l /\ dr_index d = m.
Proof.
  unfold min_index. destruct l as [|x rest]; simpl; [discriminate|].
  destruct (min_fold_attained rest (dr_index x)) as (m' & -> & Hatt).
  intros H. inversion H; subst.
  destruct Hatt as [->|(d & Hd & Hm)].
  - exists x. split; [left|]; reflexivity.
  - exists d. split; [right; exact Hd | exact Hm].
Qed.

(** X25. When [new_coin_state] returns for a coin state, created and not
    spent, whose puzzle hash is in the derivation index, the key of that
    puzzle hash is marked as used: [last_used] is at least its derivation
    index (and never lower than before), so the next unused derivation path
    is above it. *)
Theorem new_coin_state_marks_key_used env cs current_height st created d result st' :
  created_height cs = Some created ->
  spent_height cs = None ->
  find_derivation (puzzle_hash (cs_coin cs)) st = Some d ->
  new_coin_state env [cs] None current_height st = (Ok result, st') ->
  last_used st'
  = Some (match last_used st with
          | Some u => Z.max u (dr_index d)
          | None => dr_index d
          end)
  /\ forall unused, get_unused_derivation_path st' = Some unused ->
                    dr_index d < unused.
Proof.
  intros Hc Hs Hd H. rewrite new_coin_state_single in H.
  destruct (coin_state_body env (get_all_unconfirmed st) empty_locals cs st)
    as [[loc|e] st1] eqn:Hbody; [|discriminate].
  assert (Hst' : last_used st' = last_used st1).
  { inversion H. destruct st1; reflexivity. }
  clear H.
  unfold coin_state_body in Hbody.
  bind_inv Hbody as u1 s1 H1. bind_inv Hbody as info s2 H2.
  bind_inv Hbody as interested s3 H3.
  rewrite Hc, Hs in Hbody.
  unfold emit, modify in H1. inversion H1; subst s1. clear H1.
  unfold gets in H2, H3. inversion H2; subst. clear H2. inversion H3; subst. clear H3.
  unfold wallet_info_for_puzzle_hash in Hbody.
  replace (find_derivation (puzzle_hash (cs_coin cs))
             (set_events (events st ++ [coin_state_ev cs]) st))
    with (find_derivation (puzzle_hash (cs_coin cs)) st) in Hbody
    by (destruct st; reflexivity).
  rewrite Hd in Hbody. unfold created_case in Hbody.
  bind_inv Hbody as resolved s4 H4. unfold ret in H4. inversion H4; subst. clear H4.
  bind_inv Hbody as cached s5 H5. bind_inv Hbody as record s6 H6.
  bind_inv Hbody as index s7 H7. bind_inv Hbody as u2 s8 H8.
  inversion Hbody; subst. clear Hbody.
  assert (Hs5 : s5 = set_events (events st ++ [coin_state_ev cs]) st).
  { destruct (cached_outgoing _ _).
    - inversion H5. reflexivity.
    - bind_inv H5 as all s9 H9. inversion H9. inversion H5. congruence. }
  subst s5.
  pose proof (coin_added_frame env (cs_coin cs)
                (if is_farmer_reward env created (parent_coin_info (cs_coin cs))
                 then false
                 else is_pool_reward env created (parent_coin_info (cs_coin cs)))
                (is_farmer_reward env created (parent_coin_info (cs_coin cs)))
                (dr_wallet_id d) (enum_member (dr_wallet_type d)) created (fst cached)
                (set_events (events st ++ [coin_state_ev cs]) st)) as Hframe.
  cbv zeta in Hframe. rewrite H6 in Hframe. cbn [snd] in Hframe.
  destruct Hframe as (Hlu & Hpaths & _).
  unfold gets in H7. inversion H7; subst. clear H7.
  assert (Hidx : index_for_puzzle_hash (puzzle_hash (cs_coin cs)) s7
                 = Some (dr_index d)).
  { unfold index_for_puzzle_hash, find_derivation in *. rewrite Hpaths.
    replace (derivation_paths (set_events (events st ++ [coin_state_ev cs]) st))
      with (derivation_paths st) by (destruct st; reflexivity).
    rewrite Hd. reflexivity. }
  rewrite Hidx in H8. unfold set_used_up_to, modify in H8. inversion H8; subst. clear H8.
  assert (Hlu' : last_used s7 = last_used st)
    by (rewrite Hlu; destruct st; reflexivity).
  assert (Hfinal : last_used st'
                   = Some (match last_used st with
                           | Some u => Z.max u (dr_index d)
                           | None => dr_index d
                           end)).
  { rewrite Hst', <- Hlu'. destruct (last_used s7) as [u|] eqn:Eu.
    - destruct (u <? dr_index d) eqn:Elt.
      + destruct s7; simpl in *. f_equal. lia.
      + rewrite Eu. f_equal. lia.
    - destruct s7; reflexivity. }
  split; [exact Hfinal|].
  intros unused Hunused. unfold get_unused_derivation_path in Hunused.
  rewrite Hfinal in Hunused. apply min_index_attained in Hunused.
  destruct Hunused as (d' & Hd' & <-). apply List.filter_In in Hd'.
  destruct Hd' as [_ Hd']. destruct (last_used st); lia.
Qed.

Lemma new_coin_state_marks_key_used_witness :
  last_used (snd (new_coin_state ex_plain_env
                    [mkCoinState (mkCoin 5 111 4) None (Some 7)] None None
                    ex_balance_state))
  = Some (match last_used ex_balance_state with
          | Some u => Z.max u (dr_index (mkDerivationRecord 1 111 101 STANDARD_WALLET 1))
          | None => dr_index (mkDerivationRecord 1 111 101 STANDARD_WALLET 1)
          end)
  /\ forall unused,
       get_unused_derivation_path
         (snd (new_coin_state ex_plain_env
                 [mkCoinState (mkCoin 5 111 4) None (Some 7)] None None
                 ex_balance_state)) = Some unused ->
       dr_index (mkDerivationRecord 1 111 101 STANDARD_WALLET 1) < unused.
Proof.
  apply (new_coin_state_marks_key_used ex_plain_env
           (mkCoinState (mkCoin 5 111 4) None (Some 7)) None ex_balance_state 7
           (mkDerivationRecord 1 111 101 STANDARD_WALLET 1)
           ([mkWalletCoinRecord (mkCoin 5 111 4) 7 0 false false STANDARD_WALLET 1], [])).
  - reflexivity.
  - reflexivity.
  - reflexivity.
  - vm_compute. reflexivity.
Defined.

(** *** A transaction that is added *)

Lemma tx_store_add_fresh t l :
  (forall t0, In t0 l -> tx_name t0 <> tx_name t) -> tx_store_add t l = l ++ [t].
Proof.
  induction l as [|x rest IH]; intros H; simpl; [reflexivity|].
  destruct (tx_name x =? tx_name t) eqn:E.
  - exfalso. apply (H x); [left; reflexivity | lia].
  - f_equal. apply IH. intros t0 Ht0. apply H. right. exact Ht0.
Qed.

(** X26. Adding, with [add_transaction], an unconfirmed transaction of a
    wallet under a name that the ledger does not hold yet moves the
    unconfirmed balance of the wallet by what the transaction spends and
    returns: the balance is then the confirmed balance, minus the removals of
    the transactions that were pending and of the new one, plus their
    additions that belong to the wallet. *)
Theorem add_transaction_moves_unconfirmed_balance wallet_id records st t :
  confirmed t = false ->
  tx_wallet_id t = wallet_id ->
  (forall t0, In t0 (tx_store st) -> tx_name t0 <> tx_name t) ->
  get_unconfirmed_balance wallet_id records (snd (add_transaction t st))
  = match get_confirmed_balance_for_wallet wallet_id records st with
    | Ok confirmed_balance =>
        uint128
          (confirmed_balance
           - (sum_amounts (unconfirmed_removals wallet_id st)
              + sum_amounts (removals t))
           + (sum_amounts (unconfirmed_own_additions wallet_id st)
              + sum_amounts
                  (List.filter (fun c => does_coin_belong_to_wallet c wallet_id st)
                     (additions t))))
    | Raise e => Raise e
    end.
Proof.
  intros Hc Hw Hfresh.
  assert (Hst : snd (add_transaction t st)
                = set_events
                    (events st
                     ++ [state_changed_ev "pending_transaction" (Some (tx_wallet_id t))])
                    (set_tx_store (tx_store st ++ [t]) st)).
  { unfold add_transaction, bind, add_transaction_record, state_changed, emit, modify.
    cbn [snd]. rewrite tx_store_add_fresh by exact Hfresh. destruct st; reflexivity. }
  rewrite Hst. unfold get_unconfirmed_balance.
  replace (get_confirmed_balance_for_wallet wallet_id records (set_events _ _))
    with (get_confirmed_balance_for_wallet wallet_id records st)
    by (destruct st; reflexivity).
  destruct (get_confirmed_balance_for_wallet wallet_id records st) as [c|e];
    [|reflexivity].
  assert (Hpending : get_unconfirmed_for_wallet wallet_id
                       (set_events
                          (events st
                           ++ [state_changed_ev "pending_transaction"
                                 (Some (tx_wallet_id t))])
                          (set_tx_store (tx_store st ++ [t]) st))
                     = get_unconfirmed_for_wallet wallet_id st ++ [t]).
  { unfold get_unconfirmed_for_wallet.
    replace (tx_store (set_events _ _)) with (tx_store st ++ [t])
      by (destruct st; reflexivity).
    rewrite List.filter_app. simpl. rewrite Hc, Hw, Z.eqb_refl. reflexivity. }
  rewrite Hpending, unconfirmed_loop_sum.
  rewrite !flat_map_app, List.filter_app, !sum_amounts_app. simpl.
  rewrite !app_nil_r.
  assert (Hbelong : forall c0,
            does_coin_belong_to_wallet c0 wallet_id
              (set_events
                 (events st
                  ++ [state_changed_ev "pending_transaction" (Some (tx_wallet_id t))])
                 (set_tx_store (tx_store st ++ [t]) st))
            = does_coin_belong_to_wallet c0 wallet_id st).
  { intros c0. destruct st; reflexivity. }
  rewrite !(List.filter_ext _ _ Hbelong).
  unfold unconfirmed_removals, unconfirmed_own_additions. f_equal; lia.
Qed.

Lemma add_transaction_moves_unconfirmed_balance_witness :
  get_unconfirmed_balance 1 None
    (snd (add_transaction
            (mkTransactionRecord 0 0 500 15 0 false 0 None
               [mkCoin 8 500 15; mkCoin 8 110 5] [mkCoin 2 110 20] 1 [] None
               (TransactionType_value OUTGOING_TX) 44)
            ex_balance_state))
  = match get_confirmed_balance_for_wallet 1 None ex_balance_state with
    | Ok confirmed_balance =>
        uint128
          (confirmed_balance
           - (sum_amounts (unconfirmed_removals 1 ex_balance_state)
              + sum_amounts [mkCoin 2 110 20])
           + (sum_amounts (unconfirmed_own_additions 1 ex_balance_state)
              + sum_amounts
                  (List.filter
                     (fun c => does_coin_belong_to_wallet c 1 ex_balance_state)
                     [mkCoin 8 500 15; mkCoin 8 110 5])))
    | Raise e => Raise e
    end.
Proof.
  apply (add_transaction_moves_unconfirmed_balance 1 None ex_balance_state
           (mkTransactionRecord 0 0 500 15 0 false 0 None
              [mkCoin 8 500 15; mkCoin 8 110 5] [mkCoin 2 110 20] 1 [] None
              (TransactionType_value OUTGOING_TX) 44)).
  - reflexivity.
  - reflexivity.
  - intros t0 [<-|[]]. vm_compute. discriminate.
Defined.
